(** * NBA Injury Alert: change detection and notification dispatch

    A shallow embedding of the polling / dedup / diff / notification
    pipeline of the backend (fetcher/base.py, fetcher/nba.py,
    processor/injury.py, notifier/channels.py, notifier/service.py,
    utils/errors.py), and the properties of the specification proved or
    refuted against it.

    Conventions.  Python [int] is [Z]; [str] is [string], read as a
    sequence of code points below 256; [None] is [option]'s [None];
    a [dict] is an insertion-ordered association list with unique keys;
    an exception is a value of [exn] and a call that may raise returns
    [res].  Database tables are lists of rows in primary-key order. *)

From Stdlib Require Import List String Ascii ZArith Lia Bool Arith.
From Stdlib Require Import Permutation Sorted OrderedTypeEx.
From Equations Require Import Equations.
Import ListNotations.

Open Scope string_scope.
Open Scope Z_scope.

(* ================================================================== *)
(** * Part I: definitions                                              *)
(* ================================================================== *)

(** ** Python exceptions and fallible results *)

Module Py.

(** A value stored in the [details] dict of an application error. *)
Inductive detail :=
| DInt (n : Z)
| DStr (s : string).

(** The exceptions the pipeline raises or catches.  [FetcherError],
    [NotifierError] and [ProcessorError] are the [BaseAppError]
    subclasses of utils/errors.py; [OtherError] stands for any other
    [Exception] subclass, named by its class. *)
Inductive exn :=
| FetcherError (message : string) (status_code : Z)
               (details : list (string * detail)) (retry_after : option Z)
| NotifierError (message : string) (status_code : Z)
| ProcessorError (message : string) (status_code : Z)
| ValueError (msg : string)
| AttributeError (msg : string)
| OtherError (cls : string) (msg : string).

(** [str(e)]: the application errors pass [message] to
    [Exception.__init__]. *)
Definition str_exn (e : exn) : string :=
  match e with
  | FetcherError m _ _ _ => m
  | NotifierError m _ => m
  | ProcessorError m _ => m
  | ValueError m => m
  | AttributeError m => m
  | OtherError _ m => m
  end.

Inductive res (A : Type) :=
| Ok (a : A)
| Raise (e : exn).
Arguments Ok {A} a.
Arguments Raise {A} e.

(** An [int] argument of a function written in C is converted to a C
    [int]; a value outside its range raises [OverflowError] before the
    function looks at it (the texts are those of CPython with a 64-bit
    [long]). *)
Definition fits_c_int (n : Z) : bool :=
  (-2147483648 <=? n) && (n <=? 2147483647).

Definition OverflowError (n : Z) : exn :=
  OtherError "OverflowError"
    (if (n <? -9223372036854775808) || (9223372036854775807 <? n)
     then "Python int too large to convert to C long"
     else if n <? 0 then "signed integer is less than minimum"
     else "signed integer is greater than maximum").

(** SQLAlchemy: [session.commit()] expires the attributes of every
    instance of the session and [session.close()] detaches the
    instances, so that reading a column of such an instance afterwards
    raises instead of giving [value].  The address Python prints in the
    text is left out. *)
Definition DetachedInstanceError (cls : string) : exn :=
  OtherError "DetachedInstanceError"
    ("Instance <" ++ cls ++ "> is not bound to a Session; "
     ++ "attribute refresh operation cannot proceed").

Definition expired {A} (cls : string) (value : A) : res A :=
  Raise (DetachedInstanceError cls).

Definition bind {A B} (r : res A) (k : A -> res B) : res B :=
  match r with
  | Ok a => k a
  | Raise e => Raise e
  end.

(** [try: r  except Exception as e: h e] *)
Definition try_except {A} (r : res A) (h : exn -> res A) : res A :=
  match r with
  | Ok a => Ok a
  | Raise e => h e
  end.

(** ** Text helpers *)

Definition digit_char (d : Z) : ascii :=
  ascii_of_nat (Z.to_nat (48 + d)).

Fixpoint digits_of_pos (fuel : nat) (n : Z) (acc : string) : string :=
  match fuel with
  | O => acc
  | S fuel' =>
      let acc' := String (digit_char (n mod 10)) acc in
      if n / 10 =? 0 then acc' else digits_of_pos fuel' (n / 10) acc'
  end.

(** [str(n)] for an [int]. *)
Definition str_Z (n : Z) : string :=
  if n <? 0
  then String "-" (digits_of_pos (S (Z.to_nat (Z.log2 (- n)))) (- n) "")
  else digits_of_pos (S (Z.to_nat (Z.log2 n))) n "".

Fixpoint join (sep : string) (l : list string) : string :=
  match l with
  | [] => ""
  | [x] => x
  | x :: r => x ++ sep ++ join sep r
  end.

Definition code (c : ascii) : Z := Z.of_nat (nat_of_ascii c).

Definition hex_char (d : Z) : ascii :=
  if d <? 10 then ascii_of_nat (Z.to_nat (48 + d))
  else ascii_of_nat (Z.to_nat (87 + d)).

(** [str.isspace] below 256, the characters [int] skips around a
    number. *)
Definition is_space (c : ascii) : bool :=
  let n := code c in
  ((9 <=? n) && (n <=? 13)) || ((28 <=? n) && (n <=? 32))
  || (n =? 133) || (n =? 160).

Definition is_digit (c : ascii) : bool :=
  let n := code c in (48 <=? n) && (n <=? 57).

Fixpoint lstrip (p : ascii -> bool) (s : string) : string :=
  match s with
  | EmptyString => ""
  | String a r => if p a then lstrip p r else s
  end.

Fixpoint rstrip (p : ascii -> bool) (s : string) : string :=
  match s with
  | EmptyString => ""
  | String a r =>
      let r' := rstrip p r in
      if (r' =? "")%string && p a then "" else String a r'
  end.

Fixpoint parse_digits (s : string) (acc : Z) (prev_digit : bool) : option Z :=
  match s with
  | EmptyString => if prev_digit then Some acc else None
  | String c r =>
      if is_digit c then parse_digits r (acc * 10 + (code c - 48)) true
      else if (c =? "_")%char && prev_digit then parse_digits r acc false
      else None
  end.

(** [int(s)] in base 10: surrounding whitespace, one optional sign,
    digits with single underscores between them.  [None] is
    [ValueError]. *)
Definition py_int (s : string) : option Z :=
  match lstrip is_space (rstrip is_space s) with
  | String "-" r => option_map Z.opp (parse_digits r 0 false)
  | String "+" r => parse_digits r 0 false
  | t => parse_digits t 0 false
  end.

(** [s.split(sep)] for a one-character separator. *)
Fixpoint split (sep : ascii) (s : string) : list string :=
  match s with
  | EmptyString => [""]
  | String c r =>
      if (c =? sep)%char then "" :: split sep r
      else match split sep r with
           | [] => [String c ""]
           | x :: l => String c x :: l
           end
  end.

End Py.

Import Py.

(** ** Insertion-ordered dictionaries *)

Module Dict.

Section WithKey.
Context {K V : Type}.
Variable keq : K -> K -> bool.

(** [d.get(k)] *)
Fixpoint get (d : list (K * V)) (k : K) : option V :=
  match d with
  | [] => None
  | (k', v) :: r => if keq k k' then Some v else get r k
  end.

(** [k in d] *)
Definition mem (d : list (K * V)) (k : K) : bool :=
  match get d k with Some _ => true | None => false end.

(** [d[k] = v]: an existing key keeps its position, a new key goes
    last. *)
Fixpoint set (d : list (K * V)) (k : K) (v : V) : list (K * V) :=
  match d with
  | [] => [(k, v)]
  | (k', v') :: r =>
      if keq k k' then (k', v) :: r else (k', v') :: set r k v
  end.

(** [{key(x): x for x in items}] *)
Definition of_items (key : V -> K) (items : list V) : list (K * V) :=
  fold_left (fun d x => set d (key x) x) items [].

Definition keys (d : list (K * V)) : list K := map fst d.
End WithKey.

End Dict.

(** ** JSON payloads and [json.dumps(data, sort_keys=True)] *)

Module Json.

Definition dquote : ascii := "034"%char.

(** What [response.json()] returns.  A float is carried by the text
    [float.__repr__] gives it, which is what the encoder emits. *)
#[local] Unset Elimination Schemes.
Inductive json :=
| JNull
| JBool (b : bool)
| JInt (n : Z)
| JFloat (repr : string)
| JStr (s : string)
| JList (l : list json)
| JDict (items : list (string * json)).
#[local] Set Elimination Schemes.

(** [json.encoder.py_encode_basestring_ascii]: everything outside
    [' '..'~'], the quote and the backslash are escaped. *)
Definition escape_char (c : ascii) : string :=
  let n := code c in
  if n =? 34 then String "\" (String dquote "")
  else if n =? 92 then "\\"
  else if n =? 10 then "\n"
  else if n =? 13 then "\r"
  else if n =? 9 then "\t"
  else if n =? 8 then "\b"
  else if n =? 12 then "\f"
  else if (32 <=? n) && (n <=? 126) then String c ""
  else String "\" (String "u" (String "0" (String "0"
         (String (hex_char (n / 16)) (String (hex_char (n mod 16)) ""))))).

Fixpoint escape (s : string) : string :=
  match s with
  | EmptyString => ""
  | String c r => escape_char c ++ escape r
  end.

Definition encode_basestring_ascii (s : string) : string :=
  String dquote (escape s ++ String dquote "").

(** [sorted(dct.items())]: keys are unique, so the order is decided by
    the keys alone (code-point order on [str]). *)
Fixpoint insert_item {A} (kv : string * A) (l : list (string * A))
  : list (string * A) :=
  match l with
  | [] => [kv]
  | x :: r =>
      if String.ltb (fst x) (fst kv) then x :: insert_item kv r
      else kv :: l
  end.

Fixpoint sort_items {A} (l : list (string * A)) : list (string * A) :=
  match l with
  | [] => []
  | kv :: r => insert_item kv (sort_items r)
  end.

Definition render_item (kv : string * string) : string :=
  encode_basestring_ascii (fst kv) ++ ": " ++ snd kv.

(** [json.dumps(j, sort_keys=sort_keys)] with the default separators
    [", "] and [": "].  The values of a dict are rendered before its
    items are sorted; sorting looks at keys only, so this is the text
    the encoder produces from the sorted items. *)
Fixpoint dumps (sort_keys : bool) (j : json) : string :=
  match j with
  | JNull => "null"
  | JBool true => "true"
  | JBool false => "false"
  | JInt n => str_Z n
  | JFloat r => r
  | JStr s => encode_basestring_ascii s
  | JList l => "[" ++ join ", " (map (dumps sort_keys) l) ++ "]"
  | JDict items =>
      let rendered :=
        map (fun kv => let '(k, v) := kv in (k, dumps sort_keys v)) items in
      "{" ++ join ", "
               (map render_item
                  (if sort_keys then sort_items rendered else rendered))
          ++ "}"
  end.

(** Keys of every dict are pairwise distinct, as in any Python dict. *)
Fixpoint wf (j : json) : Prop :=
  match j with
  | JList l => (fix all (l : list json) : Prop :=
                  match l with
                  | [] => True
                  | x :: r => wf x /\ all r
                  end) l
  | JDict items =>
      NoDup (map fst items) /\
      (fix all (l : list (string * json)) : Prop :=
         match l with
         | [] => True
         | (_, v) :: r => wf v /\ all r
         end) items
  | _ => True
  end.

(** Two payloads hold the same data: equal atoms, lists equal element
    by element, dicts with the same number of keys and, under every key
    of the first, the same data in the second.  Key order plays no
    part. *)
Fixpoint same_data (a b : json) : bool :=
  match a, b with
  | JNull, JNull => true
  | JBool x, JBool y => Bool.eqb x y
  | JInt x, JInt y => x =? y
  | JFloat x, JFloat y => (x =? y)%string
  | JStr x, JStr y => (x =? y)%string
  | JList l, JList l' =>
      (fix all2 (l : list json) (l' : list json) : bool :=
         match l, l' with
         | [], [] => true
         | x :: r, y :: r' => same_data x y && all2 r r'
         | _, _ => false
         end) l l'
  | JDict d, JDict d' =>
      (List.length d =? List.length d')%nat &&
      (fix all (l : list (string * json)) : bool :=
         match l with
         | [] => true
         | (k, v) :: r =>
             match Dict.get String.eqb d' k with
             | Some v' => same_data v v'
             | None => false
             end && all r
         end) d
  | _, _ => false
  end.

(** *** Vocabulary of the serialization properties *)

(** Strict order of two items by key. *)
Definition key_lt {A} (a b : string * A) : Prop :=
  String.ltb (fst a) (fst b) = true.

(** An item with its value serialized. *)
Definition render (kv : string * json) : string * string :=
  let '(k, v) := kv in (k, dumps true v).

End Json.

(** ** SHA-256 and the content fingerprint *)

Module Sha256.

Definition w32 (x : Z) : Z := x mod 2 ^ 32.
Definition add32 (x y : Z) : Z := w32 (x + y).
Definition rotr (n x : Z) : Z :=
  Z.lor (Z.shiftr x n) (w32 (Z.shiftl x (32 - n))).
Definition not32 (x : Z) : Z := Z.lxor x (2 ^ 32 - 1).

(** The round constants are the first 32 bits of the fractional parts
    of the cube roots of the first 64 primes, the initial hash value
    those of the square roots of the first 8; they are computed here
    from that definition. *)
Fixpoint primes_from (fuel : nat) (n : Z) (count : nat) (found : list Z)
  : list Z :=
  match fuel, count with
  | S fuel', S count' =>
      if forallb (fun q => negb (n mod q =? 0)) found
      then primes_from fuel' (n + 1) count' (found ++ [n])
      else primes_from fuel' (n + 1) count found
  | _, _ => found
  end.

Definition primes (count : nat) : list Z := primes_from 400 2 count [].

(** The integer [k]-th root, one bit at a time from the top. *)
Fixpoint root_bits (k n : Z) (bits : nat) (r : Z) : Z :=
  match bits with
  | O => r
  | S bits' =>
      let c := r + 2 ^ Z.of_nat bits' in
      root_bits k n bits' (if c ^ k <=? n then c else r)
  end.

Definition frac32 (k q : Z) : Z :=
  w32 (root_bits k (q * 2 ^ (32 * k)) 40 0).

Definition K : list Z := Eval vm_compute in map (frac32 3) (primes 64).

Definition H0 : list Z := Eval vm_compute in map (frac32 2) (primes 8).

(** Message padding: 0x80, zeros up to 56 mod 64, 64-bit bit length. *)
Definition be_bytes (n : nat) (x : Z) : list Z :=
  map (fun i => (x / 2 ^ (8 * Z.of_nat i)) mod 256) (rev (seq 0 n)).

Definition pad (m : list Z) : list Z :=
  let len := Z.of_nat (List.length m) in
  let zeros := Z.to_nat ((55 - len) mod 64) in
  m ++ [128] ++ repeat 0 zeros ++ be_bytes 8 (8 * len).

Fixpoint words (fuel : nat) (bs : list Z) : list Z :=
  match fuel, bs with
  | S f, a :: b :: c :: d :: r =>
      (((a * 256 + b) * 256 + c) * 256 + d) :: words f r
  | _, _ => []
  end.

Fixpoint chunks {A} (fuel n : nat) (l : list A) : list (list A) :=
  match fuel, l with
  | S f, _ :: _ => firstn n l :: chunks f n (skipn n l)
  | _, _ => []
  end.

(** The schedule is kept newest-first while it is extended. *)
Fixpoint extend (n : nat) (rw : list Z) : list Z :=
  match n with
  | O => rw
  | S n' =>
      let g i := nth i rw 0 in
      let s0 := Z.lxor (Z.lxor (rotr 7 (g 14%nat)) (rotr 18 (g 14%nat)))
                       (Z.shiftr (g 14%nat) 3) in
      let s1 := Z.lxor (Z.lxor (rotr 17 (g 1%nat)) (rotr 19 (g 1%nat)))
                       (Z.shiftr (g 1%nat) 10) in
      extend n' (add32 (add32 (g 15%nat) s0) (add32 (g 6%nat) s1) :: rw)
  end.

Definition schedule (block : list Z) : list Z :=
  rev (extend 48 (rev (words 16 block))).

Definition round (st : list Z) (kw : Z * Z) : list Z :=
  match st with
  | [a; b; c; d; e; f; g; h] =>
      let S1 := Z.lxor (Z.lxor (rotr 6 e) (rotr 11 e)) (rotr 25 e) in
      let ch := Z.lxor (Z.land e f) (Z.land (not32 e) g) in
      let t1 := add32 (add32 (add32 h S1) (add32 ch (fst kw))) (snd kw) in
      let S0 := Z.lxor (Z.lxor (rotr 2 a) (rotr 13 a)) (rotr 22 a) in
      let maj := Z.lxor (Z.lxor (Z.land a b) (Z.land a c)) (Z.land b c) in
      let t2 := add32 S0 maj in
      [add32 t1 t2; a; b; c; add32 d t1; e; f; g]
  | _ => st
  end.

Definition compress (h : list Z) (block : list Z) : list Z :=
  map (fun p => add32 (fst p) (snd p))
      (combine h (fold_left round (combine K (schedule block)) h)).

Definition digest (m : list Z) : list Z :=
  let p := pad m in
  fold_left compress (chunks (List.length p) 64 p) H0.

Definition hex_word (x : Z) : string :=
  string_of_list_ascii
    (map (fun i => hex_char ((x / 16 ^ Z.of_nat i) mod 16)) (rev (seq 0 8))).

(** [hashlib.sha256(bytes).hexdigest()] *)
Definition hexdigest (m : list Z) : string :=
  String.concat "" (map hex_word (digest m)).

End Sha256.

Module BaseFetcher.
Import Json.

(** [s.encode("utf-8")] on code points below 256. *)
Fixpoint encode_utf8 (s : string) : list Z :=
  match s with
  | EmptyString => []
  | String c r =>
      let n := code c in
      if n <? 128 then n :: encode_utf8 r
      else (192 + n / 64) :: (128 + n mod 64) :: encode_utf8 r
  end.

(** [BaseFetcher.generate_hash]: a dict or a list is serialized with
    sorted keys first; anything else must have [.encode], which only
    [str] has. *)
Definition generate_hash (data : json) : res string :=
  match data with
  | JDict _ | JList _ => Ok (Sha256.hexdigest (encode_utf8 (dumps true data)))
  | JStr s => Ok (Sha256.hexdigest (encode_utf8 s))
  | JNull => Raise (AttributeError "'NoneType' object has no attribute 'encode'")
  | JBool _ => Raise (AttributeError "'bool' object has no attribute 'encode'")
  | JInt _ => Raise (AttributeError "'int' object has no attribute 'encode'")
  | JFloat _ => Raise (AttributeError "'float' object has no attribute 'encode'")
  end.

End BaseFetcher.


(** ** utils/errors.py *)

Module Errors.

(** [FetcherError.__init__(message, status_code=500, details=None,
    retry_after=None)]: [retry_after] is kept as an attribute and, when
    given, copied into [details]. *)
Definition new_FetcherError (message : string) (status_code : option Z)
    (details : option (list (string * detail))) (retry_after : option Z)
  : exn :=
  let details := match details with Some d => d | None => [] end in
  let details :=
    match retry_after with
    | Some n => Dict.set String.eqb details "retry_after" (DInt n)
    | None => details
    end in
  FetcherError message
               (match status_code with Some c => c | None => 500 end)
               details retry_after.

(** [e.retry_after], [None] for the classes without the attribute. *)
Definition retry_after (e : exn) : option Z :=
  match e with
  | FetcherError _ _ _ r => r
  | _ => None
  end.

(** [e.status_code] of an application error. *)
Definition status_code (e : exn) : option Z :=
  match e with
  | FetcherError _ c _ _ => Some c
  | NotifierError _ c => Some c
  | ProcessorError _ c => Some c
  | _ => None
  end.

End Errors.

(** ** fetcher/base.py: the HTTP client *)

Module HttpFetcher.
Import Json.

Record Response := {
  resp_status_code : Z;
  (** [response.headers.get("Retry-After")] *)
  resp_retry_after : option string;
  resp_text : string;
  (** what [response.json()] returns or raises *)
  resp_json : res json
}.

Record Request := {
  req_method : string;
  req_url : string;
  req_params : option (list (string * string));
  req_data : option (list (string * string));
  req_json : option json;
  req_headers : list (string * string)
}.

(** What one [client.request] call ends in. *)
Inductive outcome :=
| Responded (r : Response)
| TimedOut (msg : string)
| RequestFailed (msg : string).

(** The provider: the outcome of the [n]-th request sent (from 0). *)
Definition server := nat -> Request -> outcome.

(** The fields of [settings.fetcher] the client reads.  The poll
    interval, a float, appears only as the sleep it causes
    ([SleepPollInterval] below). *)
Record Settings := {
  max_retries_default : Z;
  nba_api_base_url : string;
  injury_report_endpoint : string
}.

Record t := {
  base_url : option string;
  headers : list (string * string);
  max_retries : Z
}.

(** [BaseFetcher.__init__]: [max_retries or settings.fetcher.max_retries];
    [0] and [None] both fall back to the setting. *)
Definition init (settings : Settings) (base_url : option string)
    (headers : option (list (string * string))) (max_retries : option Z) : t :=
  {| base_url := base_url;
     headers := match headers with Some h => h | None => [] end;
     max_retries :=
       match max_retries with
       | Some n => if n =? 0 then max_retries_default settings else n
       | None => max_retries_default settings
       end |}.

Definition is_slash (c : ascii) : bool := (c =? "/")%char.

Definition is_absolute (url : string) : bool :=
  String.prefix "http://" url || String.prefix "https://" url.

(** Lines 116-119: a relative URL is joined to the base URL. *)
Definition resolve_url (self : t) (url : string) : res string :=
  if is_absolute url then Ok url
  else match base_url self with
       | None | Some EmptyString =>
           Raise (Errors.new_FetcherError
                    "No base URL provided for relative URL" None None None)
       | Some b => Ok (rstrip is_slash b ++ "/" ++ lstrip is_slash url)
       end.

(** [{**a, **b}] *)
Definition merge (a b : list (string * string)) : list (string * string) :=
  fold_left (fun d kv => Dict.set String.eqb d (fst kv) (snd kv)) b a.

(** The request [_make_request] sends once the URL is resolved, with
    [merged_headers = {**self.headers, **(headers or {})}]. *)
Definition request_of (self : t) (method url : string)
    (params data : option (list (string * string)))
    (json_data : option json) (hdrs : option (list (string * string)))
  : Request :=
  {| req_method := method; req_url := url;
     req_params := params; req_data := data; req_json := json_data;
     req_headers :=
       merge (headers self) (match hdrs with Some h => h | None => [] end) |}.

(** [_make_request]: one request per call; a transient failure calls
    the function again with [retry_count + 1] while
    [retry_count < max_retries], and nothing is awaited between the two
    requests.  The second component is the log of the requests sent,
    oldest first. *)
Equations? make_request (self : t) (srv : server)
    (method url : string)
    (params data : option (list (string * string)))
    (json_data : option json)
    (hdrs : option (list (string * string)))
    (retry_count : Z) (log : list Request)
  : res Response * list Request
  by wf (Z.to_nat (max_retries self - retry_count)) lt :=
make_request self srv method url params data json_data hdrs retry_count log
  with resolve_url self url := {
  | Raise e => (Raise e, log)
  | Ok url' =>
      let rq := request_of self method url' params data json_data hdrs in
      let log' := (log ++ [rq])%list in
      match srv (List.length log) rq with
      | Responded response =>
          if resp_status_code response =? 429 then
            match py_int (match resp_retry_after response with
                          | Some v => v | None => "60" end) with
            | None =>
                (Raise (ValueError "invalid literal for int() with base 10"),
                 log')
            | Some ra =>
                (Raise (Errors.new_FetcherError "Rate limited by the API"
                          (Some 429) None (Some ra)), log')
            end
          else if 400 <=? resp_status_code response then
            match Z_lt_dec retry_count (max_retries self) with
            | left _ =>
                make_request self srv method url' params data json_data hdrs
                             (retry_count + 1) log'
            | right _ =>
                (Raise (Errors.new_FetcherError
                          ("HTTP error: " ++ str_Z (resp_status_code response))
                          (Some (resp_status_code response))
                          (Some [("response", DStr (resp_text response))])
                          None), log')
            end
          else (Ok response, log')
      | TimedOut _ =>
          match Z_lt_dec retry_count (max_retries self) with
          | left _ =>
              make_request self srv method url' params data json_data hdrs
                           (retry_count + 1) log'
          | right _ =>
              (Raise (Errors.new_FetcherError
                        "Request timed out after retries" None None None),
               log')
          end
      | RequestFailed msg =>
          match Z_lt_dec retry_count (max_retries self) with
          | left _ =>
              make_request self srv method url' params data json_data hdrs
                           (retry_count + 1) log'
          | right _ =>
              (Raise (Errors.new_FetcherError
                        ("Request error: " ++ msg) None None None), log')
          end
      end }.
Proof. all: lia. Qed.

(** *** Vocabulary of the retry properties *)





End HttpFetcher.

(** ** fetcher/nba.py: snapshot fetch with dedup, and the poller *)

Module NBA.
Import Json HttpFetcher.

(** A row of the [injury_report] table. *)
Record InjuryReport := {
  report_id : Z;
  report_date : Z;
  source_url : string;
  report_hash : string;
  raw_content : string
}.

Record World := {
  reports : list InjuryReport;
  http_log : list Request
}.

Record FetchResult := {
  fr_data : json;
  fr_hash : string;
  fr_is_new : bool;
  fr_report_id : option Z
}.

Definition default_headers : list (string * string) :=
  [("User-Agent",
    "Mozilla/5.0 (Windows NT 10.0; Win64; x64) AppleWebKit/537.36 (KHTML, like Gecko) Chrome/91.0.4472.124 Safari/537.36");
   ("Accept", "application/json");
   ("Accept-Language", "en-US,en;q=0.9");
   ("Referer", "https://www.nba.com/");
   ("Origin", "https://www.nba.com")].

(** [NBAInjuryFetcher.__init__] *)
Definition init (settings : Settings) (base_url : option string)
    (headers : option (list (string * string))) (max_retries : option Z)
  : HttpFetcher.t :=
  let base_url :=
    match base_url with
    | None | Some EmptyString => nba_api_base_url settings
    | Some b => b
    end in
  let headers :=
    merge default_headers (match headers with Some h => h | None => [] end) in
  HttpFetcher.init settings (Some base_url) (Some headers) max_retries.

(** [session.query(InjuryReport).filter_by(report_hash=h).first()] *)
Definition find_by_hash (rows : list InjuryReport) (h : string)
  : option InjuryReport :=
  find (fun r => (report_hash r =? h)%string) rows.

(** The autoincrement primary key. *)
Definition next_id (rows : list InjuryReport) : Z :=
  1 + fold_right (fun r m => Z.max (report_id r) m) 0 rows.

(** [session.add(report); session.commit()]; [report_hash] is declared
    [unique=True], so a second row with the same hash is refused. *)
Definition insert_report (rows : list InjuryReport) (date : Z)
    (url h raw : string) : res (Z * list InjuryReport) :=
  match find_by_hash rows h with
  | Some _ => Raise (OtherError "IntegrityError" "duplicate key value violates unique constraint")
  | None =>
      let id := next_id rows in
      Ok (id, (rows ++ [{| report_id := id; report_date := date;
                           source_url := url; report_hash := h;
                           raw_content := raw |}])%list)
  end.

Definition str_opt (o : option string) : string :=
  match o with Some s => s | None => "None" end.

(** The body of the [try] in [NBAInjuryFetcher.fetch], given what
    [_make_request] returned, with the table it leaves.  A report that
    is already stored is returned from inside the first session block.
    A new one is added and committed in the second block; the
    [return] that follows the block reads [report.id], and [report]
    is then an instance whose session has committed and closed: the
    read raises, the row staying committed. *)
Definition fetch_body (self : HttpFetcher.t) (settings : Settings)
    (now : Z) (rows : list InjuryReport) (r : res Response)
  : res FetchResult * list InjuryReport :=
  match r with
  | Raise e => (Raise e, rows)
  | Ok response =>
      match resp_json response with
      | Raise e => (Raise e, rows)
      | Ok data =>
          match BaseFetcher.generate_hash data with
          | Raise e => (Raise e, rows)
          | Ok report_hash =>
              match find_by_hash rows report_hash with
              | Some _ =>
                  (Ok {| fr_data := data; fr_hash := report_hash;
                         fr_is_new := false; fr_report_id := None |}, rows)
              | None =>
                  match insert_report rows now
                          (str_opt (base_url self)
                             ++ injury_report_endpoint settings)
                          report_hash (dumps false data) with
                  | Raise e => (Raise e, rows)
                  | Ok ins =>
                      (bind (expired "InjuryReport" (fst ins)) (fun id =>
                       Ok {| fr_data := data; fr_hash := report_hash;
                             fr_is_new := true; fr_report_id := Some id |}),
                       snd ins)
                  end
              end
          end
      end
  end.

(** [NBAInjuryFetcher.fetch]: whatever the body raises is replaced by a
    fresh [FetcherError] built from its text alone (lines 102-104). *)
Definition fetch (self : HttpFetcher.t) (settings : Settings)
    (srv : server) (now : Z) (w : World) : res FetchResult * World :=
  let '(r, log') :=
    make_request self srv "GET" (injury_report_endpoint settings)
                 None None None None 0 (http_log w) in
  let '(b, rows') := fetch_body self settings now (reports w) r in
  (match b with
   | Ok result => Ok result
   | Raise e =>
       Raise (Errors.new_FetcherError
                ("Failed to fetch NBA injury report: " ++ str_exn e)
                None None None)
   end,
   {| reports := rows'; http_log := log' |}).

(** *** The poller *)

(** What the loop awaits at the end of an iteration. *)
Inductive sleep :=
| SleepPollInterval
| SleepRetryAfter (seconds : Z).

Record PollState := {
  running : bool;
  last_report_time : option Z;
  world : World;
  slept : list sleep
}.

Definition callback := FetchResult -> PollState -> res unit * PollState.

Definition set_world (st : PollState) (w : World) : PollState :=
  {| running := running st; last_report_time := last_report_time st;
     world := w; slept := slept st |}.

Definition do_sleep (st : PollState) (s : sleep) : PollState :=
  {| running := running st; last_report_time := last_report_time st;
     world := world st; slept := (slept st ++ [s])%list |}.

Definition set_last_report_time (st : PollState) (now : Z) : PollState :=
  {| running := running st; last_report_time := Some now;
     world := world st; slept := slept st |}.

(** [stop_polling] *)
Definition stop_polling (st : PollState) : PollState :=
  {| running := false; last_report_time := last_report_time st;
     world := world st; slept := slept st |}.

(** [NBAInjuryPoller.poll_once] *)
Definition poll_once (self : HttpFetcher.t) (settings : Settings)
    (srv : server) (now : Z) (st : PollState)
  : res FetchResult * PollState :=
  let '(r, w') := fetch self settings srv now (world st) in
  (r, set_world st w').

(** The [except FetcherError as e] clause of the loop and the sleep
    that follows it; any other exception leaves the loop. *)
Definition after_error (e : exn) (st : PollState) : res unit * PollState :=
  match e with
  | FetcherError _ _ _ ra =>
      match ra with
      | Some n =>
          if n =? 0 then (Ok tt, do_sleep st SleepPollInterval)
          else (Ok tt, do_sleep st (SleepRetryAfter n))
      | None => (Ok tt, do_sleep st SleepPollInterval)
      end
  | _ => (Raise e, st)
  end.

(** One pass through the body of [while self._running] in
    [start_polling]. *)
Definition poll_iteration (self : HttpFetcher.t) (settings : Settings)
    (srv : server) (cb : option callback) (now : Z) (st : PollState)
  : res unit * PollState :=
  let '(r, st1) := poll_once self settings srv now st in
  match r with
  | Raise e => after_error e st1
  | Ok result =>
      let '(c, st2) :=
        match fr_is_new result, cb with
        | true, Some f => f result st1
        | _, _ => (Ok tt, st1)
        end in
      match c with
      | Raise e => after_error e st2
      | Ok _ =>
          (Ok tt, do_sleep (set_last_report_time st2 now) SleepPollInterval)
      end
  end.

(** [start_polling], cut after [fuel] iterations; [clock i] is what
    [datetime.now()] reads in iteration [i]. *)
Fixpoint poll_loop (self : HttpFetcher.t) (settings : Settings)
    (srv : server) (cb : option callback) (clock : nat -> Z)
    (fuel i : nat) (st : PollState) : res unit * PollState :=
  match fuel with
  | O => (Ok tt, st)
  | S fuel' =>
      if running st then
        match poll_iteration self settings srv cb (clock i) st with
        | (Ok _, st') => poll_loop self settings srv cb clock fuel' (S i) st'
        | (Raise e, st') => (Raise e, st')
        end
      else (Ok tt, st)
  end.

Definition start_polling (self : HttpFetcher.t) (settings : Settings)
    (srv : server) (cb : option callback) (clock : nat -> Z)
    (fuel : nat) (st : PollState) : res unit * PollState :=
  poll_loop self settings srv cb clock fuel 0
    {| running := true; last_report_time := last_report_time st;
       world := world st; slept := slept st |}.

End NBA.

(** ** models/: the tables the pipeline reads and writes *)

Module Models.

Record Player := {
  pl_id : Z;
  pl_name : string;
  pl_team : string;
  pl_nba_id : option Z;
  pl_current_rank : option Z;
  pl_is_top_100 : bool
}.

Record StatusChange := {
  sc_id : Z;
  sc_player_id : Z;
  sc_old_status : option string;
  sc_new_status : string;
  sc_change_date : Z;
  sc_report_id : Z;
  sc_notification_sent : bool;
  sc_notification_date : option Z
}.

Record NotificationSetting := {
  ns_id : Z;
  ns_user_id : Z;
  ns_player_id : option Z;
  ns_team : option string;
  ns_email_enabled : bool;
  ns_push_enabled : bool;
  ns_web_enabled : bool;
  ns_min_importance : Z
}.

Record User := {
  u_id : Z;
  u_email : string;
  u_is_active : bool;
  u_email_notifications : bool;
  u_push_notifications : bool;
  u_web_notifications : bool;
  u_quiet_hours_start : option string;
  u_quiet_hours_end : option string
}.

Record Database := {
  players : list Player;
  status_changes : list StatusChange;
  users : list User;
  notification_settings : list NotificationSetting
}.

(** The relationship [change.player]. *)
Definition player_of (db : Database) (player_id : Z) : option Player :=
  find (fun p => pl_id p =? player_id) (players db).

(** The relationship [user.notification_settings]. *)
Definition settings_of (db : Database) (u : User)
  : list NotificationSetting :=
  filter (fun ns => ns_user_id ns =? u_id u) (notification_settings db).

Definition next_player_id (rows : list Player) : Z :=
  1 + fold_right (fun r m => Z.max (pl_id r) m) 0 rows.

Definition next_change_id (rows : list StatusChange) : Z :=
  1 + fold_right (fun r m => Z.max (sc_id r) m) 0 rows.

Definition opt_eqb {A} (eqb : A -> A -> bool) (a b : option A) : bool :=
  match a, b with
  | Some x, Some y => eqb x y
  | None, None => true
  | _, _ => false
  end.

End Models.

(** ** processor/injury.py: the diff *)

Module Processor.
Import Models.

(** A normalized per-player status dict.  The last three keys are read
    with [.get], the others by subscript; every value may be [None]. *)
Record PlayerStatus := {
  player_id : Z;
  player_name : option string;
  team : option string;
  status : option string;
  reason : option string;
  details : option string;
  rank : option Z
}.

(** A change dict as appended to [changes]. *)
Record Change := {
  c_player_id : Z;
  c_player_name : option string;
  c_team : option string;
  c_old_status : option string;
  c_new_status : option string;
  c_reason : option string;
  c_details : option string;
  c_rank : option Z
}.

Definition status_eqb : option string -> option string -> bool :=
  opt_eqb String.eqb.

(** [{status["player_id"]: status for status in statuses}] *)
Definition by_player (statuses : list PlayerStatus)
  : list (Z * PlayerStatus) :=
  Dict.of_items Z.eqb player_id statuses.

(** The dict appended by the first loop; [pid] is the loop variable
    [player_id], the key both dicts are read under. *)
Definition changed_record (pid : Z) (cur prev : PlayerStatus) : Change :=
  {| c_player_id := pid;
     c_player_name := player_name cur;
     c_team := team cur;
     c_old_status := status prev;
     c_new_status := status cur;
     c_reason := reason cur;
     c_details := details cur;
     c_rank := rank cur |}.

(** The dict appended by the second loop. *)
Definition added_record (pid : Z) (cur : PlayerStatus) : Change :=
  {| c_player_id := pid;
     c_player_name := player_name cur;
     c_team := team cur;
     c_old_status := None;
     c_new_status := status cur;
     c_reason := reason cur;
     c_details := details cur;
     c_rank := rank cur |}.

(** The dict appended by the third loop. *)
Definition removed_record (pid : Z) (prev : PlayerStatus) : Change :=
  {| c_player_id := pid;
     c_player_name := player_name prev;
     c_team := team prev;
     c_old_status := status prev;
     c_new_status := Some "ACTIVE";
     c_reason := None;
     c_details := None;
     c_rank := rank prev |}.

(** Lines 109-123: players present in both reports. *)
Definition changed_loop (current_by_player previous_by_player
                         : list (Z * PlayerStatus)) : list Change :=
  flat_map (fun kv =>
              match Dict.get Z.eqb previous_by_player (fst kv) with
              | Some prev_status =>
                  if negb (status_eqb (status (snd kv)) (status prev_status))
                  then [changed_record (fst kv) (snd kv) prev_status]
                  else []
              | None => []
              end) current_by_player.

(** Lines 125-137: players new in the report. *)
Definition added_loop (current_by_player previous_by_player
                       : list (Z * PlayerStatus)) : list Change :=
  flat_map (fun kv =>
              if Dict.mem Z.eqb previous_by_player (fst kv) then []
              else [added_record (fst kv) (snd kv)]) current_by_player.

(** Lines 139-151: players removed from the report. *)
Definition removed_loop (current_by_player previous_by_player
                         : list (Z * PlayerStatus)) : list Change :=
  flat_map (fun kv =>
              if Dict.mem Z.eqb current_by_player (fst kv) then []
              else [removed_record (fst kv) (snd kv)]) previous_by_player.

(** Lines 102-151 of [compute_diff]: the three loops append to one
    list, in this order. *)
Definition compute_changes (current_statuses previous_statuses
                            : list PlayerStatus) : list Change :=
  let current_by_player := by_player current_statuses in
  let previous_by_player := by_player previous_statuses in
  (changed_loop current_by_player previous_by_player
   ++ added_loop current_by_player previous_by_player
   ++ removed_loop current_by_player previous_by_player)%list.

(** What the specification's scenarios show of a change. *)
Definition summary (c : Change) : Z * option string * option string :=
  (c_player_id c, c_old_status c, c_new_status c).

(** A change dict after [_store_status_changes] added ["id"] and
    ["player_db_id"]. *)
Record StoredChange := {
  stored : Change;
  stored_id : Z;
  stored_player_db_id : Z
}.

Definition integrity_error (column : string) : exn :=
  OtherError "IntegrityError"
             ("null value in column " ++ column ++ " violates not-null constraint").

(** The player lookup of [_store_status_changes], creating a minimal
    row when [nba_id] is unknown.  [name] and [team] are NOT NULL. *)
Definition get_or_create_player (rows : list Player) (c : Change)
  : res (Player * list Player) :=
  match find (fun p => opt_eqb Z.eqb (pl_nba_id p) (Some (c_player_id c))) rows with
  | Some p => Ok (p, rows)
  | None =>
      match c_player_name c, c_team c with
      | Some n, Some t =>
          let p := {| pl_id := next_player_id rows; pl_name := n;
                      pl_team := t; pl_nba_id := Some (c_player_id c);
                      pl_current_rank := c_rank c;
                      pl_is_top_100 :=
                        match c_rank c with
                        | Some r => r <=? 100
                        | None => false
                        end |} in
          Ok (p, (rows ++ [p])%list)
      | None, _ => Raise (integrity_error "name")
      | _, None => Raise (integrity_error "team")
      end
  end.

(** [_store_status_changes]: one [StatusChange] row per change, not yet
    notified.  [new_status] and [report_id] are NOT NULL. *)
Fixpoint store_status_changes (changes : list Change)
    (report_id : option Z) (now : Z) (db : Database)
  : res (list StoredChange * Database) :=
  match changes with
  | [] => Ok ([], db)
  | c :: rest =>
      bind (get_or_create_player (players db) c) (fun pr =>
      match c_new_status c, report_id with
      | None, _ => Raise (integrity_error "new_status")
      | _, None => Raise (integrity_error "report_id")
      | Some new_status, Some rid =>
          let row := {| sc_id := next_change_id (status_changes db);
                        sc_player_id := pl_id (fst pr);
                        sc_old_status := c_old_status c;
                        sc_new_status := new_status;
                        sc_change_date := now;
                        sc_report_id := rid;
                        sc_notification_sent := false;
                        sc_notification_date := None |} in
          let db' := {| players := snd pr;
                        status_changes := (status_changes db ++ [row])%list;
                        users := users db;
                        notification_settings := notification_settings db |} in
          bind (store_status_changes rest report_id now db') (fun r =>
          Ok ({| stored := c; stored_id := sc_id row;
                 stored_player_db_id := pl_id (fst pr) |} :: fst r, snd r))
      end)
  end.

Record DiffResult := {
  changes : list StoredChange;
  total_changes : Z;
  current_report_id : option Z;
  previous_report_id : option Z
}.

(** [compute_diff]: on any failure the session is rolled back and a
    [ProcessorError] is raised. *)
Definition compute_diff (current_statuses : list PlayerStatus)
    (current_report : option Z) (previous_statuses : list PlayerStatus)
    (previous_report : option Z) (now : Z) (db : Database)
  : res DiffResult * Database :=
  match store_status_changes
          (compute_changes current_statuses previous_statuses)
          current_report now db with
  | Ok (stored_changes, db') =>
      (Ok {| changes := stored_changes;
             total_changes := Z.of_nat (List.length stored_changes);
             current_report_id := current_report;
             previous_report_id := previous_report |}, db')
  | Raise e =>
      (Raise (ProcessorError ("Failed to compute diff: " ++ str_exn e) 500),
       db)
  end.

End Processor.

(** ** notifier/channels.py: the channel senders *)

Module Channels.

(** A recipient is an e-mail address or client id ([str]) or, for push,
    the user's primary key ([int]). *)
Inductive recipient :=
| RStr (s : string)
| RInt (n : Z).

Definition str_recipient (r : recipient) : string :=
  match r with RStr s => s | RInt n => str_Z n end.

(** The ["data"] dict of a WebSocket payload. *)
Record WsData := {
  d_html : string;
  d_player_id : Z;
  d_team : string;
  d_old_status : option string;
  d_new_status : string;
  d_change_id : Z
}.

(** A notification dict as built by the service. *)
Record Notification := {
  channel : string;
  to : recipient;
  subject : string;
  message : string;
  html_message : option string;
  data : option WsData;
  user_id : Z;
  change_id : Z
}.

(** A per-notification result dict; ["error"] is only present in a
    failure. *)
Record SendResult := {
  success : bool;
  r_recipient : recipient;
  r_subject : string;
  r_channel : string;
  r_error : option string
}.

Definition ok_result (tag : string) (n : Notification) : SendResult :=
  {| success := true; r_recipient := to n; r_subject := subject n;
     r_channel := tag; r_error := None |}.

Definition failure_result (tag : string) (n : Notification) (e : exn)
  : SendResult :=
  {| success := false; r_recipient := to n; r_subject := subject n;
     r_channel := tag; r_error := Some (str_exn e) |}.

(** A channel's state is the log of the [send_notification] calls made
    on it, oldest first. *)
Definition calls := list Notification.

(** A sender: one [send_notification] call. *)
Definition sender := Notification -> calls -> res SendResult * calls.

(** The loop shared by the three [send_batch] methods: each
    notification is sent inside its own [try]; a failure becomes a
    failure result and the loop goes on. *)
Fixpoint send_batch_with (tag : string) (send : sender)
    (notifications : list Notification) (log : calls)
  : list SendResult * calls :=
  match notifications with
  | [] => ([], log)
  | n :: rest =>
      let '(r, log1) := send n log in
      let result :=
        match r with
        | Ok x => x
        | Raise e => failure_result tag n e
        end in
      let '(results, log2) := send_batch_with tag send rest log1 in
      (result :: results, log2)
  end.

Module EmailNotifier.
(** What [aiosmtplib.send] (or building the MIME message) does for
    the [i]-th call: returns, or raises. *)
Definition smtp := nat -> Notification -> res unit.

Definition send_notification (srv : smtp) : sender :=
  fun n log =>
    match srv (List.length log) n with
    | Ok _ => (Ok (ok_result "email" n), (log ++ [n])%list)
    | Raise e =>
        (Raise (NotifierError ("Failed to send email: " ++ str_exn e) 500),
         (log ++ [n])%list)
    end.

Definition send_batch (srv : smtp) :=
  send_batch_with "email" (send_notification srv).
End EmailNotifier.

Module WebSocketNotifier.
(** What [websocket.send_json] does for the [i]-th call. *)
Definition sockets := nat -> string -> Notification -> res unit.

(** [active_connections] maps a client id to its socket; only the
    keys matter here. *)
Definition connected (active_connections : list (string * nat))
    (r : recipient) : bool :=
  match r with
  | RStr s => Dict.mem String.eqb active_connections s
  | RInt _ => false
  end.

Definition send_notification (active_connections : list (string * nat))
    (ws : sockets) : sender :=
  fun n log =>
    if connected active_connections (to n) then
      match ws (List.length log) (str_recipient (to n)) n with
      | Ok _ => (Ok (ok_result "websocket" n), (log ++ [n])%list)
      | Raise e =>
          (Raise (NotifierError
                    ("Failed to send WebSocket notification: " ++ str_exn e)
                    500),
           (log ++ [n])%list)
      end
    else
      (Raise (NotifierError
                ("WebSocket client " ++ str_recipient (to n)
                                     ++ " not connected") 500),
       (log ++ [n])%list).

Definition send_batch (active_connections : list (string * nat))
    (ws : sockets) :=
  send_batch_with "websocket" (send_notification active_connections ws).
End WebSocketNotifier.

Module PushNotifier.
(** The placeholder implementation always succeeds. *)
Definition send_notification : sender :=
  fun n log => (Ok (ok_result "push" n), (log ++ [n])%list).

Definition send_batch := send_batch_with "push" send_notification.
End PushNotifier.

(** *** Vocabulary of the batch properties *)

(** What the loop makes of one [send_notification] call. *)
Definition result_of (tag : string) (n : Notification) (r : res SendResult)
  : SendResult :=
  match r with
  | Ok x => x
  | Raise e => failure_result tag n e
  end.

(** The shape of the result list of a batch. *)
Definition batch_ok (tag : string) (send : sender)
    (ns : list Notification) (log : calls)
    (out : list SendResult * calls) : Prop :=
  List.length (fst out) = List.length ns
  /\ snd out = (log ++ ns)%list
  /\ forall i n,
      nth_error ns i = Some n ->
      exists r,
        nth_error (fst out) i = Some r
        /\ r_recipient r = to n /\ r_subject r = subject n
        /\ r_channel r = tag
        /\ ((success r = true /\ r_error r = None
             /\ fst (send n (log ++ firstn i ns)%list) = Ok r)
            \/ (success r = false
                /\ exists e,
                    fst (send n (log ++ firstn i ns)%list) = Raise e
                    /\ r_error r = Some (str_exn e))).

End Channels.

(** ** notifier/base.py: message formatting

    The arrow of the subject line is outside the first 256 code
    points; it stands here as its UTF-8 bytes. *)

Module Formatter.

Definition nl : string := String "010"%char "".
Definition q : string := String Json.dquote "".
Definition paren (name team : string) : string := name ++ " (" ++ team ++ ")".

(** [NotificationFormatter.format_injury_change] with [reason] and
    [details] left out, as the service calls it. *)
Definition format_injury_change (player_name team : string)
    (old_status : option string) (new_status : string) : string * string :=
  let subject :=
    match old_status with
    | None => paren player_name team ++ " added to injury report: " ++ new_status
    | Some old =>
        if (new_status =? "ACTIVE")%string
        then paren player_name team ++ " removed from injury report"
        else paren player_name team ++ " status change: " ++ old ++ " → "
                   ++ new_status
    end in
  let message_parts :=
    List.app
      ["Player: " ++ player_name; "Team: " ++ team]
      match old_status with
      | None => ["Status: " ++ new_status]
      | Some old => ["Previous Status: " ++ old; "New Status: " ++ new_status]
      end in
  (subject, join nl message_parts).

(** [NotificationFormatter.format_html_injury_change], same call. *)
Definition format_html_injury_change (player_name team : string)
    (old_status : option string) (new_status : string) (rank : option Z)
  : string :=
  let '(status_text, change_type) :=
    match old_status with
    | None => ("<span class='status new'>" ++ new_status ++ "</span>", "added")
    | Some old =>
        if (new_status =? "ACTIVE")%string
        then ("<span class='status active'>ACTIVE</span>", "removed")
        else ("<span class='status old'>" ++ old
                ++ "</span> → <span class='status new'>" ++ new_status
                ++ "</span>", "changed")
    end in
  let rank_div :=
    match rank with
    | Some r => if r =? 0 then ""
                else "<div class=" ++ q ++ "rank" ++ q ++ ">Rank: "
                       ++ str_Z r ++ "</div>"
    | None => ""
    end in
  let cls (c : string) := "<div class=" ++ q ++ c ++ q ++ ">" in
  join nl
    [""; "        " ++ cls ("injury-alert " ++ change_type);
     "            " ++ cls "player-info";
     "                <h3>" ++ player_name ++ "</h3>";
     "                " ++ cls "team" ++ team ++ "</div>";
     "                " ++ rank_div;
     "            </div>";
     "            " ++ cls "status-info";
     "                " ++ cls "status-change" ++ status_text ++ "</div>";
     "                "; "                ";
     "            </div>"; "        </div>"; "        "].

End Formatter.

(** ** notifier/service.py: routing, quiet hours, delivery marking *)

Module Service.
Import Models Channels.

(** [datetime.time] *)
Record time := {
  hour : Z;
  minute : Z;
  second : Z;
  microsecond : Z
}.

(** [time(hour, minute)]: the arguments are converted to C [int]s,
    which raises [OverflowError] for one that does not fit; then a
    field out of range raises [ValueError]. *)
Definition new_time (h m : Z) : res time :=
  if negb (fits_c_int h) then Raise (OverflowError h)
  else if negb (fits_c_int m) then Raise (OverflowError m)
  else if negb ((0 <=? h) && (h <=? 23))
  then Raise (ValueError "hour must be in 0..23")
  else if negb ((0 <=? m) && (m <=? 59))
  then Raise (ValueError "minute must be in 0..59")
  else Ok {| hour := h; minute := m; second := 0; microsecond := 0 |}.

(** Comparison of two naive times: field by field. *)
Definition time_cmp (a b : time) : comparison :=
  match hour a ?= hour b with
  | Eq => match minute a ?= minute b with
          | Eq => match second a ?= second b with
                  | Eq => microsecond a ?= microsecond b
                  | c => c
                  end
          | c => c
          end
  | c => c
  end.

Definition time_leb (a b : time) : bool :=
  match time_cmp a b with Gt => false | _ => true end.

(** [h, m = map(int, s.split(":"))] *)
Definition parse_hh_mm (s : string) : res (Z * Z) :=
  match split ":" s with
  | [a; b] =>
      match py_int a, py_int b with
      | Some h, Some m => Ok (h, m)
      | _, _ => Raise (ValueError "invalid literal for int() with base 10")
      end
  | [_] => Raise (ValueError "not enough values to unpack (expected 2, got 1)")
  | _ => Raise (ValueError "too many values to unpack (expected 2)")
  end.

(** The [try] block of [_is_in_quiet_hours]. *)
Definition quiet_hours_body (quiet_hours_start quiet_hours_end : string)
    (now : time) : res bool :=
  bind (parse_hh_mm quiet_hours_start) (fun s =>
  bind (parse_hh_mm quiet_hours_end) (fun e =>
  bind (new_time (fst s) (snd s)) (fun start_time =>
  bind (new_time (fst e) (snd e)) (fun end_time =>
  Ok (if time_leb start_time end_time
      then time_leb start_time now && time_leb now end_time
      else time_leb start_time now || time_leb now end_time))))).

(** [_is_in_quiet_hours]; [now] is [datetime.now().time()]. *)
Definition is_in_quiet_hours (user : User) (now : time) : res bool :=
  match u_quiet_hours_start user, u_quiet_hours_end user with
  | Some s, Some e =>
      if (s =? "")%string || (e =? "")%string then Ok false
      else try_except (quiet_hours_body s e now)
             (fun ex => match ex with
                        | ValueError _ | AttributeError _ => Ok false
                        | _ => Raise ex
                        end)
  | _, _ => Ok false
  end.

(** A configured channel, seen through [send_batch] alone. *)
Definition notifier := list Notification -> res (list SendResult).

Record t := {
  email_notifier : option notifier;
  push_notifier : option notifier;
  websocket_notifier : option notifier
}.

Definition configured (n : option notifier) : bool :=
  match n with Some _ => true | None => false end.

(** [ns.player_id == change.player_id or ns.team == change.player.team] *)
Definition matches (change : StatusChange) (player : Player)
    (ns : NotificationSetting) : bool :=
  opt_eqb Z.eqb (ns_player_id ns) (Some (sc_player_id change))
  || opt_eqb String.eqb (ns_team ns) (Some (pl_team player)).

(** The [User] join [NotificationSetting] query of lines 60-71. *)
Definition users_to_notify (db : Database) (change : StatusChange)
    (player : Player) : list User :=
  filter (fun u => u_is_active u
                   && existsb (matches change player) (settings_of db u))
         (users db).

(** Lines 82-99: the first setting of the user that matches the player
    or the team decides; without one the global toggles do. *)
Definition effective_channels (db : Database) (user : User)
    (change : StatusChange) (player : Player) : bool * bool * bool :=
  match find (matches change player) (settings_of db user) with
  | Some notification_setting =>
      (ns_email_enabled notification_setting,
       ns_push_enabled notification_setting,
       ns_web_enabled notification_setting)
  | None =>
      (u_email_notifications user, u_push_notifications user,
       u_web_notifications user)
  end.

(** Lines 101-161: the payloads for one user and one change. *)
Definition notifications_for (svc : t) (db : Database) (user : User)
    (change : StatusChange) (player : Player) : list Notification :=
  let '(email_enabled, push_enabled, web_enabled) :=
    effective_channels db user change player in
  let formatted :=
    Formatter.format_injury_change (pl_name player) (pl_team player)
      (sc_old_status change) (sc_new_status change) in
  let html_formatted :=
    Formatter.format_html_injury_change (pl_name player) (pl_team player)
      (sc_old_status change) (sc_new_status change)
      (pl_current_rank player) in
  ((if email_enabled && configured (email_notifier svc) then
      [{| channel := "email"; to := RStr (u_email user);
          subject := fst formatted; message := snd formatted;
          html_message := Some html_formatted; data := None;
          user_id := u_id user; change_id := sc_id change |}]
    else []) ++
   (if push_enabled && configured (push_notifier svc) then
      [{| channel := "push"; to := RInt (u_id user);
          subject := fst formatted; message := snd formatted;
          html_message := None; data := None;
          user_id := u_id user; change_id := sc_id change |}]
    else []) ++
   (if web_enabled && configured (websocket_notifier svc) then
      [{| channel := "websocket"; to := RStr (str_Z (u_id user));
          subject := fst formatted; message := snd formatted;
          html_message := None;
          data := Some {| d_html := html_formatted;
                          d_player_id := sc_player_id change;
                          d_team := pl_team player;
                          d_old_status := sc_old_status change;
                          d_new_status := sc_new_status change;
                          d_change_id := sc_id change |};
          user_id := u_id user; change_id := sc_id change |}]
    else []))%list.

(** The [for user in users] loop. *)
Fixpoint notify_users (svc : t) (db : Database) (now : time)
    (change : StatusChange) (player : Player) (us : list User)
  : res (list Notification) :=
  match us with
  | [] => Ok []
  | user :: rest =>
      bind (is_in_quiet_hours user now) (fun quiet =>
      bind (notify_users svc db now change player rest) (fun more =>
      Ok ((if quiet then []
           else notifications_for svc db user change player) ++ more)%list))
  end.

(** The [for change in db_changes] loop building
    [notifications_to_send]. *)
Fixpoint collect (svc : t) (db : Database) (now : time)
    (db_changes : list StatusChange) : res (list Notification) :=
  match db_changes with
  | [] => Ok []
  | change :: rest =>
      match player_of db (sc_player_id change) with
      | None =>
          Raise (AttributeError "'NoneType' object has no attribute 'team'")
      | Some player =>
          bind (notify_users svc db now change player
                  (users_to_notify db change player)) (fun ns =>
          bind (collect svc db now rest) (fun more =>
          Ok (ns ++ more)%list))
      end
  end.

(** A [send_batch] call made by the service. *)
Definition batch := (string * list Notification)%type.

(** One channel of [_send_notifications]: the batch is sent when it is
    not empty and the channel is configured; an exception of the whole
    batch is logged and dropped. *)
Definition send_channel (tag : string) (n : option notifier)
    (notifications : list Notification)
    (acc : list SendResult * list batch) : list SendResult * list batch :=
  let group := filter (fun x => (channel x =? tag)%string) notifications in
  match group, n with
  | _ :: _, Some send_batch =>
      (match send_batch group with
       | Ok rs => (fst acc ++ rs)%list
       | Raise _ => fst acc
       end, (snd acc ++ [(tag, group)])%list)
  | _, _ => acc
  end.

(** [_send_notifications] *)
Definition send_notifications (svc : t) (notifications : list Notification)
  : list SendResult * list batch :=
  send_channel "websocket" (websocket_notifier svc) notifications
    (send_channel "push" (push_notifier svc) notifications
       (send_channel "email" (email_notifier svc) notifications ([], []))).

Record ProcessResult := {
  pr_success : bool;
  notifications_sent : Z;
  results : option (list SendResult)
}.

(** What one call of [process_status_changes] leaves behind: its return
    value, the batches handed to the channels, and the database. *)
Record Outcome := {
  returned : res ProcessResult;
  dispatched : list batch;
  db_after : Database
}.

(** The filter of lines 44-47. *)
Definition selected (change_ids : list Z) (sc : StatusChange) : bool :=
  existsb (Z.eqb (sc_id sc)) change_ids && negb (sc_notification_sent sc).

(** Lines 167-169 for one row. *)
Definition mark_notified (now : Z) (sc : StatusChange) : StatusChange :=
  {| sc_id := sc_id sc; sc_player_id := sc_player_id sc;
     sc_old_status := sc_old_status sc; sc_new_status := sc_new_status sc;
     sc_change_date := sc_change_date sc; sc_report_id := sc_report_id sc;
     sc_notification_sent := true; sc_notification_date := Some now |}.

(** The marking loop of lines 167-169 touches the selected rows only. *)
Definition mark_selected (ids : list Z) (now : Z) (sc : StatusChange)
  : StatusChange :=
  if selected ids sc then mark_notified now sc else sc.

Definition set_status_changes (db : Database) (rows : list StatusChange)
  : Database :=
  {| players := players db; status_changes := rows; users := users db;
     notification_settings := notification_settings db |}.

(** [process_status_changes]; [now_time] and [now] are the readings of
    [datetime.now()] during the call, taken as one instant.  An
    exception rolls the session back. *)
Definition process_status_changes (svc : t) (now_time : time) (now : Z)
    (changes : list Processor.StoredChange) (db : Database) : Outcome :=
  let change_ids := map Processor.stored_id changes in
  let db_changes := filter (selected change_ids) (status_changes db) in
  match db_changes with
  | [] =>
      {| returned := Ok {| pr_success := true; notifications_sent := 0;
                           results := None |};
         dispatched := []; db_after := db |}
  | _ :: _ =>
      match collect svc db now_time db_changes with
      | Raise e => {| returned := Raise e; dispatched := []; db_after := db |}
      | Ok notifications_to_send =>
          let '(rs, batches) := send_notifications svc notifications_to_send in
          {| returned :=
               Ok {| pr_success := true;
                     notifications_sent := Z.of_nat (List.length rs);
                     results := Some rs |};
             dispatched := batches;
             db_after :=
               set_status_changes db
                 (map (mark_selected change_ids now) (status_changes db)) |}
      end
  end.

(** *** Vocabulary of the preference properties *)




(** *** The precedence rule as the specification words it *)


(** *** Vocabulary of the quiet-hours property *)

(** A bound of the window: the time a stored value denotes, [None]
    when the value is absent, empty or malformed. *)
Definition bound (v : option string) : option time :=
  match v with
  | None | Some EmptyString => None
  | Some s =>
      match bind (parse_hh_mm s) (fun p => new_time (fst p) (snd p)) with
      | Ok t => Some t
      | Raise _ => None
      end
  end.

Definition time_le (a b : time) : Prop := time_leb a b = true.

(** A stored bound whose two numbers, when it has two, fit the C [int]
    that [time] converts its arguments to. *)
Definition fits (v : option string) : bool :=
  match v with
  | Some s =>
      match parse_hh_mm s with
      | Ok p => fits_c_int (fst p) && fits_c_int (snd p)
      | Raise _ => true
      end
  | None => true
  end.

Definition quiet_hours_fit (u : User) : bool :=
  fits (u_quiet_hours_start u) && fits (u_quiet_hours_end u).

Definition at_time (h m s : Z) : time :=
  {| hour := h; minute := m; second := s; microsecond := 0 |}.

Definition with_quiet_hours (s e : option string) : User :=
  {| u_id := 1; u_email := "fan@example.com"; u_is_active := true;
     u_email_notifications := true; u_push_notifications := false;
     u_web_notifications := true;
     u_quiet_hours_start := s; u_quiet_hours_end := e |}.

End Service.

(** ** Vocabulary of the further properties *)

Module More.

(** [n] slashes. *)
Fixpoint slashes (n : nat) : string :=
  match n with
  | O => ""
  | S n' => String "/" (slashes n')
  end.

(** The row [fetch] adds for a payload [data] with fingerprint [h]:
    the [InjuryReport(...)] of lines 87-93 with the next primary
    key. *)
Definition new_report (self : HttpFetcher.t) (settings : HttpFetcher.Settings)
    (now : Z) (rows : list NBA.InjuryReport) (data : Json.json) (h : string)
  : NBA.InjuryReport :=
  {| NBA.report_id := NBA.next_id rows;
     NBA.report_date := now;
     NBA.source_url :=
       NBA.str_opt (HttpFetcher.base_url self)
       ++ HttpFetcher.injury_report_endpoint settings;
     NBA.report_hash := h;
     NBA.raw_content := Json.dumps false data |}.

(** A [StatusChange] row as [_store_status_changes] leaves it, seen
    next to the table [db] it was added to: not delivered, of report
    [rid], dated [now], with its player row in [db'] and a primary key
    above those of [db]. *)
Definition fresh_in (rid : option Z) (now : Z) (db db' : Models.Database)
    (r : Models.StatusChange) : Prop :=
  Models.sc_notification_sent r = false
  /\ Models.sc_notification_date r = None
  /\ rid = Some (Models.sc_report_id r)
  /\ Models.sc_change_date r = now
  /\ Models.player_of db' (Models.sc_player_id r) <> None
  /\ forall old, In old (Models.status_changes db) ->
                 Models.sc_id old < Models.sc_id r.

End More.

(** ** fetcher/nba.py: the one-shot entry point *)

Module OneShot.
Import HttpFetcher NBA.

(** [datetime.now()]: a day number and a time of day. *)
Record datetime := {
  dt_day : Z;
  dt_hour : Z;
  dt_minute : Z;
  dt_second : Z;
  dt_microsecond : Z
}.

(** What [datetime] guarantees of its fields. *)
Definition valid (d : datetime) : Prop :=
  0 <= dt_hour d <= 23 /\ 0 <= dt_minute d <= 59
  /\ 0 <= dt_second d <= 59 /\ 0 <= dt_microsecond d <= 999999.

(** Microseconds since day 0: two valid datetimes compare as these
    numbers do, and their difference is the [timedelta] between
    them. *)
Definition micros (d : datetime) : Z :=
  (((dt_day d * 24 + dt_hour d) * 60 + dt_minute d) * 60 + dt_second d)
  * 1000000 + dt_microsecond d.

Definition hour_micros : Z := 3600000000.

(** [now.replace(hour=hour, minute=minute, second=0, microsecond=0)],
    the hour being kept when [hour is None].  The arguments are
    converted to C [int]s first, which raises [OverflowError] for one
    that does not fit. *)
Definition replace_time (now : datetime) (hour : option Z) (minute : Z)
  : res datetime :=
  let h := match hour with Some h => h | None => dt_hour now end in
  if negb (fits_c_int h) then Raise (OverflowError h)
  else if negb (fits_c_int minute) then Raise (OverflowError minute)
  else if negb ((0 <=? h) && (h <=? 23))
  then Raise (ValueError "hour must be in 0..23")
  else if negb ((0 <=? minute) && (minute <=? 59))
  then Raise (ValueError "minute must be in 0..59")
  else Ok {| dt_day := dt_day now; dt_hour := h; dt_minute := minute;
             dt_second := 0; dt_microsecond := 0 |}.

(** Lines 186-196 of [poll_for_new_report]: the target time, moved one
    hour on when it is past, and the wait until it, in microseconds. *)
Definition wait_micros (now : datetime) (hour : option Z) (minute : Z)
  : res Z :=
  bind (replace_time now hour minute) (fun target_time =>
  let target := micros target_time in
  let target := if target <? micros now then target + hour_micros
                else target in
  Ok (target - micros now)).

(** Lines 201-214: poll until a new report is found, sleeping the poll
    interval after every poll that fails or finds nothing new.  The
    loop is cut after [fuel] polls; the last component counts the
    sleeps. *)
Fixpoint poll_until_new (self : HttpFetcher.t) (settings : Settings)
    (srv : server) (clock : nat -> Z) (fuel i : nat) (w : World)
    (sleeps : nat) : option FetchResult * World * nat :=
  match fuel with
  | O => (None, w, sleeps)
  | S fuel' =>
      let '(r, w') := fetch self settings srv (clock i) w in
      match r with
      | Ok result =>
          if fr_is_new result then (Some result, w', sleeps)
          else poll_until_new self settings srv clock fuel' (S i) w'
                              (S sleeps)
      | Raise _ =>
          poll_until_new self settings srv clock fuel' (S i) w' (S sleeps)
      end
  end.

(** [poll_for_new_report]: the initial wait, when there is one, and
    what the loop comes to. *)
Definition poll_for_new_report (settings : Settings) (srv : server)
    (now : datetime) (clock : nat -> Z) (hour : option Z) (minute : Z)
    (fuel : nat) (w : World)
  : res (option Z * (option FetchResult * World * nat)) :=
  bind (wait_micros now hour minute) (fun wait =>
  Ok (if 0 <? wait then Some wait else None,
      poll_until_new (NBA.init settings None None None) settings srv clock
                     fuel 0 w 0)).

End OneShot.

(** ** notifier/service.py: the service as the application builds it *)

Module Delivery.
Import Models Channels Service.

(** [NotificationService.__init__]: a fresh notifier for each channel
    that is enabled in the settings.  A fresh [WebSocketNotifier] has
    no connection, and the service never calls [connect] on it. *)
Definition new_service (email_enabled push_enabled websocket_enabled : bool)
    (srv : EmailNotifier.smtp) (ws : WebSocketNotifier.sockets) : Service.t :=
  {| email_notifier :=
       if email_enabled
       then Some (fun ns => Ok (fst (EmailNotifier.send_batch srv ns [])))
       else None;
     push_notifier :=
       if push_enabled
       then Some (fun ns => Ok (fst (PushNotifier.send_batch ns [])))
       else None;
     websocket_notifier :=
       if websocket_enabled
       then Some (fun ns => Ok (fst (WebSocketNotifier.send_batch [] ws ns [])))
       else None |}.

(** The batch [_send_notifications] hands to one channel, if any. *)
Definition batch_of (tag : string) (n : option notifier)
    (notifications : list Notification) : list batch :=
  match filter (fun x => (channel x =? tag)%string) notifications, n with
  | _ :: _, Some _ =>
      [(tag, filter (fun x => (channel x =? tag)%string) notifications)]
  | _, _ => []
  end.

(** A user with other global toggles. *)
Definition with_toggles (f : User -> bool * bool * bool) (u : User) : User :=
  {| u_id := u_id u; u_email := u_email u; u_is_active := u_is_active u;
     u_email_notifications := fst (fst (f u));
     u_push_notifications := snd (fst (f u));
     u_web_notifications := snd (f u);
     u_quiet_hours_start := u_quiet_hours_start u;
     u_quiet_hours_end := u_quiet_hours_end u |}.

Definition set_users (db : Database) (rows : list User) : Database :=
  {| players := players db; status_changes := status_changes db;
     users := rows; notification_settings := notification_settings db |}.

(** The columns of a [StatusChange] row other than the two that record
    the delivery. *)
Definition columns (r : StatusChange)
  : Z * Z * option string * string * Z * Z :=
  (sc_id r, sc_player_id r, sc_old_status r, sc_new_status r,
   sc_change_date r, sc_report_id r).

(** What a result and a payload have in common. *)
Definition result_key (x : SendResult) : string * recipient * string :=
  (r_channel x, r_recipient x, r_subject x).

Definition payload_key (n : Notification) : string * recipient * string :=
  (channel n, to n, subject n).

End Delivery.

(** ** notifier/channels.py: the connections of [WebSocketNotifier] *)

Module Registry.

(** [active_connections]: client id to socket, a socket being named by
    a number. *)
Definition connections := list (string * nat).

(** [del d[k]] *)
Fixpoint del (d : connections) (k : string) : connections :=
  match d with
  | [] => []
  | (k', v) :: r => if (k =? k')%string then r else (k', v) :: del r k
  end.

(** [connect]: [accept] is what [await websocket.accept()] does. *)
Definition connect (accept : res unit) (active_connections : connections)
    (websocket : nat) (client_id : string) : res unit * connections :=
  match accept with
  | Ok _ =>
      (Ok tt, Dict.set String.eqb active_connections client_id websocket)
  | Raise e => (Raise e, active_connections)
  end.

(** [disconnect] *)
Definition disconnect (active_connections : connections)
    (client_id : string) : connections :=
  if Dict.mem String.eqb active_connections client_id
  then del active_connections client_id
  else active_connections.

(** What [websocket.send_json] does in the [i]-th step of a broadcast,
    for the client and socket of that step. *)
Definition send_json := nat -> string -> nat -> res unit.

Record BroadcastResult := {
  b_success : bool;
  total_clients : Z;
  successful : Z;
  failed : Z;
  b_subject : string;
  b_channel : string
}.

(** The loop of [broadcast] over [list(self.active_connections.items())],
    a copy taken before the loop. *)
Fixpoint broadcast_loop (send : send_json) (items : list (string * nat))
    (i : nat) (active_connections : connections) (successful failed : Z)
  : connections * Z * Z :=
  match items with
  | [] => (active_connections, successful, failed)
  | (client_id, websocket) :: rest =>
      match send i client_id websocket with
      | Ok _ =>
          broadcast_loop send rest (S i) active_connections
                         (successful + 1) failed
      | Raise _ =>
          broadcast_loop send rest (S i)
                         (disconnect active_connections client_id)
                         successful (failed + 1)
      end
  end.

(** [broadcast]; the payload is the same for every client and is left
    to [send].  No other coroutine connects or disconnects a client
    while the broadcast runs. *)
Definition broadcast (send : send_json) (subject : string)
    (active_connections : connections) : BroadcastResult * connections :=
  let '(active', successful, failed) :=
    broadcast_loop send active_connections 0 active_connections 0 0 in
  ({| b_success := true;
      total_clients := Z.of_nat (List.length active') + failed;
      successful := successful;
      failed := failed;
      b_subject := subject;
      b_channel := "websocket" |}, active').

(** *** Vocabulary of the broadcast property *)

(** The entries whose send succeeds, the first of them being step
    [i]. *)
Fixpoint reached (send : send_json) (items : list (string * nat)) (i : nat)
  : list (string * nat) :=
  match items with
  | [] => []
  | (client_id, websocket) :: rest =>
      match send i client_id websocket with
      | Ok _ => (client_id, websocket) :: reached send rest (S i)
      | Raise _ => reached send rest (S i)
      end
  end.

End Registry.

(** ** processor/base.py: the list helpers of [DiffProcessor] *)

Module DiffProcessor.

Section Items.
Context {A K : Type}.
(** Equality of keys, which decides membership in a set of keys. *)
Variable keq : K -> K -> bool.

(** [get_added_items]; without a [key_func] the caller's items are
    their own keys. *)
Definition get_added_items (current_items previous_items : list A)
    (key_func : A -> K) : list A :=
  let previous_keys := map key_func previous_items in
  filter (fun item => negb (existsb (keq (key_func item)) previous_keys))
         current_items.

(** [get_removed_items] *)
Definition get_removed_items (current_items previous_items : list A)
    (key_func : A -> K) : list A :=
  let current_keys := map key_func current_items in
  filter (fun item => negb (existsb (keq (key_func item)) current_keys))
         previous_items.
End Items.

End DiffProcessor.

(** ** api/routers/users.py: the notification settings of a user *)

Module UsersApi.
Import Models.

(** The request body [NotificationSettingCreate]. *)
Record NotificationSettingCreate := {
  nsc_player_id : option Z;
  nsc_team : option string;
  nsc_email_enabled : bool;
  nsc_push_enabled : bool;
  nsc_web_enabled : bool;
  nsc_min_importance : Z
}.

(** What an endpoint comes to: its return value, an [HTTPException],
    or another exception, which leaves the endpoint as it is. *)
Inductive response (A : Type) :=
| Returned (a : A)
| HTTPException (status_code : Z) (detail : string)
| Raised (e : exn).
Arguments Returned {A} a.
Arguments HTTPException {A} status_code detail.
Arguments Raised {A} e.

(** The dict returned for a setting. *)
Record SettingView := {
  v_id : Z;
  v_player_id : option Z;
  v_player_name : option string;
  v_team : option string;
  v_email_enabled : bool;
  v_push_enabled : bool;
  v_web_enabled : bool;
  v_min_importance : Z
}.

Definition next_setting_id (rows : list NotificationSetting) : Z :=
  1 + fold_right (fun r m => Z.max (ns_id r) m) 0 rows.

(** The filter of the [existing_setting] query: a setting of the user
    for the player of the request, when it names one, or for its team,
    when it names one. *)
Definition clashes (setting_data : NotificationSettingCreate)
    (current_user : User) (ns : NotificationSetting) : bool :=
  (ns_user_id ns =? u_id current_user)
  && ((opt_eqb Z.eqb (ns_player_id ns) (nsc_player_id setting_data)
       && match nsc_player_id setting_data with
          | Some _ => true
          | None => false
          end)
      || (opt_eqb String.eqb (ns_team ns) (nsc_team setting_data)
          && match nsc_team setting_data with
             | Some _ => true
             | None => false
             end)).

Definition set_notification_settings (db : Database)
    (rows : list NotificationSetting) : Database :=
  {| players := players db; status_changes := status_changes db;
     users := users db; notification_settings := rows |}.

(** [create_notification_setting].  The returned dict is built after
    the commit; for a setting with a player it reads
    [new_setting.player], a relationship [NotificationSetting] does
    not have. *)
Definition create_notification_setting
    (setting_data : NotificationSettingCreate) (current_user : User)
    (db : Database) : response SettingView * Database :=
  match nsc_player_id setting_data, nsc_team setting_data with
  | None, None =>
      (HTTPException 400 "Either player_id or team must be provided", db)
  | _, _ =>
      if existsb (clashes setting_data current_user)
                 (notification_settings db)
      then (HTTPException 400
              "A notification setting already exists for this player or team",
            db)
      else
        let missing :=
          match nsc_player_id setting_data with
          | Some p =>
              match player_of db p with
              | Some _ => None
              | None => Some p
              end
          | None => None
          end in
        match missing with
        | Some p =>
            (HTTPException 404
               ("Player with ID " ++ str_Z p ++ " not found"), db)
        | None =>
            let new_setting :=
              {| ns_id := next_setting_id (notification_settings db);
                 ns_user_id := u_id current_user;
                 ns_player_id := nsc_player_id setting_data;
                 ns_team := nsc_team setting_data;
                 ns_email_enabled := nsc_email_enabled setting_data;
                 ns_push_enabled := nsc_push_enabled setting_data;
                 ns_web_enabled := nsc_web_enabled setting_data;
                 ns_min_importance := nsc_min_importance setting_data |} in
            let player_name : res (option string) :=
              match ns_player_id new_setting with
              | Some p =>
                  if p =? 0 then Ok None
                  else Raise (AttributeError
                                "'NotificationSetting' object has no attribute 'player'")
              | None => Ok None
              end in
            (match player_name with
             | Ok name =>
                 Returned
                   {| v_id := ns_id new_setting;
                      v_player_id := ns_player_id new_setting;
                      v_player_name := name;
                      v_team := ns_team new_setting;
                      v_email_enabled := ns_email_enabled new_setting;
                      v_push_enabled := ns_push_enabled new_setting;
                      v_web_enabled := ns_web_enabled new_setting;
                      v_min_importance := ns_min_importance new_setting |}
             | Raise e => Raised e
             end,
             set_notification_settings db
               (notification_settings db ++ [new_setting])%list)
        end
  end.

(** [db.delete(setting)] for the first row the query finds. *)
Fixpoint delete_first (p : NotificationSetting -> bool)
    (rows : list NotificationSetting) : list NotificationSetting :=
  match rows with
  | [] => []
  | r :: rest => if p r then rest else r :: delete_first p rest
  end.

(** [delete_notification_setting] *)
Definition delete_notification_setting (setting_id : Z)
    (current_user : User) (db : Database) : response string * Database :=
  let mine ns :=
    (ns_id ns =? setting_id) && (ns_user_id ns =? u_id current_user) in
  if existsb mine (notification_settings db)
  then (Returned ("Notification setting with ID " ++ str_Z setting_id
                    ++ " deleted"),
        set_notification_settings db
          (delete_first mine (notification_settings db)))
  else (HTTPException 404
          ("Notification setting with ID " ++ str_Z setting_id
             ++ " not found or doesn't belong to you"), db).

(** *** Vocabulary of the settings property *)

(** Two settings do not name the same player or the same team for the
    same user. *)
Definition distinct_targets (a b : NotificationSetting) : Prop :=
  ns_user_id a = ns_user_id b ->
  (forall p, ns_player_id a = Some p -> ns_player_id b <> Some p)
  /\ (forall t, ns_team a = Some t -> ns_team b <> Some t).

(** No user has two settings for one player, or two for one team. *)
Definition unique_targets (rows : list NotificationSetting) : Prop :=
  ForallOrdPairs distinct_targets rows.

End UsersApi.

(** ** processor/injury.py: reading the statuses out of a payload *)

Module Extract.
Import Json.

(** A status dict as [_extract_player_statuses] builds it: each value
    is what [.get] returned, [None] being [JNull]. *)
Record RawStatus := {
  raw_player_id : json;
  raw_player_name : json;
  raw_team : json;
  raw_status : json;
  raw_reason : json;
  raw_details : json;
  raw_game_date : json;
  raw_opponent : json
}.

(** [d.get(k)] *)
Definition get (d : list (string * json)) (k : string) : json :=
  match Dict.get String.eqb d k with
  | Some v => v
  | None => JNull
  end.

(** [type(v).__name__] *)
Definition type_name (v : json) : string :=
  match v with
  | JNull => "NoneType"
  | JBool _ => "bool"
  | JInt _ => "int"
  | JFloat _ => "float"
  | JStr _ => "str"
  | JList _ => "list"
  | JDict _ => "dict"
  end.

Definition TypeError (m : string) : exn := OtherError "TypeError" m.

(** The dict appended for one element of the list; only a dict has
    [.get]. *)
Definition status_of (player_data : json) : res RawStatus :=
  match player_data with
  | JDict d =>
      Ok {| raw_player_id := get d "personId";
            raw_player_name := get d "name";
            raw_team := get d "teamName";
            raw_status := get d "status";
            raw_reason := get d "reason";
            raw_details := get d "details";
            raw_game_date := get d "gameDate";
            raw_opponent := get d "opponent" |}
  | v =>
      Raise (AttributeError
               ("'" ++ type_name v ++ "' object has no attribute 'get'"))
  end.

(** The [for] loop: the first element that fails ends it. *)
Fixpoint statuses_of (l : list json) : res (list RawStatus) :=
  match l with
  | [] => Ok []
  | player_data :: rest =>
      bind (status_of player_data) (fun s =>
      bind (statuses_of rest) (fun more => Ok (s :: more)))
  end.

(** What [for player_data in v] goes through: the elements of a list,
    the keys of a dict, the characters of a string. *)
Definition iterate (v : json) : res (list json) :=
  match v with
  | JList l => Ok l
  | JDict d => Ok (map (fun kv => JStr (fst kv)) d)
  | JStr s => Ok (map (fun c => JStr (String c "")) (list_ascii_of_string s))
  | v => Raise (TypeError ("'" ++ type_name v ++ "' object is not iterable"))
  end.

Fixpoint starts_with (prefix s : string) : bool :=
  match prefix, s with
  | EmptyString, _ => true
  | String a p, String b r => (a =? b)%char && starts_with p r
  | _, _ => false
  end.

(** [needle in s] for two strings. *)
Fixpoint contains (needle s : string) : bool :=
  starts_with needle s
  || match s with
     | EmptyString => false
     | String _ r => contains needle r
     end.

(** [_extract_player_statuses].  ["players" in report_data] is a key
    test on a dict, an element test on a list and a substring test on
    a string; subscripting a list or a string with ["players"] raises
    [TypeError].  The messages are those of CPython 3.11. *)
Definition extract_player_statuses (report_data : json)
  : res (list RawStatus) :=
  match report_data with
  | JDict d =>
      match Dict.get String.eqb d "players" with
      | Some v => bind (iterate v) statuses_of
      | None => Ok []
      end
  | JList l =>
      if existsb (fun x => match x with
                           | JStr s => (s =? "players")%string
                           | _ => false
                           end) l
      then Raise (TypeError
                    "list indices must be integers or slices, not str")
      else Ok []
  | JStr s =>
      if contains "players" s
      then Raise (TypeError "string indices must be integers, not 'str'")
      else Ok []
  | v =>
      Raise (TypeError ("argument of type '" ++ type_name v
                          ++ "' is not iterable"))
  end.

(** *** Vocabulary of the extraction property *)

(** Two statuses hold the same data, field by field. *)
Definition same_status (a b : RawStatus) : bool :=
  same_data (raw_player_id a) (raw_player_id b)
  && same_data (raw_player_name a) (raw_player_name b)
  && same_data (raw_team a) (raw_team b)
  && same_data (raw_status a) (raw_status b)
  && same_data (raw_reason a) (raw_reason b)
  && same_data (raw_details a) (raw_details b)
  && same_data (raw_game_date a) (raw_game_date b)
  && same_data (raw_opponent a) (raw_opponent b).

End Extract.

(** ** processor/injury.py: keeping the top-ranked players *)

Module TopPlayers.
Import Models Processor.

(** [str(x)] for a value that is an [int] or [None]. *)
Definition str_opt_Z (x : option Z) : string :=
  match x with
  | Some n => str_Z n
  | None => "None"
  end.

(** [status["rank"] = r] *)
Definition set_rank (s : PlayerStatus) (r : option Z) : PlayerStatus :=
  {| player_id := player_id s; player_name := player_name s;
     team := team s; status := status s; reason := reason s;
     details := details s; rank := r |}.

(** The inner loop of [_filter_top_players], which looks for the
    top-ranked player with the id of the status.  It runs after the
    session block that loaded [top_players] has committed and closed,
    so that its [player.nba_id] and [player.current_rank] read
    expired attributes of detached instances. *)
Fixpoint find_rank (top_players : list Player) (player_id : string)
    (status : PlayerStatus) : res PlayerStatus :=
  match top_players with
  | [] => Ok status
  | player :: rest =>
      bind (expired "Player" (pl_nba_id player)) (fun nba_id =>
      if (str_opt_Z nba_id =? player_id)%string
      then bind (expired "Player" (pl_current_rank player)) (fun r =>
           Ok (set_rank status r))
      else find_rank rest player_id status)
  end.

(** The loop over the statuses; ids are compared through [str]. *)
Fixpoint filter_loop (top_player_ids : list string)
    (top_players : list Player) (player_statuses : list PlayerStatus)
  : res (list PlayerStatus) :=
  match player_statuses with
  | [] => Ok []
  | status :: rest =>
      let player_id := str_Z (player_id status) in
      if existsb (String.eqb player_id) top_player_ids then
        bind (find_rank top_players player_id status) (fun kept =>
        bind (filter_loop top_player_ids top_players rest) (fun more =>
        Ok (kept :: more)))
      else filter_loop top_player_ids top_players rest
  end.

(** [_filter_top_players]; [rows] is the player table in the order
    the query returns it.  The query and the set of ids are evaluated
    inside the session block, where the attributes are loaded. *)
Definition filter_top_players (rows : list Player)
    (player_statuses : list PlayerStatus) : res (list PlayerStatus) :=
  let top_players := filter pl_is_top_100 rows in
  let top_player_ids :=
    map (fun player => str_opt_Z (pl_nba_id player)) top_players in
  filter_loop top_player_ids top_players player_statuses.

(** *** Vocabulary of the filter property *)

(** The number a string of digits denotes, read from the left and
    added to [a] shifted. *)
Fixpoint val_acc (s : string) (a : Z) : Z :=
  match s with
  | EmptyString => a
  | String c r => val_acc r (a * 10 + (code c - 48))
  end.

(** The first top-ranked player with a given NBA id. *)
Definition top_player (rows : list Player) (nba_id : Z) : option Player :=
  find (fun p => pl_is_top_100 p && opt_eqb Z.eqb (pl_nba_id p) (Some nba_id))
       rows.

End TopPlayers.

(** ** Concrete data used by the scenarios below *)

Module Examples.
Import Json HttpFetcher NBA Models Processor Channels Service.

(** Two payloads with the same content, keys inserted in different
    orders at both levels. *)
Definition payload_ab : json :=
  JDict [("players",
          JList [JDict [("personId", JInt 1); ("status", JStr "OUT")]]);
         ("date", JStr "2024-01-05")].

Definition payload_ba : json :=
  JDict [("date", JStr "2024-01-05");
         ("players",
          JList [JDict [("status", JStr "OUT"); ("personId", JInt 1)]])].

Definition mk_status (pid : Z) (name team st : string) : PlayerStatus :=
  {| player_id := pid; player_name := Some name; team := Some team;
     status := Some st; reason := None; details := None; rank := None |}.

(** The snapshots of the specification's first scenario. *)
Definition snapshot1 : list PlayerStatus :=
  [mk_status 1 "LeBron James" "LAL" "OUT"].

Definition snapshot2 : list PlayerStatus :=
  [mk_status 1 "LeBron James" "LAL" "QUESTIONABLE";
   mk_status 2 "Stephen Curry" "GSW" "OUT"].

(** A fetcher as the application builds it. *)
Definition settings0 : Settings :=
  {| max_retries_default := 3;
     nba_api_base_url := "https://stats.nba.com/stats";
     injury_report_endpoint := "/injuryreport" |}.

Definition fetcher0 : HttpFetcher.t := NBA.init settings0 None None None.


Definition response_with (code : Z) (retry_after : option string)
    (body : res json) : Response :=
  {| resp_status_code := code; resp_retry_after := retry_after;
     resp_text := ""; resp_json := body |}.



(** The provider rate-limits and asks for two minutes. *)
Definition server_429 : server :=
  fun _ _ => Responded (response_with 429 (Some "120") (Ok JNull)).

(** The provider serves the same payload every time. *)
Definition server_ok : server :=
  fun _ _ => Responded (response_with 200 None (Ok payload_ab)).

Definition world0 : World := {| reports := []; http_log := [] |}.

Definition poll_state0 : PollState :=
  {| running := true; last_report_time := None; world := world0;
     slept := [] |}.

(** One player, one undelivered change for him, one subscriber with
    global e-mail off and a player-scoped override with e-mail on. *)
Definition lebron : Player :=
  {| pl_id := 1; pl_name := "LeBron James"; pl_team := "LAL";
     pl_nba_id := Some 2544; pl_current_rank := Some 1;
     pl_is_top_100 := true |}.

Definition curry : Player :=
  {| pl_id := 2; pl_name := "Stephen Curry"; pl_team := "GSW";
     pl_nba_id := Some 201939; pl_current_rank := Some 2;
     pl_is_top_100 := true |}.

Definition change10 : StatusChange :=
  {| sc_id := 10; sc_player_id := 1; sc_old_status := Some "OUT";
     sc_new_status := "QUESTIONABLE"; sc_change_date := 500;
     sc_report_id := 7; sc_notification_sent := false;
     sc_notification_date := None |}.

Definition change11 : StatusChange :=
  {| sc_id := 11; sc_player_id := 2; sc_old_status := None;
     sc_new_status := "OUT"; sc_change_date := 500;
     sc_report_id := 7; sc_notification_sent := false;
     sc_notification_date := None |}.

Definition fan : User :=
  {| u_id := 1; u_email := "fan@example.com"; u_is_active := true;
     u_email_notifications := false; u_push_notifications := false;
     u_web_notifications := false;
     u_quiet_hours_start := None; u_quiet_hours_end := None |}.

Definition player_override : NotificationSetting :=
  {| ns_id := 2; ns_user_id := 1; ns_player_id := Some 1; ns_team := None;
     ns_email_enabled := true; ns_push_enabled := false;
     ns_web_enabled := false; ns_min_importance := 3 |}.


Definition db_player_only : Database :=
  {| players := [lebron; curry]; status_changes := [change10; change11];
     users := [fan]; notification_settings := [player_override] |}.


Definition stored_of (sc : StatusChange) : StoredChange :=
  {| stored := {| c_player_id := sc_player_id sc; c_player_name := None;
                  c_team := None; c_old_status := sc_old_status sc;
                  c_new_status := Some (sc_new_status sc);
                  c_reason := None; c_details := None; c_rank := None |};
     stored_id := sc_id sc; stored_player_db_id := sc_player_id sc |}.

(** E-mail works; the other channels are not configured. *)
Definition service_email : Service.t :=
  {| email_notifier :=
       Some (fun ns => Ok (fst (EmailNotifier.send_batch
                                  (fun _ _ => Ok tt) ns [])));
     push_notifier := None; websocket_notifier := None |}.

(** The e-mail batch fails as a whole. *)
Definition service_email_down : Service.t :=
  {| email_notifier :=
       Some (fun _ => Raise (OtherError "SMTPException" "connection refused"));
     push_notifier := None; websocket_notifier := None |}.

Definition noon : time :=
  {| hour := 12; minute := 0; second := 0; microsecond := 0 |}.



(** Settings whose base URL was left empty. *)
Definition settings_no_base : Settings :=
  {| max_retries_default := 3; nba_api_base_url := "";
     injury_report_endpoint := "/injuryreport" |}.

(** A callback that cannot cope with the report. *)
Definition failing_callback : callback :=
  fun _ st => (Raise (ValueError "bad report"), st).

(** A quarter to three in the afternoon of day 100. *)
Definition afternoon : OneShot.datetime :=
  {| OneShot.dt_day := 100; OneShot.dt_hour := 14; OneShot.dt_minute := 45;
     OneShot.dt_second := 10; OneShot.dt_microsecond := 0 |}.

(** The changes from the first snapshot to the second, stored for
    report 8. *)
Definition stored_example : list StoredChange * Database :=
  match store_status_changes (compute_changes snapshot2 snapshot1)
                             (Some 8) 600 db_player_only with
  | Ok x => x
  | Raise _ => ([], db_player_only)
  end.

(** The same, through [compute_diff]. *)
Definition diff_example : DiffResult :=
  match fst (compute_diff snapshot2 (Some 8) snapshot1 (Some 7) 600
                          db_player_only) with
  | Ok r => r
  | Raise _ => {| changes := []; total_changes := 0;
                  current_report_id := None; previous_report_id := None |}
  end.

(** A subscriber of LeBron James on every channel. *)
Definition all_channels_fan : User :=
  {| u_id := 2; u_email := "all@example.com"; u_is_active := true;
     u_email_notifications := false; u_push_notifications := false;
     u_web_notifications := false;
     u_quiet_hours_start := None; u_quiet_hours_end := None |}.

Definition all_channels_override : NotificationSetting :=
  {| ns_id := 3; ns_user_id := 2; ns_player_id := Some 1; ns_team := None;
     ns_email_enabled := true; ns_push_enabled := true;
     ns_web_enabled := true; ns_min_importance := 3 |}.

Definition db_all_channels : Database :=
  {| players := [lebron; curry]; status_changes := [change10; change11];
     users := [fan; all_channels_fan];
     notification_settings := [player_override; all_channels_override] |}.

(** The service with every channel enabled, the mail server refusing
    connections. *)
Definition service_all : Service.t :=
  Delivery.new_service true true true
    (fun _ _ => Raise (OtherError "SMTPException" "connection refused"))
    (fun _ _ _ => Ok tt).

(** What one call of that service returns for the first change. *)
Definition results_all : list SendResult :=
  match returned (process_status_changes service_all noon 900
                    [stored_of change10] db_all_channels) with
  | Ok {| results := Some rs |} => rs
  | _ => []
  end.

(** The payloads collected for the first change. *)
Definition payloads_all : list Notification :=
  match collect service_all db_all_channels noon [change10] with
  | Ok ns => ns
  | Raise _ => []
  end.

(** The e-mail payload of [fan] for the first change. *)
Definition payload10 : Notification :=
  match notifications_for service_email db_player_only fan change10 lebron
  with
  | n :: _ => n
  | [] => {| channel := ""; to := RInt 0; subject := ""; message := "";
             html_message := None; data := None; user_id := 0;
             change_id := 0 |}
  end.

(** A WebSocket payload for client 8. *)
Definition payload_ws : Notification :=
  {| channel := "websocket"; to := RStr "8"; subject := "update";
     message := "update"; html_message := None; data := None;
     user_id := 8; change_id := 10 |}.

(** A callback that stops the poller. *)
Definition stopping_callback : callback :=
  fun _ st => (Ok tt, stop_polling st).

(** A request for a setting on the Lakers, e-mail only. *)
Definition lakers_request : UsersApi.NotificationSettingCreate :=
  {| UsersApi.nsc_player_id := None; UsersApi.nsc_team := Some "LAL";
     UsersApi.nsc_email_enabled := true; UsersApi.nsc_push_enabled := false;
     UsersApi.nsc_web_enabled := false; UsersApi.nsc_min_importance := 3 |}.

(** A request of the same subscriber for a setting on Stephen Curry. *)
Definition curry_request : UsersApi.NotificationSettingCreate :=
  {| UsersApi.nsc_player_id := Some 2; UsersApi.nsc_team := None;
     UsersApi.nsc_email_enabled := true; UsersApi.nsc_push_enabled := true;
     UsersApi.nsc_web_enabled := false; UsersApi.nsc_min_importance := 3 |}.





(** A subscriber of LeBron James whose stored start of quiet hours holds
    an hour beyond the C [int] range, as [PUT /me] accepts it. *)
Definition night_fan : User :=
  {| u_id := 3; u_email := "night@example.com"; u_is_active := true;
     u_email_notifications := true; u_push_notifications := false;
     u_web_notifications := false;
     u_quiet_hours_start := Some "2147483648:00";
     u_quiet_hours_end := Some "06:00" |}.

Definition night_override : NotificationSetting :=
  {| ns_id := 4; ns_user_id := 3; ns_player_id := Some 1; ns_team := None;
     ns_email_enabled := true; ns_push_enabled := false;
     ns_web_enabled := false; ns_min_importance := 3 |}.

Definition db_overflow : Database :=
  {| players := [lebron; curry]; status_changes := [change10; change11];
     users := [fan; night_fan];
     notification_settings := [player_override; night_override] |}.

(** The same subscriber with a start of quiet hours that is no time of
    day. *)
Definition late_fan : User :=
  {| u_id := 3; u_email := "night@example.com"; u_is_active := true;
     u_email_notifications := true; u_push_notifications := false;
     u_web_notifications := false;
     u_quiet_hours_start := Some "24:00";
     u_quiet_hours_end := Some "06:00" |}.

Definition db_malformed : Database :=
  {| players := [lebron; curry]; status_changes := [change10; change11];
     users := [fan; late_fan];
     notification_settings := [player_override; night_override] |}.

End Examples.

(* ================================================================== *)
(** * Part II: properties                                              *)
(* ================================================================== *)

(** ** Canonical serialization and the fingerprint *)

Module JsonFacts.
Import Json.

Lemma ltb_lt a b : String.ltb a b = true <-> String_as_OT.lt a b.
Proof.
  unfold String.ltb. rewrite <- String_as_OT.cmp_lt.
  unfold String_as_OT.cmp.
  destruct (String.compare a b); split; congruence.
Qed.

Lemma ltb_irrefl a : String.ltb a a = false.
Proof.
  destruct (String.ltb a a) eqn:E; [|reflexivity].
  apply ltb_lt in E. exfalso.
  now apply (String_as_OT.lt_not_eq a a E).
Qed.

Lemma ltb_trans a b c :
  String.ltb a b = true -> String.ltb b c = true -> String.ltb a c = true.
Proof.
  rewrite !ltb_lt. apply String_as_OT.lt_trans.
Qed.

Lemma ltb_total a b :
  String.ltb a b = false -> a <> b -> String.ltb b a = true.
Proof.
  unfold String.ltb. rewrite (String.compare_antisym b a).
  destruct (String.compare a b) eqn:E; simpl; try congruence.
  apply String.compare_eq_iff in E. congruence.
Qed.

Section Sorting.
Context {A : Type}.

Lemma insert_item_perm (kv : string * A) l :
  Permutation (insert_item kv l) (kv :: l).
Proof.
  induction l as [|x r IH]; simpl; [reflexivity|].
  destruct (String.ltb (fst x) (fst kv)); [|reflexivity].
  rewrite IH. apply perm_swap.
Qed.

Lemma sort_items_perm (l : list (string * A)) :
  Permutation (sort_items l) l.
Proof.
  induction l as [|x r IH]; simpl; [reflexivity|].
  rewrite insert_item_perm. now constructor.
Qed.

Lemma insert_item_sorted (kv : string * A) l :
  StronglySorted key_lt l -> ~ In (fst kv) (map fst l) ->
  StronglySorted key_lt (insert_item kv l).
Proof.
  induction l as [|x r IH]; simpl; intros Hs Hn.
  - repeat constructor.
  - inversion Hs as [|? ? Hr Hx]; subst.
    destruct (String.ltb (fst x) (fst kv)) eqn:E.
    + constructor; [apply IH; tauto|].
      rewrite insert_item_perm. now constructor.
    + assert (Hlt : key_lt kv x).
      { apply ltb_total; [exact E|]. intros H. apply Hn. now left. }
      constructor; [exact Hs|]. constructor; [exact Hlt|].
      eapply Forall_impl; [|exact Hx].
      intros y Hy. unfold key_lt in *. eapply ltb_trans; eauto.
Qed.

Lemma sort_items_sorted (l : list (string * A)) :
  NoDup (map fst l) -> StronglySorted key_lt (sort_items l).
Proof.
  induction l as [|x r IH]; simpl; intros Hnd; [constructor|].
  inversion Hnd; subst.
  apply insert_item_sorted; [now apply IH|].
  intros Hin. apply (Permutation_in (l' := map fst r)) in Hin; [tauto|].
  apply Permutation_map, sort_items_perm.
Qed.

Lemma sorted_unique (l l' : list (string * A)) :
  StronglySorted key_lt l -> StronglySorted key_lt l' ->
  Permutation l l' -> l = l'.
Proof.
  revert l'. induction l as [|a l IH]; intros l' Hs Hs' Hp.
  - now apply Permutation_nil in Hp.
  - destruct l' as [|b l'].
    + symmetry in Hp. now apply Permutation_nil in Hp.
    + inversion Hs as [|? ? Hl Ha]; inversion Hs' as [|? ? Hl' Hb]; subst.
      assert (Hab : a = b).
      { assert (H1 : In a (b :: l')) by (eapply Permutation_in; [exact Hp|now left]).
        assert (H2 : In b (a :: l))
          by (eapply Permutation_in; [symmetry; exact Hp|now left]).
        destruct H1 as [H1|H1]; [congruence|].
        destruct H2 as [H2|H2]; [congruence|].
        rewrite Forall_forall in Ha, Hb.
        specialize (Ha _ H2). specialize (Hb _ H1). unfold key_lt in *.
        pose proof (ltb_trans _ _ _ Ha Hb) as C.
        rewrite ltb_irrefl in C. discriminate. }
      subst b. f_equal. apply IH; auto.
      now apply Permutation_cons_inv in Hp.
Qed.

Lemma sort_items_unique (l l' : list (string * A)) :
  Permutation l l' -> NoDup (map fst l) -> sort_items l = sort_items l'.
Proof.
  intros Hp Hnd. apply sorted_unique.
  - now apply sort_items_sorted.
  - apply sort_items_sorted.
    eapply Permutation_NoDup; [|exact Hnd]. now apply Permutation_map.
  - rewrite sort_items_perm, Hp. symmetry. apply sort_items_perm.
Qed.
End Sorting.

Lemma get_In {V} (d : list (string * V)) k v :
  Dict.get String.eqb d k = Some v -> In (k, v) d.
Proof.
  induction d as [|[k' v'] r IH]; simpl; [discriminate|].
  destruct (String.eqb_spec k k') as [->|Hne].
  - intros [= ->]. now left.
  - intros H. right. now apply IH.
Qed.

(** Induction over payloads, with the hypothesis for every element of
    a list and every value of a dict. *)
Lemma json_induction (P : json -> Prop) :
  P JNull -> (forall b, P (JBool b)) -> (forall n, P (JInt n)) ->
  (forall r, P (JFloat r)) -> (forall s, P (JStr s)) ->
  (forall l, Forall P l -> P (JList l)) ->
  (forall items, Forall (fun kv => P (snd kv)) items -> P (JDict items)) ->
  forall j, P j.
Proof.
  intros H1 H2 H3 H4 H5 HL HD. fix IH 1.
  intros [| | | | |l|items];
    [exact H1 | apply H2 | apply H3 | apply H4 | apply H5 | | ].
  - apply HL. induction l as [|x r IHr]; constructor; [apply IH | exact IHr].
  - apply HD.
    induction items as [|[k v] r IHr]; constructor; [apply IH | exact IHr].
Qed.

Lemma wf_list l : wf (JList l) <-> Forall wf l.
Proof.
  simpl. induction l as [|x r IH]; simpl.
  - split; auto.
  - rewrite IH. split.
    + intros [? ?]. now constructor.
    + intros H. now inversion H.
Qed.

Lemma wf_dict d :
  wf (JDict d) <->
  NoDup (map fst d) /\ Forall (fun kv => wf (snd kv)) d.
Proof.
  simpl. apply and_iff_compat_l.
  induction d as [|[k v] r IH]; simpl.
  - split; auto.
  - rewrite IH. split.
    + intros [? ?]. now constructor.
    + intros H. now inversion H.
Qed.

Lemma same_data_list l l' :
  same_data (JList l) (JList l') = true <->
  Forall2 (fun x y => same_data x y = true) l l'.
Proof.
  simpl. revert l'. induction l as [|x r IH]; intros [|y r']; simpl.
  - split; auto.
  - split; [discriminate|]. intros H; inversion H.
  - split; [discriminate|]. intros H; inversion H.
  - rewrite andb_true_iff, IH. split.
    + intros [? ?]. now constructor.
    + intros H. now inversion H.
Qed.

Lemma same_data_dict d d' :
  same_data (JDict d) (JDict d') = true <->
  List.length d = List.length d' /\
  Forall (fun kv => exists v', Dict.get String.eqb d' (fst kv) = Some v'
                               /\ same_data (snd kv) v' = true) d.
Proof.
  simpl. rewrite andb_true_iff, Nat.eqb_eq. apply and_iff_compat_l.
  induction d as [|[k v] r IH]; simpl.
  - split; auto.
  - rewrite andb_true_iff, IH. split.
    + intros [H ?]. constructor; [|assumption]. simpl.
      destruct (Dict.get String.eqb d' k); [eauto|discriminate].
    + intros H. inversion H as [|? ? [v' [Hg Hv]] Hr]; subst.
      simpl in Hg. rewrite Hg. auto.
Qed.

Lemma dumps_dict d :
  dumps true (JDict d) =
  "{" ++ join ", " (map render_item (sort_items (map render d))) ++ "}".
Proof. reflexivity. Qed.

Lemma map_fst_render d : map fst (map render d) = map fst d.
Proof.
  rewrite map_map. apply map_ext. now intros [k v].
Qed.

(** Payloads holding the same data have the same canonical text. *)
Lemma same_data_dumps :
  forall a b, wf a -> wf b -> same_data a b = true ->
              dumps true a = dumps true b.
Proof.
  induction a as [|x|x|x|x|l IH|d IH] using json_induction;
    intros b Ha Hb Hs; destruct b; try discriminate Hs.
  - reflexivity.
  - simpl in Hs. apply Bool.eqb_prop in Hs. now subst.
  - simpl in Hs. apply Z.eqb_eq in Hs. now subst.
  - simpl in Hs. apply String.eqb_eq in Hs. now subst.
  - simpl in Hs. apply String.eqb_eq in Hs. now subst.
  - apply same_data_list in Hs. apply wf_list in Ha, Hb.
    assert (Hmap : map (dumps true) l = map (dumps true) l0).
    { revert IH Ha Hb.
      induction Hs as [|x y r r' Hxy Hr IHr]; intros; [reflexivity|].
      inversion IH; inversion Ha; inversion Hb; subst. simpl. f_equal; auto. }
    cbn [dumps]. now rewrite Hmap.
  - apply same_data_dict in Hs. destruct Hs as [Hlen Hall].
    apply wf_dict in Ha, Hb. destruct Ha as [Hnd Hwf], Hb as [Hnd' Hwf'].
    rewrite !dumps_dict.
    enough (E : sort_items (map render d) = sort_items (map render items))
      by now rewrite E.
    apply sort_items_unique; [|now rewrite map_fst_render].
    apply NoDup_Permutation_bis.
    + apply (NoDup_map_inv fst). now rewrite map_fst_render.
    + rewrite !length_map. lia.
    + intros [k s] Hin. apply in_map_iff in Hin.
      destruct Hin as [[k0 v] [Heq Hin]]. simpl in Heq. injection Heq as -> <-.
      rewrite Forall_forall in IH, Hall, Hwf, Hwf'.
      destruct (Hall _ Hin) as [v' [Hg Hv]]. simpl in Hg, Hv.
      apply get_In in Hg.
      pose proof (IH _ Hin v' (Hwf _ Hin) (Hwf' _ Hg) Hv) as E.
      simpl in E. rewrite E.
      apply in_map_iff. exists (k, v'). auto.
Qed.

End JsonFacts.

Module FingerprintFacts.
Import Json BaseFetcher JsonFacts Examples.

(** C9.  The fingerprint depends on the content of the payload only:
    two dict payloads holding the same key-value data, whatever the
    order their keys were inserted in (at any depth), get the same
    hexadecimal digest; and [generate_hash] is a function of its
    argument, so hashing a payload again gives the same string. *)
Theorem generate_hash_order_independent (d1 d2 : list (string * json)) :
  wf (JDict d1) -> wf (JDict d2) ->
  same_data (JDict d1) (JDict d2) = true ->
  (exists h, generate_hash (JDict d1) = Ok h
             /\ generate_hash (JDict d2) = Ok h)
  /\ (forall p, generate_hash p = generate_hash p).
Proof.
  intros H1 H2 Hs. split; [|reflexivity].
  unfold generate_hash. rewrite (same_data_dumps _ _ H1 H2 Hs). eauto.
Qed.

Lemma payload_ab_wf : wf payload_ab.
Proof.
  simpl. repeat split; repeat constructor; simpl;
    intuition discriminate.
Qed.

Lemma payload_ba_wf : wf payload_ba.
Proof.
  simpl. repeat split; repeat constructor; simpl;
    intuition discriminate.
Qed.

Lemma generate_hash_order_independent_witness :
  (exists h, generate_hash payload_ab = Ok h
             /\ generate_hash payload_ba = Ok h)
  /\ (forall p, generate_hash p = generate_hash p).
Proof.
  apply generate_hash_order_independent.
  - exact payload_ab_wf.
  - exact payload_ba_wf.
  - reflexivity.
Defined.

(** The digests are the ones [hashlib] computes. *)
Example generate_hash_abc :
  generate_hash (JStr "abc")
  = Ok "ba7816bf8f01cfea414140de5dae2223b00361a396177a9cb410ff61f20015ad".
Proof. vm_compute. reflexivity. Qed.

Example generate_hash_dict :
  generate_hash (JDict [("b", JList [JInt 1; JInt 2]); ("a", JNull)])
  = Ok "c5f84d13a25f42c915a0a02ab8e5d18abd022592fa6cbf4ffb90af8a7d5f84ff".
Proof. vm_compute. reflexivity. Qed.

(** Anything but a dict, a list or a [str] has no [encode]. *)
Example generate_hash_null :
  exists m, generate_hash JNull = Raise (AttributeError m).
Proof. simpl. eauto. Qed.

End FingerprintFacts.

(** ** The diff *)

Module DictFacts.

Section ZKeys.
Context {V : Type}.
Implicit Types (d : list (Z * V)) (k : Z) (v : V).

Lemma get_set d k v k' :
  Dict.get Z.eqb (Dict.set Z.eqb d k v) k'
  = if k' =? k then Some v else Dict.get Z.eqb d k'.
Proof.
  induction d as [|[k0 v0] r IH]; simpl.
  - reflexivity.
  - destruct (Z.eqb_spec k k0) as [->|Hne]; simpl.
    + destruct (k' =? k0); reflexivity.
    + rewrite IH. destruct (Z.eqb_spec k' k0) as [->|Hne'].
      * destruct (Z.eqb_spec k0 k); [congruence|reflexivity].
      * reflexivity.
Qed.

Lemma set_keys d k v :
  forall x, In x (Dict.keys (Dict.set Z.eqb d k v))
            <-> x = k \/ In x (Dict.keys d).
Proof.
  unfold Dict.keys.
  induction d as [|[k0 v0] r IH]; simpl; intros x.
  - intuition.
  - destruct (Z.eqb_spec k k0) as [->|Hne]; simpl.
    + intuition.
    + rewrite IH. intuition.
Qed.

Lemma set_NoDup d k v :
  NoDup (Dict.keys d) -> NoDup (Dict.keys (Dict.set Z.eqb d k v)).
Proof.
  unfold Dict.keys.
  induction d as [|[k0 v0] r IH]; simpl; intros Hnd.
  - repeat constructor. intros [].
  - inversion Hnd; subst.
    destruct (Z.eqb_spec k k0) as [->|Hne]; simpl.
    + now constructor.
    + constructor; [|now apply IH].
      intros Hin. apply (set_keys r k v) in Hin. intuition.
Qed.

Lemma get_Some_In d k v : Dict.get Z.eqb d k = Some v -> In (k, v) d.
Proof.
  induction d as [|[k0 v0] r IH]; simpl; [discriminate|].
  destruct (Z.eqb_spec k k0) as [->|Hne].
  - intros [= ->]. now left.
  - intros H. right. now apply IH.
Qed.

Lemma In_get_Some d k v :
  NoDup (Dict.keys d) -> In (k, v) d -> Dict.get Z.eqb d k = Some v.
Proof.
  unfold Dict.keys.
  induction d as [|[k0 v0] r IH]; simpl; intros Hnd H; [contradiction|].
  destruct H as [H|H].
  - injection H as -> ->. now rewrite Z.eqb_refl.
  - inversion Hnd; subst.
    destruct (Z.eqb_spec k k0) as [->|Hne]; [|now apply IH].
    exfalso. apply H2. change k0 with (fst (k0, v)). now apply in_map.
Qed.

Lemma get_None d k : Dict.get Z.eqb d k = None <-> ~ In k (Dict.keys d).
Proof.
  unfold Dict.keys.
  induction d as [|[k0 v0] r IH]; simpl.
  - intuition.
  - destruct (Z.eqb_spec k k0) as [->|Hne].
    + split; [discriminate|]. intros H. exfalso. apply H. now left.
    + rewrite IH. intuition.
Qed.

Lemma mem_false d k : Dict.mem Z.eqb d k = false <-> Dict.get Z.eqb d k = None.
Proof.
  unfold Dict.mem. destruct (Dict.get Z.eqb d k); split; congruence.
Qed.

Variable key : V -> Z.

Lemma fold_set_NoDup (l : list V) d :
  NoDup (Dict.keys d) ->
  NoDup (Dict.keys (fold_left (fun d x => Dict.set Z.eqb d (key x) x) l d)).
Proof.
  revert d. induction l as [|a r IH]; simpl; intros d Hd; [exact Hd|].
  apply IH. now apply set_NoDup.
Qed.

Lemma of_items_NoDup (l : list V) :
  NoDup (Dict.keys (Dict.of_items Z.eqb key l)).
Proof. apply fold_set_NoDup. constructor. Qed.

Lemma find_app (p : V -> bool) (l1 l2 : list V) :
  find p (l1 ++ l2)
  = match find p l1 with Some x => Some x | None => find p l2 end.
Proof.
  induction l1 as [|a r IH]; simpl; [reflexivity|].
  destruct (p a); [reflexivity|exact IH].
Qed.

(** A dict comprehension keeps, for every key, the last item of the
    list that has it. *)
Lemma fold_set_get (l : list V) d k :
  Dict.get Z.eqb (fold_left (fun d x => Dict.set Z.eqb d (key x) x) l d) k
  = match find (fun x => key x =? k) (rev l) with
    | Some x => Some x
    | None => Dict.get Z.eqb d k
    end.
Proof.
  revert d. induction l as [|a r IH]; simpl; intros d; [reflexivity|].
  rewrite IH, find_app, get_set. simpl.
  destruct (find (fun x => key x =? k) (rev r)); [reflexivity|].
  rewrite (Z.eqb_sym k (key a)).
  destruct (key a =? k); reflexivity.
Qed.

Lemma of_items_get (l : list V) k :
  Dict.get Z.eqb (Dict.of_items Z.eqb key l) k
  = find (fun x => key x =? k) (rev l).
Proof.
  unfold Dict.of_items. rewrite fold_set_get.
  destruct (find _ (rev l)); reflexivity.
Qed.

Lemma key_inj_in (l : list V) x y :
  NoDup (map key l) -> In x l -> In y l -> key x = key y -> x = y.
Proof.
  induction l as [|a r IH]; simpl; intros Hnd Hx Hy E; [contradiction|].
  inversion Hnd as [|? ? Ha Hr]; subst.
  destruct Hx as [->|Hx], Hy as [->|Hy]; auto.
  - exfalso. apply Ha. rewrite E. now apply in_map.
  - exfalso. apply Ha. rewrite <- E. now apply in_map.
Qed.

(** With one item per key, the dict holds exactly the items. *)
Lemma of_items_get_Some (l : list V) k v :
  NoDup (map key l) ->
  (Dict.get Z.eqb (Dict.of_items Z.eqb key l) k = Some v
   <-> In v l /\ key v = k).
Proof.
  intros Hnd. rewrite of_items_get. split.
  - intros H. apply find_some in H. destruct H as [Hin Hk].
    apply in_rev in Hin. apply Z.eqb_eq in Hk. auto.
  - intros [Hin Hk].
    destruct (find (fun x => key x =? k) (rev l)) as [x|] eqn:E.
    + apply find_some in E. destruct E as [Hx Hkx].
      apply in_rev in Hx. apply Z.eqb_eq in Hkx.
      f_equal. apply (key_inj_in l); auto. congruence.
    + apply (in_rev l) in Hin.
      pose proof (find_none _ _ E v Hin) as F. simpl in F.
      rewrite Hk, Z.eqb_refl in F. discriminate.
Qed.

Lemma of_items_get_None (l : list V) k :
  Dict.get Z.eqb (Dict.of_items Z.eqb key l) k = None
  <-> ~ In k (map key l).
Proof.
  rewrite of_items_get. split.
  - intros E Hin. apply in_map_iff in Hin. destruct Hin as [x [Hk Hx]].
    apply (in_rev l) in Hx.
    pose proof (find_none _ _ E x Hx) as F. simpl in F.
    rewrite Hk, Z.eqb_refl in F. discriminate.
  - intros Hn.
    destruct (find (fun x => key x =? k) (rev l)) as [x|] eqn:E;
      [|reflexivity].
    apply find_some in E. destruct E as [Hx Hk]. apply in_rev in Hx.
    apply Z.eqb_eq in Hk. exfalso. apply Hn. rewrite <- Hk.
    now apply in_map.
Qed.

(** Every entry of the dict sits under its own key. *)
Lemma of_items_key (l : list V) k v :
  In (k, v) (Dict.of_items Z.eqb key l) -> key v = k.
Proof.
  intros Hin. apply In_get_Some in Hin; [|apply of_items_NoDup].
  rewrite of_items_get in Hin. apply find_some in Hin.
  now apply Z.eqb_eq.
Qed.
End ZKeys.

End DictFacts.

Module DiffFacts.
Import Models Processor DictFacts Examples.

Lemma status_eqb_eq a b : status_eqb a b = true <-> a = b.
Proof.
  unfold status_eqb, opt_eqb. destruct a as [x|], b as [y|];
    try (split; congruence).
  rewrite String.eqb_eq. split; congruence.
Qed.

Lemma status_eqb_neq a b : status_eqb a b = false <-> a <> b.
Proof.
  rewrite <- status_eqb_eq. destruct (status_eqb a b); split; congruence.
Qed.

Section Loops.
Variables cd pd : list (Z * PlayerStatus).
Hypothesis cd_keys : NoDup (Dict.keys cd).
Hypothesis pd_keys : NoDup (Dict.keys pd).

Lemma in_changed_loop ch :
  In ch (changed_loop cd pd) <->
  exists k c p, Dict.get Z.eqb cd k = Some c
                /\ Dict.get Z.eqb pd k = Some p
                /\ status c <> status p
                /\ ch = changed_record k c p.
Proof.
  unfold changed_loop. rewrite in_flat_map. split.
  - intros [[k c] [Hin Hch]]. simpl in Hch.
    apply In_get_Some in Hin; [|exact cd_keys].
    destruct (Dict.get Z.eqb pd k) as [p|] eqn:Ep; [|contradiction].
    destruct (status_eqb (status c) (status p)) eqn:Es; simpl in Hch;
      [contradiction|].
    destruct Hch as [<-|[]]. exists k, c, p.
    apply status_eqb_neq in Es. auto.
  - intros [k [c [p [Hc [Hp [Hs ->]]]]]].
    exists (k, c). split; [now apply get_Some_In|]. simpl.
    rewrite Hp. apply status_eqb_neq in Hs. rewrite Hs. now left.
Qed.

Lemma in_added_loop ch :
  In ch (added_loop cd pd) <->
  exists k c, Dict.get Z.eqb cd k = Some c
              /\ Dict.get Z.eqb pd k = None
              /\ ch = added_record k c.
Proof.
  unfold added_loop. rewrite in_flat_map. split.
  - intros [[k c] [Hin Hch]]. simpl in Hch.
    apply In_get_Some in Hin; [|exact cd_keys].
    destruct (Dict.mem Z.eqb pd k) eqn:Em; [contradiction|].
    destruct Hch as [<-|[]]. apply mem_false in Em. eauto.
  - intros [k [c [Hc [Hp ->]]]].
    exists (k, c). split; [now apply get_Some_In|]. simpl.
    apply mem_false in Hp. rewrite Hp. now left.
Qed.

Lemma in_removed_loop ch :
  In ch (removed_loop cd pd) <->
  exists k p, Dict.get Z.eqb pd k = Some p
              /\ Dict.get Z.eqb cd k = None
              /\ ch = removed_record k p.
Proof.
  unfold removed_loop. rewrite in_flat_map. split.
  - intros [[k p] [Hin Hch]]. simpl in Hch.
    apply In_get_Some in Hin; [|exact pd_keys].
    destruct (Dict.mem Z.eqb cd k) eqn:Em; [contradiction|].
    destruct Hch as [<-|[]]. apply mem_false in Em. eauto.
  - intros [k [p [Hp [Hc ->]]]].
    exists (k, p). split; [now apply get_Some_In|]. simpl.
    apply mem_false in Hc. rewrite Hc. now left.
Qed.
End Loops.

(** A loop that appends at most one record per dict entry, under the
    entry's key, never repeats a player. *)
Lemma loop_ids_NoDup (f : Z * PlayerStatus -> list Change) d :
  (forall kv, f kv = [] \/ exists ch, f kv = [ch] /\ c_player_id ch = fst kv) ->
  NoDup (Dict.keys d) ->
  NoDup (map c_player_id (flat_map f d))
  /\ forall x, In x (map c_player_id (flat_map f d)) -> In x (Dict.keys d).
Proof.
  intros Hf. unfold Dict.keys.
  induction d as [|kv r IH]; simpl; intros Hnd.
  - split; [constructor|tauto].
  - inversion Hnd as [|? ? Hk Hr]; subst.
    destruct (IH Hr) as [IH1 IH2].
    destruct (Hf kv) as [E|[ch [E Hid]]]; rewrite E; simpl.
    + split; [exact IH1|auto].
    + rewrite Hid. split.
      * constructor; [|exact IH1]. intros Hin. apply Hk, IH2, Hin.
      * intros x [<-|Hx]; auto.
Qed.

Section Ids.
Variables cd pd : list (Z * PlayerStatus).
Hypothesis cd_keys : NoDup (Dict.keys cd).
Hypothesis pd_keys : NoDup (Dict.keys pd).

Lemma changed_ids x :
  In x (map c_player_id (changed_loop cd pd)) ->
  Dict.get Z.eqb cd x <> None /\ Dict.get Z.eqb pd x <> None.
Proof.
  intros H. apply in_map_iff in H. destruct H as [ch [<- H]].
  apply in_changed_loop in H; [|assumption].
  destruct H as [k [c [p [Hc [Hp [_ ->]]]]]]. simpl. split; congruence.
Qed.

Lemma added_ids x :
  In x (map c_player_id (added_loop cd pd)) ->
  Dict.get Z.eqb cd x <> None /\ Dict.get Z.eqb pd x = None.
Proof.
  intros H. apply in_map_iff in H. destruct H as [ch [<- H]].
  apply in_added_loop in H; [|assumption].
  destruct H as [k [c [Hc [Hp ->]]]]. simpl. split; congruence.
Qed.

Lemma removed_ids x :
  In x (map c_player_id (removed_loop cd pd)) ->
  Dict.get Z.eqb pd x <> None /\ Dict.get Z.eqb cd x = None.
Proof.
  intros H. apply in_map_iff in H. destruct H as [ch [<- H]].
  apply in_removed_loop in H; [|assumption].
  destruct H as [k [c [Hc [Hp ->]]]]. simpl. split; congruence.
Qed.

Lemma loops_ids_NoDup :
  NoDup (map c_player_id
           (changed_loop cd pd ++ added_loop cd pd ++ removed_loop cd pd)).
Proof.
  rewrite !map_app. apply NoDup_app; [|apply NoDup_app|].
  - apply loop_ids_NoDup; [|exact cd_keys]. intros kv.
    destruct (Dict.get Z.eqb pd (fst kv)); [|now left].
    destruct (negb _); [right; eauto|now left].
  - apply loop_ids_NoDup; [|exact cd_keys]. intros kv.
    destruct (Dict.mem Z.eqb pd (fst kv)); [now left|right; eauto].
  - apply loop_ids_NoDup; [|exact pd_keys]. intros kv.
    destruct (Dict.mem Z.eqb cd (fst kv)); [now left|right; eauto].
  - intros x Ha Hr. apply added_ids in Ha. apply removed_ids in Hr. tauto.
  - intros x Hc Hin. apply changed_ids in Hc. apply in_app_or in Hin.
    destruct Hin as [Ha|Hr].
    + apply added_ids in Ha. tauto.
    + apply removed_ids in Hr. tauto.
Qed.
End Ids.

(** The diff in terms of the two dicts, for any input lists. *)
Lemma in_compute_changes cur prev ch :
  In ch (compute_changes cur prev) <->
  (exists k c p, Dict.get Z.eqb (by_player cur) k = Some c
                 /\ Dict.get Z.eqb (by_player prev) k = Some p
                 /\ status c <> status p
                 /\ ch = changed_record k c p)
  \/ (exists k c, Dict.get Z.eqb (by_player cur) k = Some c
                  /\ Dict.get Z.eqb (by_player prev) k = None
                  /\ ch = added_record k c)
  \/ (exists k p, Dict.get Z.eqb (by_player prev) k = Some p
                  /\ Dict.get Z.eqb (by_player cur) k = None
                  /\ ch = removed_record k p).
Proof.
  unfold compute_changes. rewrite !in_app_iff.
  rewrite in_changed_loop, in_added_loop, in_removed_loop;
    try apply of_items_NoDup.
  reflexivity.
Qed.

(** Storing keeps the change dicts, in order. *)
Lemma store_status_changes_keeps chs rid now db stored_changes db' :
  store_status_changes chs rid now db = Ok (stored_changes, db') ->
  map stored stored_changes = chs.
Proof.
  revert db stored_changes db'.
  induction chs as [|c rest IH]; simpl; intros db l db' H.
  - now injection H as <- <-.
  - destruct (get_or_create_player (players db) c) as [pr|e];
      [|discriminate H].
    simpl in H.
    destruct (c_new_status c) as [ns|]; [|discriminate H].
    destruct rid as [r|]; [|discriminate H].
    destruct (store_status_changes rest (Some r) now _) as [[l' db'']|e] eqn:E;
      [|discriminate H].
    simpl in H. injection H as <- <-. simpl. f_equal. eapply IH. exact E.
Qed.

(** What [compute_diff] returns holds the changes of the three loops. *)
Lemma compute_diff_returns_changes cur cr prev pr now db r :
  fst (Processor.compute_diff cur cr prev pr now db) = Ok r ->
  map stored (changes r) = compute_changes cur prev.
Proof.
  unfold Processor.compute_diff.
  destruct (store_status_changes (compute_changes cur prev) cr now db)
    as [[l db']|e] eqn:E; simpl; [|discriminate].
  intros [= <-]. simpl. eapply store_status_changes_keeps. exact E.
Qed.

(** C1.  For status lists with one record per player, the diff holds
    exactly: a record (old = previous status, new = current status) for
    each player in both lists whose status differs; a record (old =
    None, new = current status) for each player only in the current
    list; a record (old = previous status, new = "ACTIVE") for each
    player only in the previous list.  No player gets two records, and
    a player whose status is unchanged gets none.  On the scenario
    snapshot1 -> snapshot2 the diff is (1, OUT -> QUESTIONABLE) and
    (2, None -> OUT); when both players disappear it is
    (1, QUESTIONABLE -> ACTIVE) and (2, OUT -> ACTIVE).  These are the
    changes [compute_diff] returns, whenever it returns. *)
Theorem compute_changes_exact (cur prev : list PlayerStatus) :
  NoDup (map player_id cur) -> NoDup (map player_id prev) ->
  (forall ch,
      In ch (compute_changes cur prev) <->
      (exists c p, In c cur /\ In p prev /\ player_id c = player_id p
                   /\ status c <> status p
                   /\ ch = {| c_player_id := player_id c;
                           c_player_name := player_name c;
                           c_team := team c;
                           c_old_status := status p;
                           c_new_status := status c;
                           c_reason := reason c;
                           c_details := details c;
                           c_rank := rank c |})
      \/ (exists c, In c cur /\ ~ In (player_id c) (map player_id prev)
                    /\ ch = {| c_player_id := player_id c;
                            c_player_name := player_name c;
                            c_team := team c;
                            c_old_status := None;
                            c_new_status := status c;
                            c_reason := reason c;
                            c_details := details c;
                            c_rank := rank c |})
      \/ (exists p, In p prev /\ ~ In (player_id p) (map player_id cur)
                    /\ ch = {| c_player_id := player_id p;
                            c_player_name := player_name p;
                            c_team := team p;
                            c_old_status := status p;
                            c_new_status := Some "ACTIVE";
                            c_reason := None;
                            c_details := None;
                            c_rank := rank p |}))
  /\ NoDup (map c_player_id (compute_changes cur prev))
  /\ (forall cr pr now db r,
        fst (Processor.compute_diff cur cr prev pr now db) = Ok r ->
        map stored (changes r) = compute_changes cur prev)
  /\ (forall c p, In c cur -> In p prev -> player_id c = player_id p ->
                  status c = status p ->
                  ~ In (player_id c)
                       (map c_player_id (compute_changes cur prev)))
  /\ map summary (compute_changes snapshot2 snapshot1)
     = [(1, Some "OUT", Some "QUESTIONABLE"); (2, None, Some "OUT")]
  /\ map summary (compute_changes [] snapshot2)
     = [(1, Some "QUESTIONABLE", Some "ACTIVE");
        (2, Some "OUT", Some "ACTIVE")].
Proof.
  intros Hc Hp.
  assert (Hin : forall ch,
      In ch (compute_changes cur prev) <->
      (exists c p, In c cur /\ In p prev /\ player_id c = player_id p
                   /\ status c <> status p
                   /\ ch = changed_record (player_id c) c p)
      \/ (exists c, In c cur /\ ~ In (player_id c) (map player_id prev)
                    /\ ch = added_record (player_id c) c)
      \/ (exists p, In p prev /\ ~ In (player_id p) (map player_id cur)
                    /\ ch = removed_record (player_id p) p)).
  { intros ch. rewrite in_compute_changes. unfold by_player.
    split; intros [H|[H|H]].
    - left. destruct H as [k [c [p [H1 [H2 [Hs ->]]]]]].
      apply of_items_get_Some in H1, H2; try assumption.
      destruct H1 as [? <-], H2 as [? E]. exists c, p. auto.
    - right; left. destruct H as [k [c [H1 [H2 ->]]]].
      apply of_items_get_Some in H1; [|assumption].
      apply of_items_get_None in H2. destruct H1 as [? <-]. exists c. auto.
    - right; right. destruct H as [k [p [H1 [H2 ->]]]].
      apply of_items_get_Some in H1; [|assumption].
      apply of_items_get_None in H2. destruct H1 as [? <-]. exists p. auto.
    - left. destruct H as [c [p [H1 [H2 [E [Hs ->]]]]]].
      exists (player_id c), c, p. repeat split; auto;
        apply of_items_get_Some; auto.
    - right; left. destruct H as [c [H1 [H2 ->]]].
      exists (player_id c), c. repeat split.
      + apply of_items_get_Some; auto.
      + now apply of_items_get_None.
    - right; right. destruct H as [p [H1 [H2 ->]]].
      exists (player_id p), p. repeat split.
      + apply of_items_get_Some; auto.
      + now apply of_items_get_None. }
  split; [exact Hin|].
  split; [|split; [|split; [|split; reflexivity]]].
  - unfold compute_changes. apply loops_ids_NoDup; apply of_items_NoDup.
  - intros cr pr now db r. apply compute_diff_returns_changes.
  - intros c p Hcin Hpin E Hs H.
    apply in_map_iff in H. destruct H as [ch [Hid H]].
    apply Hin in H. destruct H as [H|[H|H]].
    + destruct H as [c' [p' [H1 [H2 [E' [Hne ->]]]]]]. simpl in Hid.
      assert (c' = c) by (apply (key_inj_in player_id cur); auto).
      subst c'.
      assert (p' = p) by (apply (key_inj_in player_id prev); auto; congruence).
      subst p'. contradiction.
    + destruct H as [c' [H1 [H2 ->]]]. simpl in Hid. apply H2.
      rewrite Hid, E. now apply in_map.
    + destruct H as [p' [H1 [H2 ->]]]. simpl in Hid. apply H2.
      rewrite Hid. now apply in_map.
Qed.

Lemma compute_changes_exact_witness :
  (forall ch,
      In ch (compute_changes snapshot2 snapshot1) <->
      (exists c p, In c snapshot2 /\ In p snapshot1
                   /\ player_id c = player_id p
                   /\ status c <> status p
                   /\ ch = {| c_player_id := player_id c;
                           c_player_name := player_name c;
                           c_team := team c;
                           c_old_status := status p;
                           c_new_status := status c;
                           c_reason := reason c;
                           c_details := details c;
                           c_rank := rank c |})
      \/ (exists c, In c snapshot2
                    /\ ~ In (player_id c) (map player_id snapshot1)
                    /\ ch = {| c_player_id := player_id c;
                            c_player_name := player_name c;
                            c_team := team c;
                            c_old_status := None;
                            c_new_status := status c;
                            c_reason := reason c;
                            c_details := details c;
                            c_rank := rank c |})
      \/ (exists p, In p snapshot1
                    /\ ~ In (player_id p) (map player_id snapshot2)
                    /\ ch = {| c_player_id := player_id p;
                            c_player_name := player_name p;
                            c_team := team p;
                            c_old_status := status p;
                            c_new_status := Some "ACTIVE";
                            c_reason := None;
                            c_details := None;
                            c_rank := rank p |}))
  /\ NoDup (map c_player_id (compute_changes snapshot2 snapshot1))
  /\ (forall cr pr now db r,
        fst (Processor.compute_diff snapshot2 cr snapshot1 pr now db) = Ok r ->
        map stored (changes r) = compute_changes snapshot2 snapshot1)
  /\ (forall c p, In c snapshot2 -> In p snapshot1 ->
                  player_id c = player_id p -> status c = status p ->
                  ~ In (player_id c)
                       (map c_player_id (compute_changes snapshot2 snapshot1)))
  /\ map summary (compute_changes snapshot2 snapshot1)
     = [(1, Some "OUT", Some "QUESTIONABLE"); (2, None, Some "OUT")]
  /\ map summary (compute_changes [] snapshot2)
     = [(1, Some "QUESTIONABLE", Some "ACTIVE");
        (2, Some "OUT", Some "ACTIVE")].
Proof.
  apply (compute_changes_exact snapshot2 snapshot1).
  - simpl. repeat constructor; simpl; intuition discriminate.
  - simpl. repeat constructor; simpl; intuition discriminate.
Defined.

(** The specification's second scenario: everything disappears. *)
Example compute_changes_all_removed :
  map summary (compute_changes [] snapshot2)
  = [(1, Some "QUESTIONABLE", Some "ACTIVE"); (2, Some "OUT", Some "ACTIVE")].
Proof. reflexivity. Qed.

(** With a repeated player the last record of the list is the one
    compared, as in any dict comprehension. *)
Example compute_changes_last_wins :
  map summary
      (compute_changes
         [mk_status 1 "A" "LAL" "OUT"; mk_status 1 "A" "LAL" "DOUBTFUL"]
         [mk_status 1 "A" "LAL" "OUT"])
  = [(1, Some "OUT", Some "DOUBTFUL")].
Proof. reflexivity. Qed.

End DiffFacts.

(** ** The HTTP client's retries *)

Module RetryFacts.
Import Json HttpFetcher Examples.


Section Retry.
Variables (self : t) (srv : server) (method : string).
Variables (params data : option (list (string * string))).
Variables (json_data : option json).
Variables (hdrs : option (list (string * string))).
Variable u : string.
Hypothesis resolved : resolve_url self u = Ok u.

Let rq := request_of self method u params data json_data hdrs.




End Retry.





(** A response below 400 is returned after that one request. *)
Lemma make_request_success
    (self : t) (srv : server) (method url u : string)
    (params data : option (list (string * string)))
    (json_data : option json) (hdrs : option (list (string * string)))
    (rc : Z) (log : list Request) (resp : Response) :
  resolve_url self url = Ok u ->
  srv (List.length log)
      (request_of self method u params data json_data hdrs)
  = Responded resp ->
  resp_status_code resp < 400 ->
  make_request self srv method url params data json_data hdrs rc log
  = (Ok resp,
     (log ++ [request_of self method u params data json_data hdrs])%list).
Proof.
  intros Hr Hs Hc. rewrite make_request_equation_1.
  unfold make_request_unfold_clause_1. rewrite Hr. cbv zeta.
  rewrite Hs.
  destruct (Z.eqb_spec (resp_status_code resp) 429); [lia|].
  destruct (Z.leb_spec 400 (resp_status_code resp)); [lia|reflexivity].
Qed.


End RetryFacts.

(** ** Fetch-level dedup, error wrapping and the poll loop *)

Module FetchFacts.
Import Json HttpFetcher NBA BaseFetcher RetryFacts Examples.

Lemma find_by_hash_app rows rows' h :
  find_by_hash (rows ++ rows') h
  = match find_by_hash rows h with
    | Some r => Some r
    | None => find_by_hash rows' h
    end.
Proof. unfold find_by_hash. apply DictFacts.find_app. Qed.

Lemma find_by_hash_none_filter rows h :
  find_by_hash rows h = None ->
  filter (fun r => (report_hash r =? h)%string) rows = [].
Proof.
  unfold find_by_hash. induction rows as [|r rows IH]; simpl; [reflexivity|].
  destruct (report_hash r =? h)%string; [discriminate|exact IH].
Qed.

(** What [fetch] returns is decided by [fetch_body]. *)
Lemma fetch_unfold self settings srv now w :
  fetch self settings srv now w =
  let mr := make_request self srv "GET" (injury_report_endpoint settings)
                         None None None None 0 (http_log w) in
  let b := fetch_body self settings now (reports w) (fst mr) in
  (match fst b with
   | Ok result => Ok result
   | Raise e =>
       Raise (FetcherError
                ("Failed to fetch NBA injury report: " ++ str_exn e)
                500 [] None)
   end,
   {| reports := snd b; http_log := snd mr |}).
Proof.
  unfold fetch.
  destruct (make_request self srv "GET" (injury_report_endpoint settings)
                         None None None None 0 (http_log w)) as [r log'].
  cbn [fst snd].
  destruct (fetch_body self settings now (reports w) r) as [b rows'].
  reflexivity.
Qed.

(** The three ways out of the body of [fetch]: the content is already
    stored and is returned as not new; something raised before anything
    was stored; or the content was new, its row was committed and the
    read of [report.id] raised. *)
Lemma fetch_body_cases self settings now rows r :
  (exists response data h row,
     r = Ok response /\ resp_json response = Ok data
     /\ generate_hash data = Ok h
     /\ fetch_body self settings now rows r
        = (Ok {| fr_data := data; fr_hash := h; fr_is_new := false;
                 fr_report_id := None |}, rows)
     /\ find_by_hash rows h = Some row)
  \/ (exists e, fetch_body self settings now rows r = (Raise e, rows))
  \/ (exists response data h,
        r = Ok response /\ resp_json response = Ok data
        /\ generate_hash data = Ok h
        /\ find_by_hash rows h = None
        /\ fetch_body self settings now rows r
           = (Raise (DetachedInstanceError "InjuryReport"),
              (rows ++ [{| report_id := next_id rows; report_date := now;
                           source_url :=
                             str_opt (base_url self)
                             ++ injury_report_endpoint settings;
                           report_hash := h;
                           raw_content := dumps false data |}])%list)).
Proof.
  unfold fetch_body.
  destruct r as [response|e]; [|right; left; eauto].
  destruct (resp_json response) as [data|e] eqn:Ej; [|right; left; eauto].
  destruct (generate_hash data) as [h|e] eqn:Eh; [|right; left; eauto].
  destruct (find_by_hash rows h) as [row|] eqn:Ef.
  - left. exists response, data, h, row. repeat split; auto.
  - right. right. exists response, data, h.
    unfold insert_report. rewrite Ef. cbn [fst snd expired bind].
    repeat split; auto.
Qed.

(** C5 at the failing input: the provider serves the same content
    twice, and the table is empty before.  The first fetch computes the
    fingerprint and commits one snapshot with it, but raises instead of
    reporting [is_new = true]: the result is built from [report.id]
    after the session that stored the report has committed and closed.
    The second fetch finds the fingerprint, stores nothing and reports
    [is_new = false]; one snapshot is in the table afterwards. *)
Theorem fetch_new_content_raises :
  let first := fetch fetcher0 settings0 server_ok 1000 world0 in
  let second := fetch fetcher0 settings0 server_ok 2000 (snd first) in
  let h := "aeb9a0aeb3493ca5ed8ef1e497638f56d23d80a4821492fe03be8450b19e7159" in
  let row := {| report_id := 1; report_date := 1000;
                source_url := "https://stats.nba.com/stats/injuryreport";
                report_hash := h;
                raw_content := dumps false payload_ab |} in
  generate_hash payload_ab = Ok h
  /\ reports world0 = []
  /\ fst first
     = Raise (FetcherError
                ("Failed to fetch NBA injury report: "
                 ++ "Instance <InjuryReport> is not bound to a Session; "
                 ++ "attribute refresh operation cannot proceed")
                500 [] None)
  /\ reports (snd first) = [row]
  /\ fst second = Ok {| fr_data := payload_ab; fr_hash := h;
                        fr_is_new := false; fr_report_id := None |}
  /\ reports (snd second) = [row].
Proof.
  intros first second h row.
  split; [vm_compute; reflexivity|]. split; [reflexivity|].
  split; [vm_compute; reflexivity|]. split; [vm_compute; reflexivity|].
  split; vm_compute; reflexivity.
Qed.



(** With no callback, an iteration of the poll loop always ends with
    the normal interval: no error that [fetch] raises carries a wait. *)
Lemma poll_iteration_sleeps_interval
    (self : HttpFetcher.t) (settings : Settings) (srv : server)
    (now : Z) (st : PollState) :
  fst (poll_iteration self settings srv None now st) = Ok tt
  /\ slept (snd (poll_iteration self settings srv None now st))
     = (slept st ++ [SleepPollInterval])%list.
Proof.
  unfold poll_iteration, poll_once. rewrite fetch_unfold. cbv zeta.
  destruct (fst (fetch_body self settings now (reports (world st)) _))
    as [result|inner].
  - destruct (fr_is_new result); simpl; auto.
  - simpl. auto.
Qed.

(** C6 at the failing input: the provider answers 429 with
    Retry-After: 120.  The client sends one request and raises the
    rate-limit error with the wait of 120 seconds; handed that error,
    the loop's handler would sleep 120 seconds; but the error [fetch]
    lets through has lost the wait, and the iteration sleeps the
    normal poll interval; so do three iterations in a row, the loop
    going on after each. *)
Theorem poll_rate_limited_sleeps_interval :
  let inner := FetcherError "Rate limited by the API" 429
                            [("retry_after", DInt 120)] (Some 120) in
  make_request fetcher0 server_429 "GET" "/injuryreport"
               None None None None 0 []
  = (Raise inner,
     [request_of fetcher0 "GET" "https://stats.nba.com/stats/injuryreport"
                 None None None None])
  /\ slept (snd (after_error inner poll_state0)) = [SleepRetryAfter 120]
  /\ fst (poll_iteration fetcher0 settings0 server_429 None 0 poll_state0)
     = Ok tt
  /\ slept (snd (poll_iteration fetcher0 settings0 server_429 None 0
                                poll_state0))
     = [SleepPollInterval]
  /\ fst (start_polling fetcher0 settings0 server_429 None (fun _ => 0) 3
                         poll_state0) = Ok tt
  /\ slept (snd (start_polling fetcher0 settings0 server_429 None
                               (fun _ => 0) 3 poll_state0))
     = [SleepPollInterval; SleepPollInterval; SleepPollInterval].
Proof.
  intros inner. split; [vm_compute; reflexivity|].
  split; [reflexivity|]. repeat split; vm_compute; reflexivity.
Qed.

End FetchFacts.

(** ** Channel batches *)

Module ChannelFacts.
Import Channels.

Section Batch.
Variables (tag : string) (send : sender).
Hypothesis send_logs : forall n log, snd (send n log) = (log ++ [n])%list.

Lemma send_batch_with_log ns log :
  snd (send_batch_with tag send ns log) = (log ++ ns)%list.
Proof.
  revert log. induction ns as [|n rest IH]; intros log; simpl.
  - now rewrite app_nil_r.
  - destruct (send n log) as [r log1] eqn:E.
    specialize (IH log1).
    destruct (send_batch_with tag send rest log1) as [rs log2].
    simpl in *. rewrite IH.
    pose proof (send_logs n log) as L. rewrite E in L. simpl in L.
    rewrite L. now rewrite <- app_assoc.
Qed.

(** The result at position [i] is made from the [i]-th payload's own
    call, which sees the log of all the payloads before it. *)
Lemma send_batch_with_nth ns :
  forall log i n,
    nth_error ns i = Some n ->
    nth_error (fst (send_batch_with tag send ns log)) i
    = Some (result_of tag n (fst (send n (log ++ firstn i ns)%list))).
Proof.
  induction ns as [|m rest IH]; intros log i n Hn.
  - destruct i; discriminate Hn.
  - simpl. destruct (send m log) as [r log1] eqn:E.
    pose proof (send_logs m log) as L. rewrite E in L. simpl in L.
    specialize (IH log1).
    destruct (send_batch_with tag send rest log1) as [rs log2].
    destruct i as [|i]; simpl in *.
    + injection Hn as <-. rewrite app_nil_r, E. reflexivity.
    + rewrite (IH i n Hn). subst log1.
      now rewrite <- app_assoc.
Qed.

Lemma send_batch_with_length ns log :
  List.length (fst (send_batch_with tag send ns log)) = List.length ns.
Proof.
  revert log. induction ns as [|n rest IH]; intros log; simpl;
    [reflexivity|].
  destruct (send n log) as [r log1]. specialize (IH log1).
  destruct (send_batch_with tag send rest log1) as [rs log2].
  simpl in *. now rewrite IH.
Qed.

Hypothesis send_ok :
  forall n log x, fst (send n log) = Ok x -> x = ok_result tag n.

Lemma result_of_shape n log :
  let r := result_of tag n (fst (send n log)) in
  r_recipient r = to n /\ r_subject r = subject n /\ r_channel r = tag
  /\ ((success r = true /\ r_error r = None
       /\ fst (send n log) = Ok r)
      \/ (success r = false
          /\ exists e, fst (send n log) = Raise e
                       /\ r_error r = Some (str_exn e))).
Proof.
  simpl. destruct (fst (send n log)) as [x|e] eqn:E; simpl.
  - rewrite (send_ok n log x E). simpl. repeat split. left. auto.
  - repeat split. right. eauto.
Qed.
End Batch.

Lemma email_logs srv n log :
  snd (EmailNotifier.send_notification srv n log) = (log ++ [n])%list.
Proof.
  unfold EmailNotifier.send_notification.
  destruct (srv (List.length log) n); reflexivity.
Qed.

Lemma email_ok srv n log x :
  fst (EmailNotifier.send_notification srv n log) = Ok x ->
  x = ok_result "email" n.
Proof.
  unfold EmailNotifier.send_notification.
  destruct (srv (List.length log) n); simpl; congruence.
Qed.

Lemma websocket_logs conns ws n log :
  snd (WebSocketNotifier.send_notification conns ws n log)
  = (log ++ [n])%list.
Proof.
  unfold WebSocketNotifier.send_notification.
  destruct (WebSocketNotifier.connected conns (to n)); [|reflexivity].
  destruct (ws (List.length log) (str_recipient (to n)) n); reflexivity.
Qed.

Lemma websocket_ok conns ws n log x :
  fst (WebSocketNotifier.send_notification conns ws n log) = Ok x ->
  x = ok_result "websocket" n.
Proof.
  unfold WebSocketNotifier.send_notification.
  destruct (WebSocketNotifier.connected conns (to n)); [|discriminate].
  destruct (ws (List.length log) (str_recipient (to n)) n); simpl; congruence.
Qed.

Lemma send_batch_with_ok tag send ns log :
  (forall n log, snd (send n log) = (log ++ [n])%list) ->
  (forall n log x, fst (send n log) = Ok x -> x = ok_result tag n) ->
  batch_ok tag send ns log (send_batch_with tag send ns log).
Proof.
  intros Hl Ho. split; [now apply send_batch_with_length|].
  split; [now apply send_batch_with_log|].
  intros i n Hn.
  exists (result_of tag n (fst (send n (log ++ firstn i ns)%list))).
  split; [now apply send_batch_with_nth|].
  now apply result_of_shape.
Qed.

(** C8.  For the e-mail and the WebSocket channel (and the push
    placeholder), [send_batch] returns one result per payload, at the
    payload's position, with the payload's recipient and subject and
    the channel's tag.  Every payload is sent, in order, whatever
    happened to the ones before it: the result is a success when the
    payload's own [send_notification] returned and a failure holding
    the text of the exception when it raised. *)
Theorem send_batch_one_result_per_payload
    (srv : EmailNotifier.smtp)
    (active_connections : list (string * nat))
    (ws : WebSocketNotifier.sockets)
    (notifications : list Notification) (log : calls) :
  batch_ok "email" (EmailNotifier.send_notification srv) notifications log
           (EmailNotifier.send_batch srv notifications log)
  /\ batch_ok "websocket"
              (WebSocketNotifier.send_notification active_connections ws)
              notifications log
              (WebSocketNotifier.send_batch active_connections ws
                                            notifications log)
  /\ batch_ok "push" PushNotifier.send_notification notifications log
              (PushNotifier.send_batch notifications log).
Proof.
  split; [|split].
  - apply send_batch_with_ok; [apply email_logs|apply email_ok].
  - apply send_batch_with_ok; [apply websocket_logs|apply websocket_ok].
  - apply send_batch_with_ok; [reflexivity|].
    intros n l x [= <-]. reflexivity.
Qed.

End ChannelFacts.

(** ** Quiet hours *)

Module QuietHoursFacts.
Import Models Service.

Lemma parse_hh_mm_raises s x :
  parse_hh_mm s = Raise x -> exists m, x = ValueError m.
Proof.
  unfold parse_hh_mm.
  destruct (split ":" s) as [|a [|b [|c l]]];
    try (intros [= <-]; eauto; fail).
  destruct (py_int a); [|intros [= <-]; eauto].
  destruct (py_int b); [discriminate|intros [= <-]; eauto].
Qed.

(** [time(h, m)] returns, or raises [ValueError], or raises
    [OverflowError] when a number does not fit. *)
Lemma new_time_cases h m :
  (exists t, new_time h m = Ok t)
  \/ (exists msg, new_time h m = Raise (ValueError msg))
  \/ (fits_c_int h && fits_c_int m = false
      /\ exists msg, new_time h m = Raise (OtherError "OverflowError" msg)).
Proof.
  unfold new_time, OverflowError.
  destruct (fits_c_int h); cbn [negb andb].
  - destruct (fits_c_int m); cbn [negb].
    + destruct (negb _); [right; left; eauto|].
      destruct (negb _); [right; left; eauto|left; eauto].
    + right. right. split; [reflexivity|]. eauto.
  - right. right. split; [reflexivity|]. eauto.
Qed.

(** The [try] block returns the window test when both values denote a
    time; otherwise it raises [ValueError], or [OverflowError] when a
    number of a bound does not fit. *)
Lemma quiet_hours_body_bound s e now :
  match bind (parse_hh_mm s) (fun p => new_time (fst p) (snd p)),
        bind (parse_hh_mm e) (fun p => new_time (fst p) (snd p)) with
  | Ok start_time, Ok end_time =>
      quiet_hours_body s e now =
      Ok (if time_leb start_time end_time
          then time_leb start_time now && time_leb now end_time
          else time_leb start_time now || time_leb now end_time)
  | _, _ =>
      (exists m, quiet_hours_body s e now = Raise (ValueError m))
      \/ (fits (Some s) && fits (Some e) = false
          /\ exists m,
               quiet_hours_body s e now = Raise (OtherError "OverflowError" m))
  end.
Proof.
  unfold quiet_hours_body, fits.
  destruct (parse_hh_mm s) as [ps|x] eqn:Es; cbn [bind].
  - destruct (parse_hh_mm e) as [pe|y] eqn:Ee; cbn [bind].
    + destruct (new_time_cases (fst ps) (snd ps))
        as [[ts Ets]|[[msg Ets]|[Fs [msg Ets]]]]; rewrite Ets; cbn [bind].
      * destruct (new_time_cases (fst pe) (snd pe))
          as [[te Ete]|[[msg Ete]|[Fe [msg Ete]]]]; rewrite Ete; cbn [bind].
        -- reflexivity.
        -- left. eauto.
        -- right. rewrite Fe. split; [apply andb_false_r|eauto].
      * left. eauto.
      * right. rewrite Fs. split; [reflexivity|eauto].
    + apply parse_hh_mm_raises in Ee. destruct Ee as [m ->].
      destruct (new_time (fst ps) (snd ps)); left; eauto.
  - apply parse_hh_mm_raises in Es. destruct Es as [m ->]. left. eauto.
Qed.

(** What the function returns is decided by the two bounds; it raises
    only [OverflowError], and only for a bound with a number that does
    not fit. *)
Lemma is_in_quiet_hours_cases user now :
  is_in_quiet_hours user now =
  Ok match bound (u_quiet_hours_start user),
           bound (u_quiet_hours_end user) with
     | Some s, Some e =>
         if time_leb s e then time_leb s now && time_leb now e
         else time_leb s now || time_leb now e
     | _, _ => false
     end
  \/ (quiet_hours_fit user = false
      /\ exists m,
           is_in_quiet_hours user now = Raise (OtherError "OverflowError" m)).
Proof.
  unfold is_in_quiet_hours, bound, quiet_hours_fit.
  destruct (u_quiet_hours_start user) as [s|]; [|left; reflexivity].
  destruct (u_quiet_hours_end user) as [e|];
    [|left; destruct s; [reflexivity|]; destruct (bind _ _); reflexivity].
  destruct s as [|c s]; [left; reflexivity|].
  destruct e as [|d e];
    [left; cbn [String.eqb orb]; destruct (bind _ _); reflexivity|].
  cbn [String.eqb orb].
  pose proof (quiet_hours_body_bound (String c s) (String d e) now) as B.
  destruct (bind (parse_hh_mm (String c s)) _) as [ts|x].
  - destruct (bind (parse_hh_mm (String d e)) _) as [te|y].
    + left. rewrite B. reflexivity.
    + destruct B as [[m ->]|[F [m ->]]]; [left; reflexivity|].
      right. split; [exact F|]. exists m. reflexivity.
  - destruct B as [[m ->]|[F [m ->]]]; [left; reflexivity|].
    right. split; [exact F|]. exists m. reflexivity.
Qed.

(** With bounds whose numbers fit, the function returns. *)
Lemma is_in_quiet_hours_bounds user now :
  quiet_hours_fit user = true ->
  is_in_quiet_hours user now =
  Ok match bound (u_quiet_hours_start user),
           bound (u_quiet_hours_end user) with
     | Some s, Some e =>
         if time_leb s e then time_leb s now && time_leb now e
         else time_leb s now || time_leb now e
     | _, _ => false
     end.
Proof.
  intros F. destruct (is_in_quiet_hours_cases user now) as [E|[F' _]];
    [exact E|congruence].
Qed.

(** The window test, for bounds whose numbers fit: quiet hours never
    suppress when a bound is absent, empty or malformed; a same-day
    window suppresses exactly when start <= now <= end, and a window
    across midnight exactly when now >= start or now <= end. *)
Lemma quiet_hours_window (user : User) (now : time) :
  quiet_hours_fit user = true ->
  (exists b, is_in_quiet_hours user now = Ok b)
  /\ (bound (u_quiet_hours_start user) = None
      \/ bound (u_quiet_hours_end user) = None ->
      is_in_quiet_hours user now = Ok false)
  /\ (forall s e,
        bound (u_quiet_hours_start user) = Some s ->
        bound (u_quiet_hours_end user) = Some e ->
        (time_le s e ->
         (is_in_quiet_hours user now = Ok true
          <-> time_le s now /\ time_le now e))
        /\ (~ time_le s e ->
            (is_in_quiet_hours user now = Ok true
             <-> time_le s now \/ time_le now e))).
Proof.
  intros F.
  split; [rewrite (is_in_quiet_hours_bounds _ _ F); eauto|].
  split.
  { rewrite (is_in_quiet_hours_bounds _ _ F). intros [-> | ->]; [reflexivity|].
    destruct (bound (u_quiet_hours_start user)); reflexivity. }
  intros s e Hs He. rewrite (is_in_quiet_hours_bounds _ _ F), Hs, He.
  unfold time_le. split; intros Hle.
  - rewrite Hle. split.
    + intros [= H]. now apply andb_true_iff.
    + intros H. apply andb_true_iff in H. now rewrite H.
  - destruct (time_leb s e); [congruence|]. split.
    + intros [= H]. now apply orb_true_iff.
    + intros H. apply orb_true_iff in H. now rewrite H.
Qed.

(** C4 at the failing input: a stored start of quiet hours whose hour
    does not fit a C [int].  The value splits into two integers, so
    the parse succeeds; [time] then raises [OverflowError], which the
    handler for [ValueError] and [AttributeError] does not catch, and
    the evaluation raises where it should report no suppression.  The
    same happens for a minute below the range.  For every subscriber
    and time the evaluation returns what the two bounds decide, or
    raises in this way.  The other malformed values read as no bound
    and do not suppress, and the four windows of the specification
    evaluate as it says. *)
Theorem quiet_hours_overflow_escapes :
  parse_hh_mm "2147483648:00" = Ok (2147483648, 0)
  /\ is_in_quiet_hours
       (with_quiet_hours (Some "2147483648:00") (Some "06:00"))
       (at_time 12 0 0)
     = Raise (OtherError "OverflowError"
                         "signed integer is greater than maximum")
  /\ is_in_quiet_hours
       (with_quiet_hours (Some "22:00") (Some "06:-2147483649"))
       (at_time 12 0 0)
     = Raise (OtherError "OverflowError"
                         "signed integer is less than minimum")
  /\ (forall user now,
        is_in_quiet_hours user now =
        Ok match bound (u_quiet_hours_start user),
                 bound (u_quiet_hours_end user) with
           | Some s, Some e =>
               if time_leb s e then time_leb s now && time_leb now e
               else time_leb s now || time_leb now e
           | _, _ => false
           end
        \/ exists m,
             is_in_quiet_hours user now
             = Raise (OtherError "OverflowError" m))
  /\ bound (Some "22:00:00") = None
  /\ bound (Some "24:00") = None
  /\ bound (Some "ten") = None
  /\ bound (Some "2147483647:00") = None
  /\ is_in_quiet_hours (with_quiet_hours (Some "24:00") (Some "06:00"))
                       (at_time 12 0 0) = Ok false
  /\ is_in_quiet_hours (with_quiet_hours (Some "2147483647:00") (Some "06:00"))
                       (at_time 12 0 0) = Ok false
  /\ is_in_quiet_hours (with_quiet_hours (Some "ten") (Some "06:00"))
                       (at_time 12 0 0) = Ok false
  /\ is_in_quiet_hours (with_quiet_hours None (Some "06:00"))
                       (at_time 23 30 0) = Ok false
  /\ is_in_quiet_hours (with_quiet_hours (Some "22:00") (Some "06:00"))
                       (at_time 23 30 0) = Ok true
  /\ is_in_quiet_hours (with_quiet_hours (Some "22:00") (Some "06:00"))
                       (at_time 12 0 0) = Ok false
  /\ is_in_quiet_hours (with_quiet_hours (Some "09:00") (Some "17:00"))
                       (at_time 12 0 0) = Ok true
  /\ is_in_quiet_hours (with_quiet_hours (Some "09:00") (Some "17:00"))
                       (at_time 20 0 0) = Ok false.
Proof.
  split; [vm_compute; reflexivity|].
  split; [vm_compute; reflexivity|].
  split; [vm_compute; reflexivity|].
  split.
  { intros user now.
    destruct (is_in_quiet_hours_cases user now) as [E|[_ [m E]]];
      [left; exact E|right; eauto]. }
  repeat split; vm_compute; reflexivity.
Qed.

End QuietHoursFacts.

(** ** Delivery marking and preference resolution *)

Module ServiceFacts.
Import Models Channels Service QuietHoursFacts Examples.

Lemma selected_iff ids sc :
  selected ids sc = true
  <-> In (sc_id sc) ids /\ sc_notification_sent sc = false.
Proof.
  unfold selected. rewrite andb_true_iff, negb_true_iff, existsb_exists.
  split.
  - intros [[x [Hx E]] Hs]. apply Z.eqb_eq in E. subst x. auto.
  - intros [Hin Hs]. split; [|exact Hs].
    exists (sc_id sc). split; [exact Hin|apply Z.eqb_refl].
Qed.

Lemma selected_mark ids now sc : selected ids (mark_notified now sc) = false.
Proof. unfold selected. simpl. apply andb_false_r. Qed.

Lemma none_selected_after ids now rows :
  filter (selected ids) (map (mark_selected ids now) rows) = [].
Proof.
  induction rows as [|r rows IH]; simpl; [reflexivity|].
  unfold mark_selected at 1.
  destruct (selected ids r) eqn:E.
  - now rewrite selected_mark.
  - now rewrite E.
Qed.

Lemma none_selected_map ids now rows :
  filter (selected ids) rows = [] -> map (mark_selected ids now) rows = rows.
Proof.
  induction rows as [|r rows IH]; simpl; [reflexivity|].
  unfold mark_selected at 1.
  destruct (selected ids r); [discriminate|].
  intros H. now rewrite IH.
Qed.

(** The user loop returns when the quiet-hours check of each of its
    users does. *)
Lemma notify_users_ok svc db now change player us :
  (forall u, In u us -> exists b, is_in_quiet_hours u now = Ok b) ->
  exists ns, notify_users svc db now change player us = Ok ns.
Proof.
  induction us as [|u us IH]; simpl; intros Hq; [eauto|].
  destruct (Hq u (or_introl eq_refl)) as [b ->].
  destruct IH as [ns ->]; [intros; apply Hq; auto|].
  simpl. eauto.
Qed.

Lemma collect_ok svc db now rows :
  (forall sc, In sc rows -> player_of db (sc_player_id sc) <> None) ->
  (forall sc p u, In sc rows -> player_of db (sc_player_id sc) = Some p ->
                  In u (users_to_notify db sc p) ->
                  exists b, is_in_quiet_hours u now = Ok b) ->
  exists ns, collect svc db now rows = Ok ns.
Proof.
  induction rows as [|sc rows IH]; simpl; intros Hp Hq; [eauto|].
  destruct (player_of db (sc_player_id sc)) as [p|] eqn:E;
    [|exfalso; apply (Hp sc); auto].
  destruct (notify_users_ok svc db now sc p (users_to_notify db sc p))
    as [ns ->]; [intros u Hu; apply (Hq sc p u); auto|].
  destruct IH as [more ->];
    [intros; apply Hp; auto|intros x q u Hx; apply (Hq x q u); auto|].
  simpl. eauto.
Qed.

(** With nothing left to deliver the call changes and sends nothing. *)
Lemma process_nothing_selected svc now_time now changes db :
  filter (selected (map Processor.stored_id changes)) (status_changes db) = [] ->
  process_status_changes svc now_time now changes db
  = {| returned := Ok {| pr_success := true; notifications_sent := 0;
                         results := None |};
       dispatched := []; db_after := db |}.
Proof.
  intros E. unfold process_status_changes. now rewrite E.
Qed.

Lemma process_db_after svc now_time now changes db :
  (forall sc, In sc (status_changes db) ->
              selected (map Processor.stored_id changes) sc = true ->
              player_of db (sc_player_id sc) <> None) ->
  (forall sc p u, In sc (status_changes db) ->
                  selected (map Processor.stored_id changes) sc = true ->
                  player_of db (sc_player_id sc) = Some p ->
                  In u (users_to_notify db sc p) ->
                  exists b, is_in_quiet_hours u now_time = Ok b) ->
  (exists r, returned (process_status_changes svc now_time now changes db)
             = Ok r /\ pr_success r = true)
  /\ db_after (process_status_changes svc now_time now changes db)
     = set_status_changes db
         (map (mark_selected (map Processor.stored_id changes) now)
              (status_changes db)).
Proof.
  intros Hp Hq. unfold process_status_changes.
  set (ids := map Processor.stored_id changes) in *.
  destruct (filter (selected ids) (status_changes db)) as [|sc rows] eqn:Ef.
  - simpl. split; [eauto|].
    rewrite (none_selected_map ids now _ Ef). now destruct db.
  - destruct (collect_ok svc db now_time (sc :: rows)) as [ns ->].
    { intros x Hx. rewrite <- Ef in Hx. apply filter_In in Hx.
      destruct Hx. now apply Hp. }
    { intros x p u Hx. rewrite <- Ef in Hx. apply filter_In in Hx.
      destruct Hx. now apply Hq. }
    destruct (send_notifications svc ns) as [rs batches]. simpl.
    split; [eauto|reflexivity].
Qed.

(** When every change to deliver still has its player row and the
    quiet-hours check returns for the subscribers it selects, one call
    of [process_status_changes] returns normally, whatever the channels
    do with their batches (results, per-recipient failures or an
    exception of the whole batch), and leaves every row that was handed
    to it and not yet notified with [notification_sent = True] and the
    timestamp of the call; every other row is left as it was.  A second
    call on the same changes finds nothing to deliver: it returns
    [notifications_sent = 0], hands no batch to any channel and leaves
    the database unchanged. *)
Lemma process_marks_delivered_once
    (svc svc' : Service.t) (now_time now_time' : time) (now now' : Z)
    (changes : list Processor.StoredChange) (db : Database) :
  (forall sc, In sc (status_changes db) ->
              In (sc_id sc) (map Processor.stored_id changes) ->
              sc_notification_sent sc = false ->
              player_of db (sc_player_id sc) <> None) ->
  (forall sc p u, In sc (status_changes db) ->
                  In (sc_id sc) (map Processor.stored_id changes) ->
                  sc_notification_sent sc = false ->
                  player_of db (sc_player_id sc) = Some p ->
                  In u (users_to_notify db sc p) ->
                  exists b, is_in_quiet_hours u now_time = Ok b) ->
  let ids := map Processor.stored_id changes in
  let out1 := process_status_changes svc now_time now changes db in
  let out2 :=
    process_status_changes svc' now_time' now' changes (db_after out1) in
  (exists r, returned out1 = Ok r /\ pr_success r = true)
  /\ db_after out1
     = {| players := players db;
          status_changes :=
            map (fun sc =>
                   if In_dec Z.eq_dec (sc_id sc) ids
                   then if sc_notification_sent sc then sc
                        else {| sc_id := sc_id sc;
                                sc_player_id := sc_player_id sc;
                                sc_old_status := sc_old_status sc;
                                sc_new_status := sc_new_status sc;
                                sc_change_date := sc_change_date sc;
                                sc_report_id := sc_report_id sc;
                                sc_notification_sent := true;
                                sc_notification_date := Some now |}
                   else sc)
                (status_changes db);
          users := users db;
          notification_settings := notification_settings db |}
  /\ (forall sc, In sc (status_changes (db_after out1)) ->
                 In (sc_id sc) ids -> sc_notification_sent sc = true)
  /\ out2 = {| returned := Ok {| pr_success := true; notifications_sent := 0;
                                 results := None |};
               dispatched := []; db_after := db_after out1 |}.
Proof.
  intros Hp Hq ids out1 out2.
  assert (Hp' : forall sc, In sc (status_changes db) ->
                           selected ids sc = true ->
                           player_of db (sc_player_id sc) <> None).
  { intros sc Hin Hs. apply selected_iff in Hs. destruct Hs. now apply Hp. }
  assert (Hq' : forall sc p u, In sc (status_changes db) ->
                  selected ids sc = true ->
                  player_of db (sc_player_id sc) = Some p ->
                  In u (users_to_notify db sc p) ->
                  exists b, is_in_quiet_hours u now_time = Ok b).
  { intros sc p u Hin Hs. apply selected_iff in Hs. destruct Hs.
    now apply Hq. }
  destruct (process_db_after svc now_time now changes db Hp' Hq')
    as [Hr Hdb].
  fold ids in Hdb. fold out1 in Hr, Hdb.
  assert (Hrows : status_changes (db_after out1)
                  = map (mark_selected ids now) (status_changes db))
    by now rewrite Hdb.
  split; [exact Hr|]. split; [|split].
  - rewrite Hdb. unfold set_status_changes. f_equal.
    apply map_ext. intros sc. unfold mark_selected, selected.
    destruct (In_dec Z.eq_dec (sc_id sc) ids) as [Hin|Hn].
    + assert (E : existsb (Z.eqb (sc_id sc)) ids = true).
      { apply existsb_exists. exists (sc_id sc). split; [exact Hin|].
        apply Z.eqb_refl. }
      rewrite E. now destruct (sc_notification_sent sc).
    + assert (E : existsb (Z.eqb (sc_id sc)) ids = false).
      { destruct (existsb (Z.eqb (sc_id sc)) ids) eqn:E; [|reflexivity].
        apply existsb_exists in E. destruct E as [x [Hx E]].
        apply Z.eqb_eq in E. subst x. contradiction. }
      now rewrite E.
  - intros sc Hin Hid. rewrite Hrows in Hin. apply in_map_iff in Hin.
    destruct Hin as [sc0 [<- Hin0]]. unfold mark_selected.
    destruct (selected ids sc0) eqn:E; [reflexivity|].
    unfold mark_selected in Hid. rewrite E in Hid.
    destruct (sc_notification_sent sc0) eqn:Es; [reflexivity|].
    rewrite (proj2 (selected_iff ids sc0) (conj Hid Es)) in E. discriminate.
  - unfold out2. apply process_nothing_selected. fold ids.
    rewrite Hrows. apply none_selected_after.
Qed.

(** C2 at the failing input: a subscriber of the player of an
    undelivered change has a stored start of quiet hours whose hour
    does not fit a C [int].  The call raises [OverflowError] out of the
    quiet-hours check: no batch reaches a channel, no row is marked,
    and a later call on the same changes raises again.  With a start
    that is no time of day the check reads it as no quiet hours: the
    call returns although the e-mail batch fails as a whole, the row
    handed to it gets [notification_sent = True] and the timestamp of
    the call, the other row is left as it was, and a second call
    returns [notifications_sent = 0], sends nothing and changes
    nothing. *)
Theorem process_overflow_marks_nothing :
  let changes := [stored_of change10] in
  let out := process_status_changes service_email noon 900 changes
                                    db_overflow in
  let again := process_status_changes service_email noon 950 changes
                                      (db_after out) in
  let out1 := process_status_changes service_email_down noon 900 changes
                                     db_malformed in
  let out2 := process_status_changes service_email noon 950 changes
                                     (db_after out1) in
  status_changes db_overflow = [change10; change11]
  /\ sc_notification_sent change10 = false
  /\ u_quiet_hours_start night_fan = Some "2147483648:00"
  /\ returned out
     = Raise (OtherError "OverflowError"
                         "signed integer is greater than maximum")
  /\ dispatched out = []
  /\ db_after out = db_overflow
  /\ returned again = returned out
  /\ db_after again = db_overflow
  /\ u_quiet_hours_start late_fan = Some "24:00"
  /\ (exists r, returned out1 = Ok r /\ pr_success r = true)
  /\ map fst (dispatched out1) = ["email"]
  /\ status_changes (db_after out1)
     = [{| sc_id := 10; sc_player_id := 1; sc_old_status := Some "OUT";
           sc_new_status := "QUESTIONABLE"; sc_change_date := 500;
           sc_report_id := 7; sc_notification_sent := true;
           sc_notification_date := Some 900 |};
        change11]
  /\ out2 = {| returned := Ok {| pr_success := true; notifications_sent := 0;
                                 results := None |};
               dispatched := []; db_after := db_after out1 |}.
Proof.
  intros changes out again out1 out2.
  split; [reflexivity|]. split; [reflexivity|]. split; [reflexivity|].
  split; [vm_compute; reflexivity|]. split; [vm_compute; reflexivity|].
  split; [vm_compute; reflexivity|]. split; [vm_compute; reflexivity|].
  split; [vm_compute; reflexivity|]. split; [reflexivity|].
  split; [eexists; split; vm_compute; reflexivity|].
  split; [vm_compute; reflexivity|]. split; vm_compute; reflexivity.
Qed.

(** *** Preference resolution *)








End ServiceFacts.

(* ================================================================== *)
(** * Part III: further properties of the code                         *)
(* ================================================================== *)

(** ** The HTTP client beyond the retry ceiling *)

Module ClientFacts.
Import Json HttpFetcher RetryFacts Examples.

Section Runs.
Variables (self : t) (srv : server) (method : string).
Variables (params data : option (list (string * string))).
Variables (json_data : option json).
Variables (hdrs : option (list (string * string))).
Variable u : string.
Hypothesis resolved : resolve_url self u = Ok u.

Let rq := request_of self method u params data json_data hdrs.


End Runs.







(** X3.  With an empty base URL in the settings and none given to the
    constructor, a relative endpoint cannot be resolved: every fetch
    fails with the wrapped "No base URL" error, sends no request and
    leaves the world as it was. *)
Theorem fetch_without_base_url
    (settings : Settings) (base : option string)
    (headers : option (list (string * string))) (retries : option Z)
    (srv : server) (now : Z) (w : NBA.World) :
  nba_api_base_url settings = "" ->
  base = None \/ base = Some "" ->
  is_absolute (injury_report_endpoint settings) = false ->
  NBA.fetch (NBA.init settings base headers retries) settings srv now w
  = (Raise (FetcherError
              "Failed to fetch NBA injury report: No base URL provided for relative URL"
              500 [] None), w).
Proof.
  intros Hb Hbase Hrel. rewrite FetchFacts.fetch_unfold.
  rewrite make_request_equation_1. unfold make_request_unfold_clause_1.
  assert (E : resolve_url (NBA.init settings base headers retries)
                          (injury_report_endpoint settings)
              = Raise (FetcherError "No base URL provided for relative URL"
                                    500 [] None)).
  { unfold resolve_url. rewrite Hrel. unfold NBA.init, HttpFetcher.init.
    simpl. destruct Hbase as [-> | ->]; rewrite Hb; reflexivity. }
  rewrite E. cbv zeta. simpl. now destruct w.
Qed.

Lemma fetch_without_base_url_witness :
  NBA.fetch (NBA.init settings_no_base None None None) settings_no_base
            server_ok 0 world0
  = (Raise (FetcherError
              "Failed to fetch NBA injury report: No base URL provided for relative URL"
              500 [] None), world0).
Proof.
  apply fetch_without_base_url.
  - reflexivity.
  - now left.
  - reflexivity.
Defined.

Lemma rstrip_slashes n : rstrip is_slash (More.slashes n) = "".
Proof.
  induction n as [|n IH]; simpl; [reflexivity|]. now rewrite IH.
Qed.

Lemma rstrip_app_slashes b n :
  rstrip is_slash (b ++ More.slashes n) = rstrip is_slash b.
Proof.
  induction b as [|a r IH]; simpl.
  - apply rstrip_slashes.
  - now rewrite IH.
Qed.

Lemma lstrip_slashes_app m x :
  lstrip is_slash (More.slashes m ++ x) = lstrip is_slash x.
Proof. induction m as [|m IH]; simpl; [reflexivity|exact IH]. Qed.

Lemma slashes_not_absolute m x :
  is_absolute x = false -> is_absolute (More.slashes m ++ x) = false.
Proof. destruct m; [easy|reflexivity]. Qed.

(** X4.  Joining a relative URL to the base URL ignores slashes at the
    seam: any number of slashes at the end of the base and at the
    start of the URL gives the same absolute URL, with a single slash
    between the two parts. *)
Theorem resolve_url_ignores_seam_slashes
    (b x : string) (n m : nat) (h : list (string * string)) (r : Z) :
  b <> "" ->
  is_absolute x = false ->
  resolve_url {| base_url := Some (b ++ More.slashes n); headers := h;
                 max_retries := r |} (More.slashes m ++ x)
  = Ok (rstrip is_slash b ++ "/" ++ lstrip is_slash x)
  /\ resolve_url {| base_url := Some b; headers := h; max_retries := r |} x
     = Ok (rstrip is_slash b ++ "/" ++ lstrip is_slash x)
  /\ (lstrip is_slash x = "" \/
      exists c t, lstrip is_slash x = String c t /\ is_slash c = false)
  /\ (rstrip is_slash b = "" \/
      exists t c, rstrip is_slash b = t ++ String c ""
                  /\ is_slash c = false).
Proof.
  intros Hb Hx. split; [|split; [|split]].
  - unfold resolve_url. rewrite (slashes_not_absolute m x Hx). simpl.
    destruct b as [|a b']; [congruence|]. simpl.
    change (String a (b' ++ More.slashes n))
      with (String a b' ++ More.slashes n).
    now rewrite rstrip_app_slashes, lstrip_slashes_app.
  - unfold resolve_url. rewrite Hx. simpl.
    destruct b as [|a b']; [congruence|reflexivity].
  - clear. induction x as [|c t IH]; simpl; [now left|].
    destruct (is_slash c) eqn:E; [exact IH|]. right. eauto.
  - clear. induction b as [|a r IH]; simpl; [now left|].
    destruct IH as [E|[t [c [E Hc]]]]; rewrite E.
    + simpl. destruct (is_slash a) eqn:Ea; [now left|].
      right. exists "", a. auto.
    + right. exists (String a t), c. split; [|exact Hc].
      assert (N : ((t ++ String c "") =? "")%string = false)
        by (destruct t; reflexivity).
      rewrite N. reflexivity.
Qed.

Lemma resolve_url_ignores_seam_slashes_witness :
  resolve_url {| base_url := Some "https://stats.nba.com/stats//";
                 headers := []; max_retries := 3 |} "///injuryreport"
  = Ok "https://stats.nba.com/stats/injuryreport".
Proof.
  destruct (resolve_url_ignores_seam_slashes "https://stats.nba.com/stats"
              "injuryreport" 2 3 [] 3) as [H _].
  - discriminate.
  - reflexivity.
  - exact H.
Defined.



End ClientFacts.

(** ** The snapshot table and the poll loop *)

Module PollFacts.
Import Json HttpFetcher NBA BaseFetcher FetchFacts Examples.

Lemma next_id_fresh rows r : In r rows -> report_id r < next_id rows.
Proof.
  unfold next_id. induction rows as [|x rows IH]; [contradiction|].
  cbn [fold_right In]. intros [->|H]; [lia|]. specialize (IH H). lia.
Qed.

Lemma find_by_hash_none rows h :
  find_by_hash rows h = None -> ~ In h (map report_hash rows).
Proof.
  unfold find_by_hash. intros E Hin. apply in_map_iff in Hin.
  destruct Hin as [r [Hr Hin]].
  pose proof (find_none _ _ E r Hin) as F. simpl in F.
  rewrite Hr, String.eqb_refl in F. discriminate.
Qed.

(** X6.  [fetch] never reports a new snapshot.  What it returns has
    [is_new = False] and no report id: the fingerprint of the returned
    data was in the table, which is left as it was.  When it raises,
    the table is as it was, or one row was appended for content whose
    fingerprint was not in it: the row holds that fingerprint, the next
    id, the time of the call and the payload serialized in its own key
    order, and the error is the one of the read of [report.id].  The
    latter happens whenever the provider answers with such content. *)
Theorem fetch_never_reports_new
    (self : HttpFetcher.t) (settings : Settings) (srv : server)
    (now : Z) (w : World) :
  let mr := make_request self srv "GET" (injury_report_endpoint settings)
                         None None None None 0 (http_log w) in
  let out := fetch self settings srv now w in
  let detached :=
    FetcherError
      ("Failed to fetch NBA injury report: "
       ++ "Instance <InjuryReport> is not bound to a Session; "
       ++ "attribute refresh operation cannot proceed") 500 [] None in
  match fst out with
  | Ok fr =>
      fr_is_new fr = false
      /\ fr_report_id fr = None
      /\ generate_hash (fr_data fr) = Ok (fr_hash fr)
      /\ find_by_hash (reports w) (fr_hash fr) <> None
      /\ reports (snd out) = reports w
  | Raise e =>
      reports (snd out) = reports w
      \/ e = detached
         /\ exists data h,
              generate_hash data = Ok h
              /\ find_by_hash (reports w) h = None
              /\ reports (snd out)
                 = (reports w
                    ++ [More.new_report self settings now (reports w)
                                        data h])%list
  end
  /\ forall response data h,
       fst mr = Ok response ->
       resp_json response = Ok data ->
       generate_hash data = Ok h ->
       find_by_hash (reports w) h = None ->
       fst out = Raise detached
       /\ reports (snd out)
          = (reports w
             ++ [More.new_report self settings now (reports w) data h])%list.
Proof.
  intros mr out detached. unfold out. rewrite fetch_unfold. cbv zeta.
  fold mr. cbn [fst snd reports]. split.
  - destruct (fetch_body_cases self settings now (reports w) (fst mr))
      as [[rsp [data [h [row [_ [_ [Hh [E F]]]]]]]]
         |[[e E]|[rsp [data [h [_ [_ [Hh [F E]]]]]]]]];
      rewrite E; cbn [fst snd fr_is_new fr_report_id fr_data fr_hash].
    + repeat split; auto. congruence.
    + left. reflexivity.
    + right. split; [reflexivity|]. exists data, h. repeat split; auto.
  - intros response data h Hr Hj Hh Hf. unfold fetch_body.
    rewrite Hr, Hj, Hh, Hf. unfold insert_report. rewrite Hf.
    cbn [fst snd expired bind]. split; reflexivity.
Qed.

Lemma fetch_never_reports_new_witness :
  let out := fetch fetcher0 settings0 server_ok 1000 world0 in
  fst out
  = Raise (FetcherError
             ("Failed to fetch NBA injury report: "
              ++ "Instance <InjuryReport> is not bound to a Session; "
              ++ "attribute refresh operation cannot proceed") 500 [] None)
  /\ reports (snd out)
     = [{| report_id := 1; report_date := 1000;
           source_url := "https://stats.nba.com/stats/injuryreport";
           report_hash :=
             "aeb9a0aeb3493ca5ed8ef1e497638f56d23d80a4821492fe03be8450b19e7159";
           raw_content := dumps false payload_ab |}].
Proof.
  intros out.
  destruct (fetch_never_reports_new fetcher0 settings0 server_ok 1000 world0)
    as [_ H].
  apply (H (response_with 200 None (Ok payload_ab)) payload_ab
           "aeb9a0aeb3493ca5ed8ef1e497638f56d23d80a4821492fe03be8450b19e7159").
  - vm_compute. reflexivity.
  - reflexivity.
  - vm_compute. reflexivity.
  - reflexivity.
Defined.

(** X7.  Fetching keeps the snapshot table sound: fingerprints stay
    pairwise distinct and so do the primary keys, no row is changed or
    removed and at most one is appended. *)
Theorem fetch_keeps_table_sound
    (self : HttpFetcher.t) (settings : Settings) (srv : server)
    (now : Z) (w : World) :
  NoDup (map report_hash (reports w)) ->
  NoDup (map report_id (reports w)) ->
  let w' := snd (fetch self settings srv now w) in
  NoDup (map report_hash (reports w'))
  /\ NoDup (map report_id (reports w'))
  /\ exists added, reports w' = (reports w ++ added)%list
                   /\ (List.length added <= 1)%nat.
Proof.
  intros Hh Hi w'. unfold w'. rewrite fetch_unfold. cbv zeta.
  cbn [snd reports].
  destruct (fetch_body_cases self settings now (reports w)
              (fst (make_request self srv "GET"
                      (injury_report_endpoint settings)
                      None None None None 0 (http_log w))))
    as [[rsp [data [h [row [_ [_ [_ [E _]]]]]]]]
       |[[e E]|[rsp [data [h [_ [_ [_ [Hf E]]]]]]]]];
    rewrite E; cbn [snd].
  - split; [exact Hh|]. split; [exact Hi|].
    exists []. split; [now rewrite app_nil_r|]. simpl. lia.
  - split; [exact Hh|]. split; [exact Hi|].
    exists []. split; [now rewrite app_nil_r|]. simpl. lia.
  - rewrite !map_app. cbn [map report_hash report_id].
    split; [|split].
    + apply NoDup_app; [exact Hh|repeat constructor; intros []|].
      intros x Hin [<-|[]]. now apply (find_by_hash_none _ _ Hf).
    + apply NoDup_app; [exact Hi|repeat constructor; intros []|].
      intros i Hin [<-|[]]. apply in_map_iff in Hin.
      destruct Hin as [r [Er Hr]]. apply next_id_fresh in Hr. lia.
    + eexists. split; [reflexivity|]. simpl. lia.
Qed.

Lemma fetch_keeps_table_sound_witness :
  let w1 := snd (fetch fetcher0 settings0 server_ok 1000 world0) in
  let w2 := snd (fetch fetcher0 settings0 server_ok 2000 w1) in
  NoDup (map report_hash (reports w2))
  /\ NoDup (map report_id (reports w2))
  /\ exists added, reports w2 = (reports w1 ++ added)%list
                   /\ (List.length added <= 1)%nat.
Proof.
  intros w1 w2.
  apply (fetch_keeps_table_sound fetcher0 settings0 server_ok 2000 w1).
  - vm_compute. repeat constructor. intros [].
  - vm_compute. repeat constructor. intros [].
Defined.

(** What [fetch] returns is never new. *)
Lemma fetch_not_new self settings srv now w fr :
  fst (fetch self settings srv now w) = Ok fr -> fr_is_new fr = false.
Proof.
  rewrite fetch_unfold. cbv zeta. cbn [fst].
  destruct (fetch_body_cases self settings now (reports w)
              (fst (make_request self srv "GET"
                      (injury_report_endpoint settings)
                      None None None None 0 (http_log w))))
    as [[rsp [data [h [row [_ [_ [_ [E _]]]]]]]]
       |[[e E]|[rsp [data [h [_ [_ [_ [_ E]]]]]]]]];
    rewrite E; cbn [fst]; [|discriminate|discriminate].
  intros [= <-]. reflexivity.
Qed.

Lemma poll_iteration_running self settings srv now st :
  running (snd (poll_iteration self settings srv None now st)) = running st.
Proof.
  unfold poll_iteration, poll_once. rewrite fetch_unfold. cbv zeta.
  destruct (fst (fetch_body self settings now (reports (world st)) _))
    as [result|inner].
  - destruct (fr_is_new result); reflexivity.
  - reflexivity.
Qed.

Lemma poll_loop_survives self settings srv clock fuel :
  forall i st,
    running st = true ->
    fst (poll_loop self settings srv None clock fuel i st) = Ok tt
    /\ slept (snd (poll_loop self settings srv None clock fuel i st))
       = (slept st ++ repeat SleepPollInterval fuel)%list
    /\ running (snd (poll_loop self settings srv None clock fuel i st)) = true.
Proof.
  induction fuel as [|fuel IH]; intros i st Hrun; simpl.
  - rewrite app_nil_r. auto.
  - rewrite Hrun.
    destruct (poll_iteration_sleeps_interval self settings srv (clock i) st)
      as [H1 H2].
    pose proof (poll_iteration_running self settings srv (clock i) st) as H3.
    destruct (poll_iteration self settings srv None (clock i) st)
      as [r st'].
    simpl in H1, H2, H3. subst r.
    destruct (IH (S i) st') as [I1 [I2 I3]]; [congruence|].
    split; [exact I1|]. split; [|exact I3].
    rewrite I2, H2, <- app_assoc. reflexivity.
Qed.

(** X8.  Without a callback the poll loop cannot be stopped by the
    provider: whatever the provider answers, and however long the loop
    runs, every iteration ends normally and is followed by one sleep
    of the poll interval, and the loop is still running. *)
Theorem start_polling_survives
    (self : HttpFetcher.t) (settings : Settings) (srv : server)
    (clock : nat -> Z) (fuel : nat) (st : PollState) :
  let out := start_polling self settings srv None clock fuel st in
  fst out = Ok tt
  /\ slept (snd out) = (slept st ++ repeat SleepPollInterval fuel)%list
  /\ running (snd out) = true.
Proof.
  intros out. unfold out, start_polling.
  apply (poll_loop_survives self settings srv clock fuel 0
           {| running := true; last_report_time := last_report_time st;
              world := world st; slept := slept st |}).
  reflexivity.
Qed.

(** An iteration with a callback is the one without: the callback is
    not reached. *)
Lemma poll_iteration_no_callback self settings srv cb now st :
  poll_iteration self settings srv (Some cb) now st
  = poll_iteration self settings srv None now st.
Proof.
  unfold poll_iteration, poll_once.
  pose proof (fetch_not_new self settings srv now (world st)) as H.
  destruct (fetch self settings srv now (world st)) as [r w'].
  destruct r as [fr|e]; [|reflexivity].
  simpl in H. rewrite (H fr eq_refl). reflexivity.
Qed.

Lemma poll_loop_no_callback self settings srv cb clock fuel :
  forall i st,
    poll_loop self settings srv (Some cb) clock fuel i st
    = poll_loop self settings srv None clock fuel i st.
Proof.
  induction fuel as [|fuel IH]; intros i st; [reflexivity|].
  cbn [poll_loop]. destruct (running st); [|reflexivity].
  rewrite poll_iteration_no_callback.
  destruct (poll_iteration self settings srv None (clock i) st) as [r st'].
  destruct r; [apply IH|reflexivity].
Qed.

(** X9.  The callback is only given new snapshots: when the fetch of
    an iteration fails or returns a snapshot already stored, the
    iteration is the one of a loop without callback. *)
Theorem callback_only_on_new
    (self : HttpFetcher.t) (settings : Settings) (srv : server)
    (cb : callback) (now : Z) (st : PollState) :
  (forall fr, fst (fetch self settings srv now (world st)) = Ok fr ->
              fr_is_new fr = false) ->
  poll_iteration self settings srv (Some cb) now st
  = poll_iteration self settings srv None now st.
Proof.
  intros H. unfold poll_iteration, poll_once.
  destruct (fetch self settings srv now (world st)) as [r w'].
  destruct r as [fr|e]; [|reflexivity].
  simpl in H. rewrite (H fr eq_refl). reflexivity.
Qed.

Lemma callback_only_on_new_witness :
  let st := {| running := true; last_report_time := None;
               world := snd (fetch fetcher0 settings0 server_ok 1000 world0);
               slept := [] |} in
  poll_iteration fetcher0 settings0 server_ok (Some failing_callback) 2000 st
  = poll_iteration fetcher0 settings0 server_ok None 2000 st.
Proof.
  intros st. apply callback_only_on_new.
  intros fr H. vm_compute in H. injection H as <-. reflexivity.
Defined.

(** X10.  The callback of the poll loop is never called, and so what
    it would raise never reaches the loop: [fetch] returns nothing
    with [is_new = True], and a loop with a callback runs as the loop
    without one, whatever the provider answers and however long it
    runs.  With a provider serving a payload that is not stored and a
    callback that can only raise, five iterations end normally: the
    first stores the snapshot and fails on its id, the others find it
    stored. *)
Theorem callback_never_called
    (self : HttpFetcher.t) (settings : Settings) (srv : server)
    (cb : callback) (clock : nat -> Z) (fuel i : nat) (st : PollState) :
  poll_iteration self settings srv (Some cb) (clock i) st
  = poll_iteration self settings srv None (clock i) st
  /\ poll_loop self settings srv (Some cb) clock fuel i st
     = poll_loop self settings srv None clock fuel i st
  /\ start_polling self settings srv (Some cb) clock fuel st
     = start_polling self settings srv None clock fuel st
  /\ fst (start_polling fetcher0 settings0 server_ok (Some failing_callback)
                        (fun _ => 1000) 5 poll_state0) = Ok tt
  /\ List.length
       (reports (world (snd (start_polling fetcher0 settings0 server_ok
                               (Some failing_callback) (fun _ => 1000) 5
                               poll_state0)))) = 1%nat
  /\ List.length
       (http_log (world (snd (start_polling fetcher0 settings0 server_ok
                                (Some failing_callback) (fun _ => 1000) 5
                                poll_state0)))) = 5%nat.
Proof.
  split; [apply poll_iteration_no_callback|].
  split; [apply poll_loop_no_callback|].
  split; [apply poll_loop_no_callback|].
  repeat split; vm_compute; reflexivity.
Qed.

(** X26.  The poller cannot be stopped from its callback, nor before
    it starts.  A callback that stops the poller is not reached:
    however long the loop runs, every iteration ends normally and is
    followed by one sleep of the poll interval, and the loop is still
    running.  A stop requested before [start_polling] is lost, since
    starting sets the flag again.  With a provider serving a payload
    that is not stored, five iterations send five requests and store
    one snapshot. *)
Theorem stop_in_callback_never_happens
    (self : HttpFetcher.t) (settings : Settings) (srv : server)
    (clock : nat -> Z) (fuel : nat) (st : PollState) :
  let out := start_polling self settings srv (Some stopping_callback)
                           clock fuel st in
  let out5 := start_polling fetcher0 settings0 server_ok
                            (Some stopping_callback) (fun _ => 1000) 5
                            poll_state0 in
  (forall fr s, running (snd (stopping_callback fr s)) = false)
  /\ fst out = Ok tt
  /\ slept (snd out) = (slept st ++ repeat SleepPollInterval fuel)%list
  /\ running (snd out) = true
  /\ (forall cb,
        start_polling self settings srv cb clock fuel (stop_polling st)
        = start_polling self settings srv cb clock fuel st)
  /\ running (snd out5) = true
  /\ slept (snd out5) = repeat SleepPollInterval 5
  /\ List.length (http_log (world (snd out5))) = 5%nat
  /\ List.length (reports (world (snd out5))) = 1%nat.
Proof.
  intros out out5. split; [reflexivity|].
  assert (E : out = start_polling self settings srv None clock fuel st)
    by apply poll_loop_no_callback.
  rewrite E.
  destruct (poll_loop_survives self settings srv clock fuel 0
              {| running := true; last_report_time := last_report_time st;
                 world := world st; slept := slept st |} eq_refl)
    as [H1 [H2 H3]].
  split; [exact H1|]. split; [exact H2|]. split; [exact H3|].
  split; [reflexivity|].
  repeat split; vm_compute; reflexivity.
Qed.

End PollFacts.

(** ** One-shot mode *)

Module OneShotFacts.
Import Json HttpFetcher NBA BaseFetcher FetchFacts PollFacts OneShot Examples.

(** [replace] with fields in range returns the target. *)
Lemma replace_time_ok now hour minute :
  0 <= match hour with Some h => h | None => dt_hour now end <= 23 ->
  0 <= minute <= 59 ->
  replace_time now hour minute
  = Ok {| dt_day := dt_day now;
          dt_hour := match hour with Some h => h | None => dt_hour now end;
          dt_minute := minute; dt_second := 0; dt_microsecond := 0 |}.
Proof.
  intros Hh Hm. unfold replace_time, fits_c_int. cbv zeta.
  set (h := match hour with Some h => h | None => dt_hour now end) in *.
  destruct (Z.leb_spec (-2147483648) h); [|lia].
  destruct (Z.leb_spec h 2147483647); [|lia].
  destruct (Z.leb_spec (-2147483648) minute); [|lia].
  destruct (Z.leb_spec minute 2147483647); [|lia].
  destruct (Z.leb_spec 0 h); [|lia].
  destruct (Z.leb_spec h 23); [|lia].
  destruct (Z.leb_spec 0 minute); [|lia].
  destruct (Z.leb_spec minute 59); [|lia].
  reflexivity.
Qed.

(** The wait, given that [replace] returns. *)
Lemma wait_micros_ok now hour minute :
  0 <= match hour with Some h => h | None => dt_hour now end <= 23 ->
  0 <= minute <= 59 ->
  wait_micros now hour minute
  = Ok ((let target :=
           micros {| dt_day := dt_day now;
                     dt_hour := match hour with
                                | Some h => h | None => dt_hour now end;
                     dt_minute := minute; dt_second := 0;
                     dt_microsecond := 0 |} in
         if target <? micros now then target + hour_micros else target)
        - micros now).
Proof.
  intros Hh Hm. unfold wait_micros.
  rewrite (replace_time_ok now hour minute Hh Hm). reflexivity.
Qed.

(** X11.  The wait before a one-shot poll, in microseconds.  The
    target is the given minute of the given hour of today, or of the
    current hour with no hour given, and the wait is the time until
    it, or until one hour after it when it is past.  With no hour
    given the call so waits for the next time the clock shows the
    given minute: less than an hour, until later in the same hour when
    the minute is still ahead, into the next hour when it is behind,
    and not at all exactly at that minute's first instant.  With an
    hour given it waits until that time today when it is still ahead,
    in a later hour or later in the current one; a target that is past
    is moved on by one hour only, so when the given hour is more than
    an hour behind the clock the wait is negative, there is no sleep
    and polling starts at once.  An hour that is no hour of the day
    makes the call raise before any wait or poll. *)
Theorem one_shot_wait
    (settings : Settings) (srv : server) (clock : nat -> Z) (fuel : nat)
    (w : World) (now : datetime) (minute : Z) :
  valid now ->
  0 <= minute <= 59 ->
  let target h :=
    micros {| dt_day := dt_day now; dt_hour := h; dt_minute := minute;
              dt_second := 0; dt_microsecond := 0 |} in
  let polls :=
    poll_until_new (NBA.init settings None None None) settings srv clock
                   fuel 0 w 0 in
  (exists wait,
     wait_micros now None minute = Ok wait
     /\ wait = (if target (dt_hour now) <? micros now
                then target (dt_hour now) + hour_micros
                else target (dt_hour now)) - micros now
     /\ 0 <= wait < hour_micros
     /\ (wait = 0 <-> dt_minute now = minute /\ dt_second now = 0
                      /\ dt_microsecond now = 0)
     /\ (dt_minute now < minute ->
         wait = ((minute - dt_minute now) * 60 - dt_second now) * 1000000
                - dt_microsecond now)
     /\ (minute < dt_minute now ->
         wait = ((60 + minute - dt_minute now) * 60 - dt_second now) * 1000000
                - dt_microsecond now)
     /\ poll_for_new_report settings srv now clock None minute fuel w
        = Ok (if 0 <? wait then Some wait else None, polls))
  /\ (forall h, 0 <= h <= 23 ->
        exists wait,
          wait_micros now (Some h) minute = Ok wait
          /\ wait = (if target h <? micros now
                     then target h + hour_micros
                     else target h) - micros now
          /\ (dt_hour now < h \/ (dt_hour now = h /\ dt_minute now < minute) ->
              wait = (((h - dt_hour now) * 60 + minute - dt_minute now) * 60
                      - dt_second now) * 1000000 - dt_microsecond now
              /\ 0 < wait
              /\ poll_for_new_report settings srv now clock (Some h) minute
                                     fuel w
                 = Ok (Some wait, polls))
          /\ (h + 1 < dt_hour now ->
              wait < 0
              /\ poll_for_new_report settings srv now clock (Some h) minute
                                     fuel w
                 = Ok (None, polls))
          /\ poll_for_new_report settings srv now clock (Some h) minute
                                 fuel w
             = Ok (if 0 <? wait then Some wait else None, polls))
  /\ (forall h, h < 0 \/ 23 < h ->
        poll_for_new_report settings srv now clock (Some h) minute fuel w
        = Raise (if fits_c_int h then ValueError "hour must be in 0..23"
                 else OverflowError h)).
Proof.
  intros [Hh [Hm [Hs Hu]]] Hmin target polls.
  split; [|split]; [| |intros h Hout;
    unfold poll_for_new_report, wait_micros, replace_time; cbv zeta;
    destruct (fits_c_int h); [|reflexivity]; cbn [negb];
    replace (fits_c_int minute) with true
      by (symmetry; unfold fits_c_int; apply andb_true_iff;
          split; apply Z.leb_le; lia);
    cbn [negb];
    replace ((0 <=? h) && (h <=? 23)) with false
      by (symmetry; apply andb_false_iff;
          destruct Hout; [left; apply Z.leb_gt; lia
                         |right; apply Z.leb_gt; lia]);
    reflexivity].
  - eexists. split; [apply (wait_micros_ok now None minute Hh Hmin)|].
    cbv zeta. fold (target (dt_hour now)).
    split; [reflexivity|].
    assert (Hp : poll_for_new_report settings srv now clock None minute fuel w
                 = Ok (if 0 <? (if target (dt_hour now) <? micros now
                                then target (dt_hour now) + hour_micros
                                else target (dt_hour now)) - micros now
                       then Some ((if target (dt_hour now) <? micros now
                                   then target (dt_hour now) + hour_micros
                                   else target (dt_hour now)) - micros now)
                       else None, polls)).
    { unfold poll_for_new_report.
      rewrite (wait_micros_ok now None minute Hh Hmin). reflexivity. }
    unfold target, micros, hour_micros in *. cbn [dt_day dt_hour dt_minute
      dt_second dt_microsecond] in *.
    destruct (Z.ltb_spec
                ((((dt_day now * 24 + dt_hour now) * 60 + minute) * 60 + 0)
                 * 1000000 + 0)
                ((((dt_day now * 24 + dt_hour now) * 60 + dt_minute now) * 60
                  + dt_second now) * 1000000 + dt_microsecond now));
      (split; [lia|]); (split; [split; [intros Hw|intros [? [? ?]]]; lia|]);
      (split; [intros; lia|]); (split; [intros; lia|exact Hp]).
  - intros h Hrange.
    eexists. split; [apply (wait_micros_ok now (Some h) minute Hrange Hmin)|].
    cbv zeta. fold (target h). split; [reflexivity|].
    assert (Hp : poll_for_new_report settings srv now clock (Some h) minute
                                     fuel w
                 = Ok (if 0 <? (if target h <? micros now
                                then target h + hour_micros
                                else target h) - micros now
                       then Some ((if target h <? micros now
                                   then target h + hour_micros
                                   else target h) - micros now)
                       else None, polls)).
    { unfold poll_for_new_report.
      rewrite (wait_micros_ok now (Some h) minute Hrange Hmin). reflexivity. }
    split; [|split; [|exact Hp]].
    + intros Hlt. rewrite Hp.
      unfold target, micros, hour_micros in *. cbn [dt_day dt_hour dt_minute
        dt_second dt_microsecond] in *.
      destruct (Z.ltb_spec
                  ((((dt_day now * 24 + h) * 60 + minute) * 60 + 0)
                   * 1000000 + 0)
                  ((((dt_day now * 24 + dt_hour now) * 60 + dt_minute now) * 60
                    + dt_second now) * 1000000 + dt_microsecond now));
        [lia|].
      split; [lia|]. split; [lia|].
      match goal with
      | |- context [0 <? ?x] => destruct (Z.ltb_spec 0 x); [reflexivity|lia]
      end.
    + intros Hlt. rewrite Hp.
      unfold target, micros, hour_micros in *. cbn [dt_day dt_hour dt_minute
        dt_second dt_microsecond] in *.
      destruct (Z.ltb_spec
                  ((((dt_day now * 24 + h) * 60 + minute) * 60 + 0)
                   * 1000000 + 0)
                  ((((dt_day now * 24 + dt_hour now) * 60 + dt_minute now) * 60
                    + dt_second now) * 1000000 + dt_microsecond now));
        [|lia].
      split; [lia|].
      match goal with
      | |- context [0 <? ?x] => destruct (Z.ltb_spec 0 x); [lia|reflexivity]
      end.
Qed.

Lemma one_shot_wait_witness :
  wait_micros afternoon None 30 = Ok 2690000000
  /\ wait_micros afternoon None 50 = Ok 290000000
  /\ wait_micros afternoon (Some 16) 30 = Ok 6290000000
  /\ (exists wait, wait_micros afternoon (Some 9) 30 = Ok wait /\ wait < 0)
  /\ fst (match poll_for_new_report settings0 server_ok afternoon
                                    (fun _ => 0) (Some 9) 30 0 world0 with
          | Ok x => x
          | Raise _ => (Some 0, (None, world0, 0%nat))
          end) = None
  /\ poll_for_new_report settings0 server_ok afternoon (fun _ => 0)
                         (Some 24) 30 0 world0
     = Raise (ValueError "hour must be in 0..23")
  /\ poll_for_new_report settings0 server_ok afternoon (fun _ => 0)
                         (Some 2147483648) 30 0 world0
     = Raise (OtherError "OverflowError"
                         "signed integer is greater than maximum").
Proof.
  assert (Hv : valid afternoon) by (vm_compute; intuition discriminate).
  destruct (one_shot_wait settings0 server_ok (fun _ => 0) 0 world0
              afternoon 30 Hv ltac:(lia))
    as [[w1 [E1 [_ [_ [_ [_ [B1 _]]]]]]] [H2 H3]].
  destruct (one_shot_wait settings0 server_ok (fun _ => 0) 0 world0
              afternoon 50 Hv ltac:(lia)) as [[w2 [E2 [_ [_ [_ [A2 _]]]]]] _].
  destruct (H2 16 ltac:(lia)) as [w3 [E3 [_ [A3 _]]]].
  destruct (H2 9 ltac:(lia)) as [w4 [E4 [_ [_ [B4 _]]]]].
  split; [rewrite E1; f_equal; apply B1; vm_compute; reflexivity|].
  split; [rewrite E2; f_equal; apply A2; vm_compute; reflexivity|].
  split; [rewrite E3; f_equal; apply A3; left; vm_compute; reflexivity|].
  destruct B4 as [N4 P4]; [vm_compute; reflexivity|].
  split; [exists w4; split; [exact E4|exact N4]|].
  split; [rewrite P4; reflexivity|].
  split; [exact (H3 24 ltac:(lia))|exact (H3 2147483648 ltac:(lia))].
Defined.

(** X12.  The one-shot loop never returns a result: no poll yields
    [is_new = True], whatever the provider answers, so every poll is
    followed by one sleep of the poll interval and a loop that has
    made [fuel] polls has slept [fuel] times and is still polling.
    With a provider serving a payload that is not stored, the first of
    five polls stores the snapshot and the loop goes on sleeping. *)
Theorem one_shot_never_returns
    (self : HttpFetcher.t) (settings : Settings) (srv : server)
    (clock : nat -> Z) (fuel : nat) (i : nat) (w : World) (sleeps : nat) :
  fst (fst (poll_until_new self settings srv clock fuel i w sleeps)) = None
  /\ snd (poll_until_new self settings srv clock fuel i w sleeps)
     = (sleeps + fuel)%nat
  /\ poll_until_new fetcher0 settings0 server_ok (fun _ => 1000) 5 0
                    world0 0
     = (None,
        snd (fetch fetcher0 settings0 server_ok 1000
               (snd (fetch fetcher0 settings0 server_ok 1000
                  (snd (fetch fetcher0 settings0 server_ok 1000
                     (snd (fetch fetcher0 settings0 server_ok 1000
                        (snd (fetch fetcher0 settings0 server_ok 1000
                                    world0))))))))),
        5%nat)
  /\ List.length
       (reports (snd (fst (poll_until_new fetcher0 settings0 server_ok
                             (fun _ => 1000) 5 0 world0 0)))) = 1%nat.
Proof.
  assert (G : forall fuel i w sleeps,
            fst (fst (poll_until_new self settings srv clock fuel i w sleeps))
            = None
            /\ snd (poll_until_new self settings srv clock fuel i w sleeps)
               = (sleeps + fuel)%nat).
  { clear. induction fuel as [|fuel IH]; intros i w sleeps;
      cbn [poll_until_new]; [split; [reflexivity|cbn [snd]; lia]|].
    pose proof (fetch_not_new self settings srv (clock i) w) as N.
    destruct (fetch self settings srv (clock i) w) as [r w'].
    cbn [fst] in N. destruct r as [fr|e].
    - rewrite (N fr eq_refl).
      destruct (IH (S i) w' (S sleeps)) as [I1 I2].
      split; [exact I1|]. rewrite I2. lia.
    - destruct (IH (S i) w' (S sleeps)) as [I1 I2].
      split; [exact I1|]. rewrite I2. lia. }
  destruct (G fuel i w sleeps) as [G1 G2].
  split; [exact G1|]. split; [exact G2|].
  split; vm_compute; reflexivity.
Qed.

(** A fetch of content that is already stored. *)
Lemma fetch_known
    (self : HttpFetcher.t) (settings : Settings) (srv : server)
    (now : Z) (w : World) (resp : Response) (data : json) (h u : string) :
  resolve_url self (injury_report_endpoint settings) = Ok u ->
  (forall i rq, srv i rq = Responded resp) ->
  resp_status_code resp < 400 ->
  resp_json resp = Ok data ->
  generate_hash data = Ok h ->
  find_by_hash (reports w) h <> None ->
  fst (fetch self settings srv now w)
  = Ok {| fr_data := data; fr_hash := h; fr_is_new := false;
          fr_report_id := None |}
  /\ reports (snd (fetch self settings srv now w)) = reports w.
Proof.
  intros Hr Hsrv Hc Hj Hh Hf. rewrite fetch_unfold.
  rewrite (RetryFacts.make_request_success self srv "GET" _ u None None None
             None 0 (http_log w) resp Hr (Hsrv _ _) Hc).
  cbv zeta. unfold fetch_body. cbn [fst snd]. rewrite Hj, Hh.
  destruct (find_by_hash (reports w) h); [|congruence]. cbn [fst snd reports].
  auto.
Qed.

(** X13.  One-shot mode does not return while the provider serves
    content that is already stored: every poll finds nothing new,
    stores nothing and is followed by one sleep. *)
Theorem one_shot_waits_for_new_content
    (self : HttpFetcher.t) (settings : Settings) (srv : server)
    (clock : nat -> Z) (resp : Response) (data : json) (h u : string)
    (fuel i : nat) (w : World) (sleeps : nat) :
  resolve_url self (injury_report_endpoint settings) = Ok u ->
  (forall i rq, srv i rq = Responded resp) ->
  resp_status_code resp < 400 ->
  resp_json resp = Ok data ->
  generate_hash data = Ok h ->
  find_by_hash (reports w) h <> None ->
  let out := poll_until_new self settings srv clock fuel i w sleeps in
  fst (fst out) = None
  /\ reports (snd (fst out)) = reports w
  /\ snd out = (sleeps + fuel)%nat.
Proof.
  intros Hr Hsrv Hc Hj Hh. revert i w sleeps.
  induction fuel as [|fuel IH]; intros i w sleeps Hf; simpl.
  - repeat split. lia.
  - destruct (fetch_known self settings srv (clock i) w resp data h u
                Hr Hsrv Hc Hj Hh Hf) as [E1 E2].
    destruct (fetch self settings srv (clock i) w) as [r w'].
    simpl in E1, E2. subst r. simpl.
    destruct (IH (S i) w' (S sleeps)) as [I1 [I2 I3]];
      [now rewrite E2|].
    split; [exact I1|]. split; [congruence|]. rewrite I3. lia.
Qed.

Lemma one_shot_waits_for_new_content_witness :
  let w1 := snd (fetch fetcher0 settings0 server_ok 1000 world0) in
  let out := poll_until_new fetcher0 settings0 server_ok (fun _ => 2000)
                            7 0 w1 0 in
  fst (fst out) = None
  /\ reports (snd (fst out)) = reports w1
  /\ snd out = 7%nat.
Proof.
  intros w1.
  apply (one_shot_waits_for_new_content fetcher0 settings0 server_ok
           (fun _ => 2000) (response_with 200 None (Ok payload_ab))
           payload_ab
           "aeb9a0aeb3493ca5ed8ef1e497638f56d23d80a4821492fe03be8450b19e7159"
           "https://stats.nba.com/stats/injuryreport" 7 0 w1 0).
  - reflexivity.
  - reflexivity.
  - vm_compute. reflexivity.
  - reflexivity.
  - vm_compute. reflexivity.
  - vm_compute. discriminate.
Defined.

End OneShotFacts.

(** ** processor/injury.py: storing the changes and announcing them *)

Module StoreFacts.
Import Py Models Processor Channels Service Examples.

Lemma next_change_id_fresh rows r :
  In r rows -> sc_id r < next_change_id rows.
Proof.
  unfold next_change_id.
  induction rows as [|a rows IH]; cbn [fold_right In]; [contradiction|].
  intros [->|H]; [lia|]. specialize (IH H). lia.
Qed.

Lemma player_of_In db p : In p (players db) -> player_of db (pl_id p) <> None.
Proof.
  unfold player_of. intros Hin E.
  pose proof (find_none _ _ E p Hin) as F. simpl in F.
  now rewrite Z.eqb_refl in F.
Qed.

Lemma get_or_create_player_cases rows c p rows' :
  get_or_create_player rows c = Ok (p, rows') ->
  In p rows' /\ pl_nba_id p = Some (c_player_id c)
  /\ (rows' = rows \/ rows' = (rows ++ [p])%list).
Proof.
  unfold get_or_create_player.
  destruct (find _ rows) as [q|] eqn:E.
  - intros [= <- <-]. apply find_some in E. destruct E as [Hin Hq].
    split; [exact Hin|]. split; [|now left].
    destruct (pl_nba_id q) as [z|]; simpl in Hq; [|discriminate].
    apply Z.eqb_eq in Hq. now subst.
  - destruct (c_player_name c), (c_team c); try discriminate.
    intros [= <- <-]. split; [apply in_elt|]. split; [reflexivity|now right].
Qed.

Lemma store_rows chs rid now :
  forall db stored_changes db',
    store_status_changes chs rid now db = Ok (stored_changes, db') ->
    exists new_rows new_players,
      status_changes db' = (status_changes db ++ new_rows)%list
      /\ players db' = (players db ++ new_players)%list
      /\ users db' = users db
      /\ notification_settings db' = notification_settings db
      /\ map sc_id new_rows = map stored_id stored_changes
      /\ map sc_player_id new_rows = map stored_player_db_id stored_changes
      /\ map (fun r => (sc_old_status r, Some (sc_new_status r))) new_rows
         = map (fun c => (c_old_status c, c_new_status c)) chs
      /\ Forall (More.fresh_in rid now db db') new_rows
      /\ StronglySorted Z.lt (map sc_id new_rows).
Proof.
  induction chs as [|c rest IH]; simpl; intros db l db' H.
  - injection H as <- <-. exists [], []. rewrite !app_nil_r.
    repeat split; constructor.
  - destruct (get_or_create_player (players db) c) as [[p rows']|e] eqn:G;
      [|discriminate H].
    simpl in H.
    destruct (c_new_status c) as [ns|] eqn:Ens; [|discriminate H].
    destruct rid as [r|]; [|discriminate H].
    destruct (store_status_changes rest (Some r) now _) as [[l' db'']|e] eqn:E;
      [|discriminate H].
    simpl in H. injection H as <- <-.
    destruct (IH _ _ _ E)
      as [rows1 [pls1 [H1 [H2 [H3 [H4 [H5 [H6 [H7 [H8 H9]]]]]]]]]].
    simpl in H1, H2, H3, H4.
    destruct (get_or_create_player_cases _ _ _ _ G) as [Hin [_ Hrows]].
    set (row := {| sc_id := next_change_id (status_changes db);
                   sc_player_id := pl_id p;
                   sc_old_status := c_old_status c;
                   sc_new_status := ns;
                   sc_change_date := now;
                   sc_report_id := r;
                   sc_notification_sent := false;
                   sc_notification_date := None |}) in *.
    assert (Hex : exists extra, rows' = (players db ++ extra)%list).
    { destruct Hrows as [->| ->]; [exists []; now rewrite app_nil_r|eauto]. }
    destruct Hex as [extra Hex].
    exists (row :: rows1), (extra ++ pls1)%list.
    split; [rewrite H1, <- app_assoc; reflexivity|].
    split; [rewrite H2, Hex, <- app_assoc; reflexivity|].
    split; [exact H3|]. split; [exact H4|].
    split; [simpl; now rewrite H5|].
    split; [simpl; now rewrite H6|].
    split; [simpl; now rewrite H7|].
    split.
    { constructor.
      - repeat split.
        + apply player_of_In. rewrite H2. apply in_or_app. now left.
        + intros old Ho. now apply next_change_id_fresh.
      - rewrite Forall_forall in H8 |- *. intros x Hx.
        destruct (H8 x Hx) as [A1 [A2 [A3 [A4 [A5 A6]]]]].
        repeat split; auto.
        intros old Ho. apply A6. simpl. apply in_or_app. now left. }
    simpl. constructor; [exact H9|].
    rewrite Forall_forall. intros i Hi. apply in_map_iff in Hi.
    destruct Hi as [x [<- Hx]].
    rewrite Forall_forall in H8. destruct (H8 x Hx) as [_ [_ [_ [_ [_ A6]]]]].
    apply (A6 row). simpl. apply in_elt.
Qed.

Lemma flat_map_nil {A B} (f : A -> list B) l :
  (forall x, In x l -> f x = []) -> flat_map f l = [].
Proof.
  induction l as [|a l IH]; simpl; intros H; [reflexivity|].
  rewrite (H a (or_introl eq_refl)), IH; [reflexivity|].
  intros x Hx. apply H. now right.
Qed.

Lemma flat_map_singletons {A B} (f : A -> B) l :
  flat_map (fun x => [f x]) l = map f l.
Proof. induction l as [|a l IH]; simpl; [reflexivity|now rewrite IH]. Qed.

Lemma status_eqb_refl s : status_eqb s s = true.
Proof. destruct s as [s|]; simpl; [apply String.eqb_refl|reflexivity]. Qed.

Lemma set_fresh {V} (d : list (Z * V)) k v :
  ~ In k (Dict.keys d) -> Dict.set Z.eqb d k v = (d ++ [(k, v)])%list.
Proof.
  unfold Dict.keys. induction d as [|[k0 v0] r IH]; simpl; intros H.
  - reflexivity.
  - destruct (Z.eqb_spec k k0) as [->|Hne]; [exfalso; apply H; now left|].
    rewrite IH; [reflexivity|]. intros Hin. apply H. now right.
Qed.

(** A dict comprehension over items with distinct keys lists them in
    order. *)
Lemma of_items_distinct {V} (key : V -> Z) (l : list V) :
  NoDup (map key l) ->
  Dict.of_items Z.eqb key l = map (fun x => (key x, x)) l.
Proof.
  unfold Dict.of_items.
  assert (G : forall d,
             NoDup (map key l) ->
             (forall x, In x l -> ~ In (key x) (Dict.keys d)) ->
             fold_left (fun d x => Dict.set Z.eqb d (key x) x) l d
             = (d ++ map (fun x => (key x, x)) l)%list).
  { induction l as [|a l IH]; simpl; intros d Hnd Hd.
    - now rewrite app_nil_r.
    - inversion Hnd as [|? ? Ha Hl]; subst.
      rewrite set_fresh by (apply Hd; now left).
      rewrite IH; [now rewrite <- app_assoc|exact Hl|].
      intros x Hx Hin. unfold Dict.keys in Hin. rewrite map_app in Hin.
      apply in_app_or in Hin. destruct Hin as [Hin|[E|[]]].
      + apply (Hd x); [now right|exact Hin].
      + simpl in E. apply Ha. rewrite E. now apply in_map. }
  intros Hnd. apply (G [] Hnd). intros x _ [].
Qed.

(** X14.  Storing changes only appends.  When [_store_status_changes]
    returns, the table of changes is the old one followed by one row
    per change, in order: each row carries the statuses of its change,
    the report id and the time of the call, is not delivered, has its
    player row, and has a primary key above every older one, the new
    keys ascending; these keys and player keys are the ones returned.
    Players are only added, users and settings are untouched. *)
Theorem store_status_changes_appends
    (chs : list Change) (rid : option Z) (now : Z) (db db' : Database)
    (stored_changes : list StoredChange) :
  store_status_changes chs rid now db = Ok (stored_changes, db') ->
  exists new_rows,
    status_changes db' = (status_changes db ++ new_rows)%list
    /\ List.length new_rows = List.length chs
    /\ map sc_id new_rows = map stored_id stored_changes
    /\ map sc_player_id new_rows = map stored_player_db_id stored_changes
    /\ map (fun r => (sc_old_status r, Some (sc_new_status r))) new_rows
       = map (fun c => (c_old_status c, c_new_status c)) chs
    /\ Forall (More.fresh_in rid now db db') new_rows
    /\ StronglySorted Z.lt (map sc_id new_rows)
    /\ users db' = users db
    /\ notification_settings db' = notification_settings db
    /\ exists new_players, players db' = (players db ++ new_players)%list.
Proof.
  intros H.
  destruct (store_rows _ _ _ _ _ _ H)
    as [rows [pls [H1 [H2 [H3 [H4 [H5 [H6 [H7 [H8 H9]]]]]]]]]].
  exists rows. split; [exact H1|]. split.
  { apply (f_equal (@List.length _)) in H7.
    now rewrite !length_map in H7. }
  repeat (split; [assumption|]). eauto.
Qed.

Lemma store_status_changes_appends_witness :
  exists new_rows,
    status_changes (snd stored_example)
    = ([change10; change11] ++ new_rows)%list
    /\ List.length new_rows = 2%nat
    /\ map sc_id new_rows = map stored_id (fst stored_example)
    /\ Forall (More.fresh_in (Some 8) 600 db_player_only (snd stored_example))
              new_rows.
Proof.
  assert (E : store_status_changes (compute_changes snapshot2 snapshot1)
                (Some 8) 600 db_player_only
              = Ok (fst stored_example, snd stored_example))
    by (vm_compute; reflexivity).
  destruct (store_status_changes_appends _ _ _ _ _ _ E)
    as [rows [H1 [H2 [H3 [_ [_ [H6 _]]]]]]].
  exists rows. repeat split; assumption.
Defined.

(** X15.  From the diff to the delivery.  The changes [compute_diff]
    returns can be handed to [process_status_changes] on the database
    it leaves: every stored row has its player row, so the call
    returns when the quiet-hours check does for every active user; it
    then leaves the rows just stored, and only them, with
    [notification_sent = True] and the time of the call as
    [notification_date], their other columns as they were. *)
Theorem diff_then_notify
    (svc : Service.t) (now_time : time) (now now' : Z)
    (cur prev : list PlayerStatus) (cr pr : option Z)
    (db db' : Database) (r : DiffResult) :
  compute_diff cur cr prev pr now db = (Ok r, db') ->
  (forall u, In u (users db) -> u_is_active u = true ->
             exists b, is_in_quiet_hours u now_time = Ok b) ->
  let out := process_status_changes svc now_time now' (changes r) db' in
  exists new_rows,
    status_changes db' = (status_changes db ++ new_rows)%list
    /\ map sc_id new_rows = map stored_id (changes r)
    /\ (exists res, returned out = Ok res /\ pr_success res = true)
    /\ status_changes (db_after out)
       = (status_changes db
          ++ map (fun sc =>
                    {| sc_id := sc_id sc; sc_player_id := sc_player_id sc;
                       sc_old_status := sc_old_status sc;
                       sc_new_status := sc_new_status sc;
                       sc_change_date := sc_change_date sc;
                       sc_report_id := sc_report_id sc;
                       sc_notification_sent := true;
                       sc_notification_date := Some now' |})
                 new_rows)%list.
Proof.
  unfold compute_diff.
  destruct (store_status_changes (compute_changes cur prev) cr now db)
    as [[l d]|e] eqn:E; [|discriminate].
  intros [= <- <-] Hq. cbv zeta. cbn [changes].
  destruct (store_rows _ _ _ _ _ _ E)
    as [rows [pls [H1 [H2 [H3 [H4 [H5 [H6 [H7 [H8 H9]]]]]]]]]].
  rewrite Forall_forall in H8.
  assert (Hold : forall sc, In sc (status_changes db) ->
                            selected (map stored_id l) sc = false).
  { intros sc Hin. destruct (selected (map stored_id l) sc) eqn:S;
      [|reflexivity].
    apply ServiceFacts.selected_iff in S. destruct S as [Hid _].
    rewrite <- H5 in Hid. apply in_map_iff in Hid.
    destruct Hid as [x [Ex Hx]].
    destruct (H8 x Hx) as [_ [_ [_ [_ [_ F]]]]].
    specialize (F sc Hin). lia. }
  assert (Hnew : forall sc, In sc rows ->
                            selected (map stored_id l) sc = true).
  { intros sc Hin. apply ServiceFacts.selected_iff. split.
    - rewrite <- H5. now apply in_map.
    - now destruct (H8 sc Hin). }
  destruct (ServiceFacts.process_db_after svc now_time now' l d)
    as [Hret Hdb].
  { intros sc Hin S. rewrite H1 in Hin. apply in_app_or in Hin.
    destruct Hin as [Hin|Hin].
    - rewrite (Hold sc Hin) in S. discriminate.
    - now destruct (H8 sc Hin) as [_ [_ [_ [_ [P _]]]]]. }
  { intros sc p u _ _ _ Hu. unfold users_to_notify in Hu.
    apply filter_In in Hu. destruct Hu as [Hu Ha].
    apply andb_true_iff in Ha. destruct Ha as [Ha _].
    apply Hq; [now rewrite <- H3|exact Ha]. }
  exists rows. split; [exact H1|]. split; [exact H5|]. split; [exact Hret|].
  rewrite Hdb. simpl. rewrite H1, map_app. f_equal.
  - rewrite <- (map_id (status_changes db)) at 2. apply map_ext_in.
    intros sc Hin. unfold mark_selected. now rewrite (Hold sc Hin).
  - apply map_ext_in. intros sc Hin. unfold mark_selected.
    now rewrite (Hnew sc Hin).
Qed.

Lemma diff_then_notify_witness :
  let db' := snd (compute_diff snapshot2 (Some 8) snapshot1 (Some 7) 600
                               db_player_only) in
  let out := process_status_changes service_email noon 700
                                    (changes diff_example) db' in
  exists new_rows,
    status_changes db' = ([change10; change11] ++ new_rows)%list
    /\ map sc_id new_rows = map stored_id (changes diff_example)
    /\ (exists res, returned out = Ok res /\ pr_success res = true)
    /\ status_changes (db_after out)
       = ([change10; change11]
          ++ map (fun sc =>
                    {| sc_id := sc_id sc; sc_player_id := sc_player_id sc;
                       sc_old_status := sc_old_status sc;
                       sc_new_status := sc_new_status sc;
                       sc_change_date := sc_change_date sc;
                       sc_report_id := sc_report_id sc;
                       sc_notification_sent := true;
                       sc_notification_date := Some 700 |})
                 new_rows)%list.
Proof.
  intros db'.
  assert (E : compute_diff snapshot2 (Some 8) snapshot1 (Some 7) 600
                           db_player_only = (Ok diff_example, db'))
    by (vm_compute; reflexivity).
  apply (diff_then_notify service_email noon 600 700 _ _ _ _ _ _ _ E).
  intros u [<-|[]] _. exists false. reflexivity.
Defined.

(** X16.  A snapshot compared with itself gives no change, whatever it
    holds, and [compute_diff] then returns an empty result without
    writing to the database, also when the report id is missing. *)
Theorem diff_of_same_snapshot
    (statuses : list PlayerStatus) (cr pr : option Z) (now : Z)
    (db : Database) :
  compute_changes statuses statuses = []
  /\ compute_diff statuses cr statuses pr now db
     = (Ok {| changes := []; total_changes := 0;
              current_report_id := cr; previous_report_id := pr |}, db).
Proof.
  assert (E : compute_changes statuses statuses = []).
  { unfold compute_changes.
    set (d := by_player statuses).
    assert (Hd : forall kv, In kv d ->
                            Dict.get Z.eqb d (fst kv) = Some (snd kv)).
    { intros [k v] Hin. apply DictFacts.In_get_Some; [|exact Hin].
      apply DictFacts.of_items_NoDup. }
    unfold changed_loop, added_loop, removed_loop.
    rewrite !flat_map_nil; [reflexivity| | |].
    - intros kv Hin. unfold Dict.mem. now rewrite (Hd kv Hin).
    - intros kv Hin. unfold Dict.mem. now rewrite (Hd kv Hin).
    - intros kv Hin. rewrite (Hd kv Hin). now rewrite status_eqb_refl. }
  split; [exact E|]. unfold compute_diff. rewrite E. reflexivity.
Qed.

(** X17.  Against an empty previous snapshot, which is what the
    report callback of the API passes, every player of the current
    snapshot is announced as added, with no old status; and against
    an empty current snapshot every player of the previous one is
    announced as back to ["ACTIVE"]. *)
Theorem diff_against_empty_snapshot (statuses : list PlayerStatus) :
  NoDup (map player_id statuses) ->
  map summary (compute_changes statuses [])
  = map (fun s => (player_id s, None, status s)) statuses
  /\ map summary (compute_changes [] statuses)
     = map (fun s => (player_id s, status s, Some "ACTIVE")) statuses.
Proof.
  intros Hnd. unfold compute_changes, by_player.
  rewrite (of_items_distinct player_id statuses Hnd).
  unfold changed_loop, added_loop, removed_loop. cbn [Dict.of_items fold_left].
  cbn [flat_map Dict.get Dict.mem app].
  rewrite (flat_map_nil (fun kv : Z * PlayerStatus => @nil Change))
    by reflexivity.
  rewrite !flat_map_singletons, !app_nil_r. simpl.
  split; rewrite !map_map; reflexivity.
Qed.

Lemma diff_against_empty_snapshot_witness :
  map summary (compute_changes snapshot2 [])
  = [(1, None, Some "QUESTIONABLE"); (2, None, Some "OUT")]
  /\ map summary (compute_changes [] snapshot2)
     = [(1, Some "QUESTIONABLE", Some "ACTIVE"); (2, Some "OUT", Some "ACTIVE")].
Proof.
  apply (diff_against_empty_snapshot snapshot2).
  vm_compute. repeat constructor; simpl; intuition discriminate.
Defined.

Lemma mem_pairs {V} (key : V -> Z) (l : list V) k :
  Dict.mem Z.eqb (map (fun x => (key x, x)) l) k
  = existsb (Z.eqb k) (map key l).
Proof.
  unfold Dict.mem. induction l as [|a l IH]; simpl; [reflexivity|].
  destruct (k =? key a); [reflexivity|exact IH].
Qed.

Lemma flat_map_filter {A B} (b : A -> bool) (f : A -> B) l :
  flat_map (fun x => if b x then [] else [f x]) l
  = map f (filter (fun x => negb (b x)) l).
Proof.
  induction l as [|a l IH]; simpl; [reflexivity|].
  destruct (b a); simpl; now rewrite IH.
Qed.

(** X27.  The diff and the helpers of its base class agree.  For
    snapshots with one record per player, the records [compute_diff]
    appends for new players are those of the items
    [DiffProcessor.get_added_items] returns, keyed by player id, in the
    same order, and the records for players that left are those of
    [get_removed_items]. *)
Theorem diff_loops_agree_with_helpers
    (current_statuses previous_statuses : list PlayerStatus) :
  NoDup (map player_id current_statuses) ->
  NoDup (map player_id previous_statuses) ->
  added_loop (by_player current_statuses) (by_player previous_statuses)
  = map (fun s => added_record (player_id s) s)
        (DiffProcessor.get_added_items Z.eqb current_statuses
           previous_statuses player_id)
  /\ removed_loop (by_player current_statuses) (by_player previous_statuses)
     = map (fun s => removed_record (player_id s) s)
           (DiffProcessor.get_removed_items Z.eqb current_statuses
              previous_statuses player_id).
Proof.
  intros Hc Hp. unfold by_player.
  rewrite (of_items_distinct player_id _ Hc),
          (of_items_distinct player_id _ Hp).
  unfold added_loop, removed_loop, DiffProcessor.get_added_items,
    DiffProcessor.get_removed_items.
  rewrite !flat_map_concat_map, !map_map, <- !flat_map_concat_map.
  cbn [fst snd]. split.
  - rewrite <- flat_map_filter. apply flat_map_ext. intros s.
    now rewrite mem_pairs.
  - rewrite <- flat_map_filter. apply flat_map_ext. intros s.
    now rewrite mem_pairs.
Qed.

Lemma diff_loops_agree_with_helpers_witness :
  added_loop (by_player snapshot2) (by_player snapshot1)
  = map (fun s => added_record (player_id s) s)
        (DiffProcessor.get_added_items Z.eqb snapshot2 snapshot1 player_id)
  /\ removed_loop (by_player snapshot2) (by_player snapshot1)
     = map (fun s => removed_record (player_id s) s)
           (DiffProcessor.get_removed_items Z.eqb snapshot2 snapshot1
              player_id).
Proof.
  apply (diff_loops_agree_with_helpers snapshot2 snapshot1).
  - vm_compute. repeat constructor; simpl; intuition discriminate.
  - vm_compute. repeat constructor; simpl; intuition discriminate.
Defined.

End StoreFacts.

(** ** notifier/service.py: what is dispatched, to whom, and what is
    counted *)

Module DeliveryFacts.
Import Py Models Processor Channels Service Delivery Examples.

Lemma notifications_for_in svc db u sc p n :
  In n (notifications_for svc db u sc p) ->
  user_id n = u_id u /\ change_id n = sc_id sc
  /\ ((channel n = "email" /\ configured (email_notifier svc) = true)
      \/ (channel n = "push" /\ configured (push_notifier svc) = true)
      \/ (channel n = "websocket"
          /\ configured (websocket_notifier svc) = true)).
Proof.
  unfold notifications_for.
  destruct (effective_channels db u sc p) as [[e pu] w].
  intros H. apply in_app_or in H.
  destruct H as [H|H]; [|apply in_app_or in H; destruct H as [H|H]].
  - destruct e, (configured (email_notifier svc)); simpl in H;
      try contradiction.
    destruct H as [<-|[]]. simpl. auto.
  - destruct pu, (configured (push_notifier svc)); simpl in H;
      try contradiction.
    destruct H as [<-|[]]. simpl. split; [|split]; auto.
  - destruct w, (configured (websocket_notifier svc)); simpl in H;
      try contradiction.
    destruct H as [<-|[]]. simpl. split; [|split]; auto.
Qed.

Lemma notify_users_inv svc db now change player us ns n :
  notify_users svc db now change player us = Ok ns -> In n ns ->
  exists u, In u us /\ is_in_quiet_hours u now = Ok false
            /\ In n (notifications_for svc db u change player).
Proof.
  revert ns. induction us as [|u0 us IH]; simpl; intros ns H Hn.
  - injection H as <-. contradiction.
  - destruct (is_in_quiet_hours u0 now) as [quiet|e] eqn:Eq; simpl in H;
      [|discriminate H].
    destruct (notify_users svc db now change player us) as [more|e];
      [|discriminate H].
    simpl in H. injection H as <-. apply in_app_or in Hn.
    destruct Hn as [Hn|Hn].
    + destruct quiet; [contradiction|]. exists u0. auto.
    + destruct (IH more eq_refl Hn) as [u [Hu Hq]]. exists u. auto.
Qed.

Lemma collect_inv svc db now rows ns n :
  collect svc db now rows = Ok ns -> In n ns ->
  exists sc p u,
    In sc rows /\ player_of db (sc_player_id sc) = Some p
    /\ In u (users_to_notify db sc p)
    /\ is_in_quiet_hours u now = Ok false
    /\ In n (notifications_for svc db u sc p).
Proof.
  revert ns. induction rows as [|sc rows IH]; simpl; intros ns H Hn.
  - injection H as <-. contradiction.
  - destruct (player_of db (sc_player_id sc)) as [p|] eqn:Ep;
      [|discriminate H].
    destruct (notify_users svc db now sc p (users_to_notify db sc p))
      as [l|e] eqn:El; simpl in H; [|discriminate H].
    destruct (collect svc db now rows) as [more|e]; [|discriminate H].
    simpl in H. injection H as <-. apply in_app_or in Hn.
    destruct Hn as [Hn|Hn].
    + destruct (notify_users_inv _ _ _ _ _ _ _ _ El Hn) as [u [Hu [Hq Hin]]].
      exists sc, p, u. auto 6.
    + destruct (IH more eq_refl Hn) as [sc' [p' [u [H1 H2]]]].
      exists sc', p', u. auto.
Qed.

Lemma send_channel_snd tag n ns acc :
  snd (send_channel tag n ns acc) = (snd acc ++ batch_of tag n ns)%list.
Proof.
  unfold send_channel, batch_of.
  destruct (filter _ ns) as [|x g]; [now rewrite app_nil_r|].
  destruct n as [f|]; [reflexivity|now rewrite app_nil_r].
Qed.

Lemma send_notifications_batches svc ns :
  snd (send_notifications svc ns)
  = (batch_of "email" (email_notifier svc) ns
     ++ batch_of "push" (push_notifier svc) ns
     ++ batch_of "websocket" (websocket_notifier svc) ns)%list.
Proof.
  unfold send_notifications. rewrite !send_channel_snd. simpl.
  now rewrite app_assoc.
Qed.

Lemma in_batch_of tag n ns t g :
  In (t, g) (batch_of tag n ns) ->
  t = tag /\ g = filter (fun x => (channel x =? tag)%string) ns
  /\ g <> [] /\ configured n = true.
Proof.
  unfold batch_of.
  destruct (filter _ ns) as [|x l] eqn:E; [contradiction|].
  destruct n as [f|]; [|contradiction].
  intros [[= <- <-]|[]]. repeat split. discriminate.
Qed.

Lemma concat_batch_of tag n ns :
  configured n = true ->
  List.concat (map snd (batch_of tag n ns))
  = filter (fun x => (channel x =? tag)%string) ns.
Proof.
  unfold batch_of. intros C. destruct n as [f|]; [|discriminate].
  destruct (filter _ ns) as [|x l]; [reflexivity|].
  simpl. now rewrite app_nil_r.
Qed.

Lemma filter_three {A} (f g h : A -> bool) l :
  (forall x, In x l ->
             (f x = true /\ g x = false /\ h x = false)
             \/ (f x = false /\ g x = true /\ h x = false)
             \/ (f x = false /\ g x = false /\ h x = true)) ->
  Permutation (filter f l ++ filter g l ++ filter h l) l.
Proof.
  induction l as [|a l IH]; intros H; simpl; [constructor|].
  assert (IH' : Permutation (filter f l ++ filter g l ++ filter h l) l)
    by (apply IH; intros x Hx; apply H; now right).
  destruct (H a (or_introl eq_refl))
    as [[-> [-> ->]]|[[-> [-> ->]]|[-> [-> ->]]]].
  - simpl. now constructor.
  - symmetry. apply Permutation_cons_app. now symmetry.
  - symmetry. rewrite app_assoc. apply Permutation_cons_app.
    rewrite <- app_assoc. now symmetry.
Qed.

Lemma filter_channel tag ns :
  Forall (fun x => channel x = tag)
         (filter (fun x => (channel x =? tag)%string) ns).
Proof.
  rewrite Forall_forall. intros x Hx. apply filter_In in Hx.
  now apply String.eqb_eq.
Qed.

Lemma send_channel_fst tag n ns acc :
  fst (send_channel tag n ns acc)
  = (fst acc
     ++ match filter (fun x => (channel x =? tag)%string) ns, n with
        | x :: g, Some f =>
            match f (x :: g) with Ok rs => rs | Raise _ => [] end
        | _, _ => []
        end)%list.
Proof.
  unfold send_channel.
  destruct (filter _ ns) as [|x g]; [now rewrite app_nil_r|].
  destruct n as [f|]; [|now rewrite app_nil_r].
  simpl. destruct (f (x :: g)); [reflexivity|now rewrite app_nil_r].
Qed.

(** A property of every result of a batch. *)
Lemma batch_Forall tag send (Q : Notification -> SendResult -> Prop) ns :
  (forall n log, Q n (result_of tag n (fst (send n log)))) ->
  forall log,
    Forall2 Q ns (fst (send_batch_with tag send ns log)).
Proof.
  intros H. induction ns as [|n rest IH]; intros log; simpl; [constructor|].
  pose proof (H n log) as Hn.
  destruct (send n log) as [r log1]. specialize (IH log1).
  destruct (send_batch_with tag send rest log1) as [rs log2].
  simpl in *. constructor; [exact Hn|exact IH].
Qed.

Lemma Forall2_keys ns rs :
  Forall2 (fun n x => result_key x = payload_key n) ns rs ->
  map result_key rs = map payload_key ns.
Proof. induction 1; simpl; [reflexivity|congruence]. Qed.

(** One channel of the service: the results are those of the payloads
    of its batch, in order. *)
Lemma send_channel_keys tag n ns acc :
  (forall f g, n = Some f ->
               exists rs, f g = Ok rs
                          /\ Forall2 (fun m x => r_channel x = tag
                                                 /\ r_recipient x = to m
                                                 /\ r_subject x = subject m)
                                     g rs) ->
  map result_key (fst acc)
  = map payload_key (List.concat (map snd (snd acc))) ->
  map result_key (fst (send_channel tag n ns acc))
  = map payload_key (List.concat (map snd (snd (send_channel tag n ns acc)))).
Proof.
  intros Hn Hacc. rewrite send_channel_fst, send_channel_snd.
  unfold batch_of.
  pose proof (filter_channel tag ns) as Hf.
  destruct (filter _ ns) as [|x g]; [now rewrite !app_nil_r|].
  destruct n as [f|]; [|now rewrite !app_nil_r].
  destruct (Hn f (x :: g) eq_refl) as [rs [-> Hrs]].
  set (grp := x :: g) in *. clearbody grp.
  rewrite !map_app, concat_app, map_app. f_equal; [exact Hacc|]. simpl.
  rewrite app_nil_r. apply Forall2_keys.
  clear - Hrs Hf. induction Hrs as [|m y l l' [H1 [H2 H3]] Hl IH];
    constructor.
  - inversion Hf; subst. unfold result_key, payload_key. congruence.
  - apply IH. now inversion Hf.
Qed.

Lemma email_shape srv n log :
  let r := result_of "email" n (fst (EmailNotifier.send_notification srv n log)) in
  r_channel r = "email" /\ r_recipient r = to n /\ r_subject r = subject n.
Proof.
  unfold EmailNotifier.send_notification.
  destruct (srv (List.length log) n); simpl; auto.
Qed.

Lemma push_shape n log :
  let r := result_of "push" n (fst (PushNotifier.send_notification n log)) in
  r_channel r = "push" /\ r_recipient r = to n /\ r_subject r = subject n.
Proof. simpl. auto. Qed.

Lemma websocket_shape conns ws n log :
  let r := result_of "websocket" n
             (fst (WebSocketNotifier.send_notification conns ws n log)) in
  r_channel r = "websocket" /\ r_recipient r = to n
  /\ r_subject r = subject n.
Proof.
  unfold WebSocketNotifier.send_notification.
  destruct (WebSocketNotifier.connected conns (to n)); simpl; auto.
  destruct (ws (List.length log) (str_recipient (to n)) n); simpl; auto.
Qed.

Lemma new_service_keys e p w srv ws ns :
  let out := send_notifications (new_service e p w srv ws) ns in
  map result_key (fst out)
  = map payload_key (List.concat (map snd (snd out))).
Proof.
  unfold send_notifications.
  apply send_channel_keys; [|apply send_channel_keys;
                              [|apply send_channel_keys; [|reflexivity]]].
  - intros f g E. simpl in E. destruct w; [|discriminate].
    injection E as <-. eexists. split; [reflexivity|].
    apply batch_Forall. intros n log. apply websocket_shape.
  - intros f g E. simpl in E. destruct p; [|discriminate].
    injection E as <-. eexists. split; [reflexivity|].
    apply batch_Forall. intros n log. apply push_shape.
  - intros f g E. simpl in E. destruct e; [|discriminate].
    injection E as <-. eexists. split; [reflexivity|].
    apply batch_Forall. intros n log. apply email_shape.
Qed.

(** X18.  [notifications_sent] counts attempts, not deliveries.  With
    the channels the service builds for itself, a call that returns
    reports one result for every payload it handed to a channel, in the
    order of the batches and with the payload's channel, recipient and
    subject, whether the send succeeded or not; [notifications_sent]
    is their number. *)
Theorem notifications_sent_counts_attempts
    (e p w : bool) (srv : EmailNotifier.smtp)
    (ws : WebSocketNotifier.sockets) (now_time : time) (now : Z)
    (changes : list StoredChange) (db : Database) :
  let out := process_status_changes (new_service e p w srv ws)
                                    now_time now changes db in
  let sent := List.concat (map snd (dispatched out)) in
  match returned out with
  | Ok r =>
      notifications_sent r = Z.of_nat (List.length sent)
      /\ match results r with
         | Some rs => map result_key rs = map payload_key sent
         | None => sent = []
         end
  | Raise _ => sent = []
  end.
Proof.
  unfold process_status_changes.
  destruct (filter _ (status_changes db)) as [|sc rows]; [simpl; auto|].
  destruct (collect _ db now_time (sc :: rows)) as [ns|ex]; [|reflexivity].
  pose proof (new_service_keys e p w srv ws ns) as K.
  destruct (send_notifications (new_service e p w srv ws) ns) as [rs bs].
  simpl in *. split; [|exact K].
  apply (f_equal (@List.length _)) in K. rewrite !length_map in K.
  now rewrite K.
Qed.

Lemma websocket_unconnected ws n log :
  let r := result_of "websocket" n
             (fst (WebSocketNotifier.send_notification [] ws n log)) in
  r_channel r = "websocket"
  /\ success r = false
  /\ r_error r = Some ("WebSocket client " ++ str_recipient (r_recipient r)
                                           ++ " not connected").
Proof.
  unfold WebSocketNotifier.send_notification.
  replace (WebSocketNotifier.connected [] (to n)) with false
    by (destruct (to n); reflexivity).
  simpl. auto.
Qed.

Lemma Forall2_right {A B} (Q : B -> Prop) (R : A -> B -> Prop) l l' :
  (forall a b, R a b -> Q b) -> Forall2 R l l' -> Forall Q l'.
Proof. intros H. induction 1; constructor; eauto. Qed.

Lemma batch_results tag send (Q : SendResult -> Prop) ns log :
  (forall n log, Q (result_of tag n (fst (send n log)))) ->
  Forall Q (fst (send_batch_with tag send ns log)).
Proof.
  intros H.
  apply (Forall2_right Q (fun (_ : Notification) x => Q x) ns);
    [auto|].
  apply (batch_Forall tag send (fun _ x => Q x)). exact H.
Qed.

(** X19.  The WebSocket channel of the service has no client.  The
    service builds its own [WebSocketNotifier], on which nothing ever
    calls [connect]: every WebSocket payload it sends comes back as a
    failure "WebSocket client <id> not connected", and no socket is
    written to. *)
Theorem service_websocket_never_connected
    (e p w : bool) (srv : EmailNotifier.smtp)
    (ws : WebSocketNotifier.sockets) (now_time : time) (now : Z)
    (changes : list StoredChange) (db : Database)
    (r : ProcessResult) (rs : list SendResult) (x : SendResult) :
  returned (process_status_changes (new_service e p w srv ws)
                                   now_time now changes db) = Ok r ->
  results r = Some rs ->
  In x rs ->
  r_channel x = "websocket" ->
  success x = false
  /\ r_error x = Some ("WebSocket client " ++ str_recipient (r_recipient x)
                                           ++ " not connected").
Proof.
  unfold process_status_changes.
  destruct (filter _ (status_changes db)) as [|sc rows].
  { simpl. intros [= <-]. discriminate. }
  destruct (collect _ db now_time (sc :: rows)) as [ns|ex]; [|discriminate].
  destruct (send_notifications (new_service e p w srv ws) ns)
    as [rs' bs] eqn:E.
  simpl. intros [= <-]. simpl. intros [= <-] Hin Hc.
  apply (f_equal fst) in E. simpl in E. subst rs'.
  unfold send_notifications in Hin. rewrite !send_channel_fst in Hin.
  simpl in Hin.
  assert (Hother : forall tag l,
             Forall (fun y => r_channel y = tag) l -> In x l ->
             tag = "websocket").
  { intros tag l Hl Hx. rewrite Forall_forall in Hl.
    rewrite <- (Hl x Hx). exact Hc. }
  apply in_app_or in Hin. destruct Hin as [Hin|Hin];
    [apply in_app_or in Hin; destruct Hin as [Hin|Hin]|].
  - exfalso. destruct (filter _ ns) as [|y g]; [contradiction|].
    destruct e; [|contradiction]. simpl in Hin.
    assert (D : "email" = "websocket"); [|discriminate D].
    apply (Hother "email" _) in Hin; [exact Hin|].
    apply (batch_results "email" _ (fun y => r_channel y = "email")).
    intros n log. apply (email_shape srv n log).
  - exfalso. destruct (filter _ ns) as [|y g]; [contradiction|].
    destruct p; [|contradiction]. simpl in Hin.
    assert (D : "push" = "websocket"); [|discriminate D].
    apply (Hother "push" _) in Hin; [exact Hin|].
    apply (batch_results "push" _ (fun y => r_channel y = "push")).
    intros n log. apply (push_shape n log).
  - destruct (filter _ ns) as [|y g]; [contradiction|].
    destruct w; [|contradiction]. simpl in Hin.
    assert (F : Forall (fun y => success y = false
                          /\ r_error y
                             = Some ("WebSocket client "
                                       ++ str_recipient (r_recipient y)
                                       ++ " not connected"))
                  (fst (WebSocketNotifier.send_batch [] ws (y :: g) []))).
    { apply (batch_results "websocket" _
               (fun y => success y = false
                         /\ r_error y
                            = Some ("WebSocket client "
                                      ++ str_recipient (r_recipient y)
                                      ++ " not connected"))).
      intros n log. apply (websocket_unconnected ws n log). }
    rewrite Forall_forall in F. exact (F x Hin).
Qed.

Lemma service_websocket_never_connected_witness :
  exists x, In x results_all
            /\ r_channel x = "websocket"
            /\ success x = false
            /\ r_error x = Some "WebSocket client 2 not connected".
Proof.
  assert (E : returned (process_status_changes service_all noon 900
                          [stored_of change10] db_all_channels)
              = Ok {| pr_success := true; notifications_sent := 4;
                      results := Some results_all |})
    by (vm_compute; reflexivity).
  set (x := {| success := false; r_recipient := RStr "2";
               r_subject := "LeBron James (LAL) status change: OUT → QUESTIONABLE";
               r_channel := "websocket";
               r_error := Some "WebSocket client 2 not connected" |}).
  assert (Hin : In x results_all) by (vm_compute; auto).
  exists x. split; [exact Hin|]. split; [reflexivity|].
  exact (service_websocket_never_connected true true true _ _ noon 900
           [stored_of change10] db_all_channels _ _ x E eq_refl Hin eq_refl).
Defined.

Lemma existsb_find {A} (f : A -> bool) l :
  existsb f l = true -> exists x, find f l = Some x.
Proof.
  induction l as [|a l IH]; simpl; [discriminate|].
  destruct (f a); [eauto|exact IH].
Qed.

Lemma filter_map_comm {A B} (f : B -> bool) (g : A -> B) l :
  filter f (map g l) = map g (filter (fun x => f (g x)) l).
Proof.
  induction l as [|a l IH]; simpl; [reflexivity|].
  destruct (f (g a)); simpl; now rewrite IH.
Qed.

Section Toggles.
Variables (svc : Service.t) (db : Database)
          (f : User -> bool * bool * bool).

Lemma notify_users_toggles now change player us :
  Forall (fun u => existsb (matches change player) (settings_of db u) = true)
         us ->
  notify_users svc (set_users db (map (with_toggles f) (users db))) now
               change player (map (with_toggles f) us)
  = notify_users svc db now change player us.
Proof.
  induction 1 as [|u us Hu Hus IH]; simpl; [reflexivity|].
  rewrite IH.
  replace (is_in_quiet_hours (with_toggles f u) now)
    with (is_in_quiet_hours u now) by reflexivity.
  destruct (is_in_quiet_hours u now) as [quiet|e]; [|reflexivity].
  simpl. destruct (notify_users svc db now change player us);
    [|reflexivity].
  simpl. destruct quiet; [reflexivity|]. do 2 f_equal.
  unfold notifications_for, effective_channels.
  change (settings_of (set_users db (map (with_toggles f) (users db)))
                      (with_toggles f u))
    with (settings_of db u).
  destruct (existsb_find _ _ Hu) as [ns ->]. reflexivity.
Qed.

Lemma collect_toggles now rows :
  collect svc (set_users db (map (with_toggles f) (users db))) now rows
  = collect svc db now rows.
Proof.
  induction rows as [|sc rows IH]; simpl; [reflexivity|].
  change (player_of (set_users db (map (with_toggles f) (users db)))
                    (sc_player_id sc))
    with (player_of db (sc_player_id sc)).
  destruct (player_of db (sc_player_id sc)) as [p|]; [|reflexivity].
  rewrite IH. unfold users_to_notify at 1. cbn [users set_users].
  rewrite filter_map_comm.
  rewrite notify_users_toggles; [reflexivity|].
  rewrite Forall_forall. intros u Hu. apply filter_In in Hu.
  destruct Hu as [_ Hu]. apply andb_true_iff in Hu. exact (proj2 Hu).
Qed.
End Toggles.

(** X20.  The global toggles of a user never decide anything.  The
    users of a change are those with a setting for its player or team,
    and for them that setting decides the channels: whatever the three
    global toggles of the users are set to, a call returns the same,
    dispatches the same batches and marks the same rows. *)
Theorem global_toggles_never_decide
    (svc : Service.t) (now_time : time) (now : Z)
    (changes : list StoredChange) (db : Database)
    (f : User -> bool * bool * bool) :
  let db' := set_users db (map (with_toggles f) (users db)) in
  let out := process_status_changes svc now_time now changes db in
  let out' := process_status_changes svc now_time now changes db' in
  returned out' = returned out
  /\ dispatched out' = dispatched out
  /\ status_changes (db_after out') = status_changes (db_after out).
Proof.
  unfold process_status_changes. cbn [status_changes set_users].
  destruct (filter _ (status_changes db)) as [|sc rows]; [auto|].
  rewrite collect_toggles.
  destruct (collect svc db now_time (sc :: rows)) as [ns|e]; [|auto].
  destruct (send_notifications svc ns) as [rs bs]. auto.
Qed.

(** X21.  Every collected payload is handed to exactly one batch.  The
    batches of a call are at most one per channel, none of them empty,
    each holding payloads of its channel only, and together they hold
    the collected payloads, each once. *)
Theorem dispatch_partitions_payloads
    (svc : Service.t) (db : Database) (now_time : time)
    (rows : list StatusChange) (ns : list Notification) :
  collect svc db now_time rows = Ok ns ->
  let batches := snd (send_notifications svc ns) in
  Permutation (List.concat (map snd batches)) ns
  /\ NoDup (map fst batches)
  /\ Forall (fun b => snd b <> []
                      /\ Forall (fun n => channel n = fst b) (snd b)) batches.
Proof.
  intros Hc. cbv zeta. rewrite send_notifications_batches.
  assert (Hkind : forall n, In n ns ->
            (channel n = "email" /\ configured (email_notifier svc) = true)
            \/ (channel n = "push" /\ configured (push_notifier svc) = true)
            \/ (channel n = "websocket"
                /\ configured (websocket_notifier svc) = true)).
  { intros n Hn.
    destruct (collect_inv _ _ _ _ _ _ Hc Hn) as [sc [p [u [_ [_ [_ [_ H]]]]]]].
    now apply notifications_for_in in H. }
  assert (Hcat : forall tag nt,
            (forall n, In n ns -> channel n = tag -> configured nt = true) ->
            List.concat (map snd (batch_of tag nt ns))
            = filter (fun x => (channel x =? tag)%string) ns).
  { intros tag nt H. destruct (configured nt) eqn:C.
    - now apply concat_batch_of.
    - unfold batch_of.
      destruct (filter _ ns) as [|x g] eqn:E; [reflexivity|].
      assert (Hx : In x (filter (fun x => (channel x =? tag)%string) ns))
        by (rewrite E; now left).
      apply filter_In in Hx. destruct Hx as [Hx Ht].
      apply String.eqb_eq in Ht. specialize (H x Hx Ht). discriminate H. }
  split; [|split].
  - rewrite !map_app, !concat_app, !Hcat.
    + apply filter_three. intros n Hn.
      destruct (Hkind n Hn) as [[-> _]|[[-> _]|[-> _]]]; simpl; auto.
    + intros n Hn E. destruct (Hkind n Hn) as [[H _]|[[H _]|[_ H]]];
        [rewrite H in E; discriminate E..|exact H].
    + intros n Hn E. destruct (Hkind n Hn) as [[H _]|[[_ H]|[H _]]];
        [rewrite H in E; discriminate E|exact H
        |rewrite H in E; discriminate E].
    + intros n Hn E. destruct (Hkind n Hn) as [[_ H]|[[H _]|[H _]]];
        [exact H|rewrite H in E; discriminate E..].
  - unfold batch_of.
    repeat match goal with
           | |- context [match filter ?f ns with _ => _ end] =>
               destruct (filter f ns)
           end;
      destruct (email_notifier svc), (push_notifier svc),
               (websocket_notifier svc);
      simpl; repeat constructor; simpl; intuition discriminate.
  - rewrite !Forall_app. repeat split; rewrite Forall_forall;
      intros [t g] Hb; apply in_batch_of in Hb;
      destruct Hb as [-> [-> [Hne _]]]; simpl;
      (split; [exact Hne|apply filter_channel]).
Qed.

Lemma dispatch_partitions_payloads_witness :
  let batches := snd (send_notifications service_all payloads_all) in
  Permutation (List.concat (map snd batches)) payloads_all
  /\ NoDup (map fst batches)
  /\ Forall (fun b => snd b <> []
                      /\ Forall (fun n => channel n = fst b) (snd b)) batches.
Proof.
  apply (dispatch_partitions_payloads service_all db_all_channels noon
           [change10] payloads_all).
  vm_compute. reflexivity.
Defined.

(** X22.  Every dispatched payload is justified.  A payload in a batch
    has the channel of the batch, which is configured; it is for a
    change that was handed to the call and was not delivered yet, whose
    player row exists, and for a user who is active, who has a setting
    for that player or the player's team, and who is not in quiet
    hours; and it is one of the payloads the service builds for that
    user and change. *)
Theorem dispatched_payloads_are_justified
    (svc : Service.t) (now_time : time) (now : Z)
    (changes : list StoredChange) (db : Database)
    (tag : string) (group : list Notification) (n : Notification) :
  In (tag, group)
     (dispatched (process_status_changes svc now_time now changes db)) ->
  In n group ->
  channel n = tag
  /\ exists sc p u,
       In sc (status_changes db) /\ sc_id sc = change_id n
       /\ In (sc_id sc) (map stored_id changes)
       /\ sc_notification_sent sc = false
       /\ player_of db (sc_player_id sc) = Some p
       /\ In u (users db) /\ u_id u = user_id n
       /\ u_is_active u = true
       /\ is_in_quiet_hours u now_time = Ok false
       /\ (exists ns, In ns (settings_of db u) /\ matches sc p ns = true)
       /\ In n (notifications_for svc db u sc p).
Proof.
  unfold process_status_changes.
  destruct (filter _ (status_changes db)) as [|sc0 rows] eqn:Ef;
    [intros []|].
  destruct (collect svc db now_time (sc0 :: rows)) as [ns|e] eqn:Ec;
    [|intros []].
  pose proof (send_notifications_batches svc ns) as Hb.
  destruct (send_notifications svc ns) as [rs bs]. simpl in Hb. simpl.
  subst bs. intros Hin Hn.
  assert (Hg : tag = channel n /\ In n ns).
  { assert (G : exists nt, In (tag, group) (batch_of tag nt ns) ).
    { repeat (apply in_app_or in Hin; destruct Hin as [Hin|Hin]);
        pose proof (in_batch_of _ _ _ _ _ Hin) as [-> _]; eauto. }
    destruct G as [nt G]. apply in_batch_of in G.
    destruct G as [_ [-> _]]. apply filter_In in Hn.
    destruct Hn as [Hn Ht]. apply String.eqb_eq in Ht. auto. }
  destruct Hg as [-> Hns]. split; [reflexivity|].
  destruct (collect_inv _ _ _ _ _ _ Ec Hns)
    as [sc [p [u [Hsc [Hp [Hu [Hq Hnf]]]]]]].
  rewrite <- Ef in Hsc. apply filter_In in Hsc. destruct Hsc as [Hsc Hsel].
  apply ServiceFacts.selected_iff in Hsel. destruct Hsel as [Hid Hsent].
  unfold users_to_notify in Hu. apply filter_In in Hu.
  destruct Hu as [Hu Hact]. apply andb_true_iff in Hact.
  destruct Hact as [Hact Hex]. apply existsb_exists in Hex.
  destruct (notifications_for_in _ _ _ _ _ _ Hnf) as [Huid [Hcid _]].
  exists sc, p, u. repeat split; auto.
Qed.

Lemma dispatched_payloads_are_justified_witness :
  channel payload10 = "email"
  /\ exists sc p u,
       In sc (status_changes db_player_only)
       /\ sc_id sc = change_id payload10
       /\ In (sc_id sc) (map stored_id [stored_of change10])
       /\ sc_notification_sent sc = false
       /\ player_of db_player_only (sc_player_id sc) = Some p
       /\ In u (users db_player_only) /\ u_id u = user_id payload10
       /\ u_is_active u = true
       /\ is_in_quiet_hours u noon = Ok false
       /\ (exists ns, In ns (settings_of db_player_only u)
                      /\ matches sc p ns = true)
       /\ In payload10
             (notifications_for service_email db_player_only u sc p).
Proof.
  apply (dispatched_payloads_are_justified service_email noon 900
           [stored_of change10] db_player_only "email" [payload10]
           payload10).
  - vm_compute. left. reflexivity.
  - left. reflexivity.
Defined.

Lemma mark_selected_columns ids now r :
  columns (mark_selected ids now r) = columns r
  /\ (sc_notification_sent r = true -> mark_selected ids now r = r)
  /\ (sc_notification_sent (mark_selected ids now r) = false ->
      mark_selected ids now r = r).
Proof.
  unfold mark_selected, selected.
  destruct (existsb _ ids); simpl; [|auto].
  destruct (sc_notification_sent r) eqn:E; simpl; auto.
  repeat split; discriminate.
Qed.

(** X23.  Delivery touches the two delivery columns only.  Whatever a
    call of [process_status_changes] does, it leaves players, users
    and settings alone, adds and removes no change row, and keeps every
    column of every row but [notification_sent] and
    [notification_date]; a row that was marked stays as it was, a row
    that is not marked afterwards was not touched, and a call that
    raises changes nothing. *)
Theorem delivery_touches_only_delivery_columns
    (svc : Service.t) (now_time : time) (now : Z)
    (changes : list StoredChange) (db : Database) :
  let out := process_status_changes svc now_time now changes db in
  players (db_after out) = players db
  /\ users (db_after out) = users db
  /\ notification_settings (db_after out) = notification_settings db
  /\ map columns (status_changes (db_after out))
     = map columns (status_changes db)
  /\ Forall2 (fun old new =>
                (sc_notification_sent old = true -> new = old)
                /\ (sc_notification_sent new = false -> new = old))
             (status_changes db) (status_changes (db_after out))
  /\ match returned out with
     | Ok _ => True
     | Raise _ => db_after out = db
     end.
Proof.
  assert (R : forall l : list StatusChange,
             Forall2 (fun old new =>
                        (sc_notification_sent old = true -> new = old)
                        /\ (sc_notification_sent new = false -> new = old))
                     l l).
  { induction l; constructor; auto. }
  unfold process_status_changes.
  destruct (filter _ (status_changes db)) as [|sc rows];
    [simpl; repeat split; auto|].
  destruct (collect svc db now_time (sc :: rows)) as [ns|e];
    [|simpl; repeat split; auto].
  destruct (send_notifications svc ns) as [rs bs]. simpl.
  repeat split; auto.
  - rewrite map_map. apply map_ext. intros r.
    apply mark_selected_columns.
  - induction (status_changes db) as [|r l IH]; simpl; constructor;
      [|exact IH].
    split; apply mark_selected_columns.
Qed.

End DeliveryFacts.

(** ** notifier/channels.py: connecting, disconnecting, broadcasting *)

Module RegistryFacts.
Import Py Channels Registry Examples.

Lemma del_absent d k : ~ In k (Dict.keys d) -> del d k = d.
Proof.
  unfold Dict.keys. induction d as [|[k0 v0] r IH]; simpl; intros H;
    [reflexivity|].
  destruct (String.eqb_spec k k0) as [->|Hne]; [exfalso; apply H; now left|].
  rewrite IH; [reflexivity|]. intros Hin. apply H. now right.
Qed.

Lemma del_middle pre k v rest :
  ~ In k (Dict.keys pre) ->
  del (pre ++ (k, v) :: rest)%list k = (pre ++ rest)%list.
Proof.
  unfold Dict.keys. induction pre as [|[k0 v0] r IH]; simpl; intros H.
  - now rewrite String.eqb_refl.
  - destruct (String.eqb_spec k k0) as [->|Hne]; [exfalso; apply H; now left|].
    rewrite IH; [reflexivity|]. intros Hin. apply H. now right.
Qed.

Lemma mem_In (d : connections) k :
  Dict.mem String.eqb d k = true <-> In k (Dict.keys d).
Proof.
  unfold Dict.mem, Dict.keys. induction d as [|[k0 v0] r IH]; simpl.
  - split; [discriminate|intros []].
  - destruct (String.eqb_spec k k0) as [->|Hne].
    + split; auto.
    + rewrite IH. split; [auto|]. intros [E|H]; [congruence|exact H].
Qed.

Lemma disconnect_middle pre k v rest :
  ~ In k (Dict.keys pre) ->
  disconnect (pre ++ (k, v) :: rest)%list k = (pre ++ rest)%list.
Proof.
  intros H. unfold disconnect.
  replace (Dict.mem String.eqb (pre ++ (k, v) :: rest)%list k) with true.
  - now apply del_middle.
  - symmetry. apply mem_In. unfold Dict.keys. rewrite map_app.
    apply in_or_app. right. now left.
Qed.

Lemma reached_length send items i :
  (List.length (reached send items i) <= List.length items)%nat.
Proof.
  revert i. induction items as [|[c w] r IH]; intros i; simpl; [lia|].
  specialize (IH (S i)). destruct (send i c w); simpl; lia.
Qed.

Lemma reached_keys send items i k :
  In k (Dict.keys (reached send items i)) -> In k (Dict.keys items).
Proof.
  unfold Dict.keys. revert i.
  induction items as [|[c w] r IH]; intros i; simpl; [auto|].
  destruct (send i c w); simpl; [intros [H|H]|intros H]; eauto.
Qed.

Lemma triple_eq {A B C} (a a' : A) (b b' : B) (c c' : C) :
  a = a' -> b = b' -> c = c' -> (a, b, c) = (a', b', c').
Proof. congruence. Qed.

(** The loop, started with the entries still to visit at the end of
    the registry. *)
Lemma broadcast_loop_spec send items :
  forall i pre s f,
    NoDup (Dict.keys (pre ++ items)%list) ->
    broadcast_loop send items i (pre ++ items)%list s f
    = ((pre ++ reached send items i)%list,
       s + Z.of_nat (List.length (reached send items i)),
       f + Z.of_nat (List.length items)
         - Z.of_nat (List.length (reached send items i))).
Proof.
  induction items as [|[c w] rest IH]; intros i pre s f Hnd; simpl.
  - apply triple_eq; [reflexivity|lia|lia].
  - assert (Hc : ~ In c (Dict.keys pre)).
    { unfold Dict.keys in *. rewrite map_app in Hnd. simpl in Hnd.
      apply NoDup_remove_2 in Hnd. intros H. apply Hnd.
      apply in_or_app. now left. }
    destruct (send i c w).
    + replace (pre ++ (c, w) :: rest)%list
        with ((pre ++ [(c, w)]) ++ rest)%list
        by (now rewrite <- app_assoc).
      rewrite IH by (now rewrite <- app_assoc).
      rewrite <- app_assoc. simpl.
      apply triple_eq; [reflexivity|lia|lia].
    + rewrite disconnect_middle by exact Hc.
      rewrite IH.
      * apply triple_eq; [reflexivity|lia|lia].
      * unfold Dict.keys in *. rewrite map_app in *. simpl in Hnd.
        now apply NoDup_remove_1 in Hnd.
Qed.

(** X24.  A broadcast accounts for every client.  Every client that
    was connected when the broadcast began is tried once, in order;
    [successful] and [failed] add up to [total_clients], which is the
    number of clients at the start; the clients whose send failed are
    removed from the registry and the others stay, in their order. *)
Theorem broadcast_accounts_for_every_client
    (send : send_json) (subject : string) (active_connections : connections) :
  NoDup (Dict.keys active_connections) ->
  let out := broadcast send subject active_connections in
  snd out = reached send active_connections 0
  /\ total_clients (fst out) = Z.of_nat (List.length active_connections)
  /\ successful (fst out) = Z.of_nat (List.length (snd out))
  /\ successful (fst out) + failed (fst out) = total_clients (fst out)
  /\ 0 <= failed (fst out)
  /\ b_success (fst out) = true
  /\ NoDup (Dict.keys (snd out)).
Proof.
  intros Hnd. unfold broadcast.
  pose proof (broadcast_loop_spec send active_connections 0 [] 0 0 Hnd) as E.
  simpl in E. rewrite E. cbv zeta. simpl.
  pose proof (reached_length send active_connections 0) as L.
  repeat split; try lia.
  clear E L. revert Hnd. generalize 0%nat.
  unfold Dict.keys.
  induction active_connections as [|[c w] r IH]; intros i Hnd; simpl;
    [constructor|].
  inversion Hnd as [|? ? Hc Hr]; subst.
  destruct (send i c w); [|now apply IH].
  simpl. constructor; [|now apply IH].
  intros H. apply Hc. exact (reached_keys send r (S i) c H).
Qed.

Lemma broadcast_accounts_for_every_client_witness :
  let out := broadcast (fun i _ _ => if (i =? 1)%nat
                                     then Raise (OtherError "RuntimeError" "closed")
                                     else Ok tt)
                       "update" [("7", 0%nat); ("8", 1%nat); ("9", 2%nat)] in
  snd out = [("7", 0%nat); ("9", 2%nat)]
  /\ total_clients (fst out) = 3
  /\ successful (fst out) = 2
  /\ failed (fst out) = 1.
Proof.
  intros out.
  assert (Hnd : NoDup (Dict.keys [("7", 0%nat); ("8", 1%nat); ("9", 2%nat)])).
  { repeat constructor; simpl; intuition discriminate. }
  destruct (broadcast_accounts_for_every_client
              (fun i _ _ => if (i =? 1)%nat
                            then Raise (OtherError "RuntimeError" "closed")
                            else Ok tt)
              "update" _ Hnd) as [H1 [H2 [H3 [H4 _]]]].
  fold out in H1, H2, H3, H4.
  split; [exact H1|]. split; [exact H2|].
  assert (H5 : successful (fst out) = 2) by (rewrite H3, H1; reflexivity).
  split; [exact H5|].
  change (total_clients (fst out) = 3) in H2. lia.
Defined.

Lemma sget_set (d : connections) k v k' :
  Dict.get String.eqb (Dict.set String.eqb d k v) k'
  = if (k' =? k)%string then Some v else Dict.get String.eqb d k'.
Proof.
  induction d as [|[k0 v0] r IH]; simpl; [reflexivity|].
  destruct (String.eqb_spec k k0) as [->|Hne]; simpl.
  - destruct (k' =? k0)%string; reflexivity.
  - rewrite IH. destruct (String.eqb_spec k' k0) as [->|Hne'];
      [|reflexivity].
    destruct (String.eqb_spec k0 k); [congruence|reflexivity].
Qed.

Lemma sset_keys (d : connections) k v x :
  In x (Dict.keys (Dict.set String.eqb d k v)) <-> x = k \/ In x (Dict.keys d).
Proof.
  unfold Dict.keys. induction d as [|[k0 v0] r IH]; simpl.
  - intuition.
  - destruct (String.eqb_spec k k0) as [->|Hne]; simpl.
    + intuition.
    + rewrite IH. intuition.
Qed.

Lemma sset_NoDup (d : connections) k v :
  NoDup (Dict.keys d) -> NoDup (Dict.keys (Dict.set String.eqb d k v)).
Proof.
  induction d as [|[k0 v0] r IH]; simpl; intros Hnd.
  - repeat constructor. intros [].
  - inversion Hnd as [|? ? Hk Hr]; subst.
    destruct (String.eqb_spec k k0) as [->|Hne]; simpl.
    + now constructor.
    + constructor; [|now apply IH].
      intros H. apply (sset_keys r k v k0) in H.
      destruct H as [H|H]; [congruence|exact (Hk H)].
Qed.

Lemma sset_length (d : connections) k v :
  Dict.mem String.eqb d k = true ->
  List.length (Dict.set String.eqb d k v) = List.length d.
Proof.
  unfold Dict.mem. induction d as [|[k0 v0] r IH]; simpl; [discriminate|].
  destruct (k =? k0)%string; simpl; [reflexivity|].
  intros H. now rewrite IH.
Qed.

Lemma sget_None (d : connections) k :
  Dict.get String.eqb d k = None <-> ~ In k (Dict.keys d).
Proof.
  unfold Dict.keys. induction d as [|[k0 v0] r IH]; simpl.
  - intuition.
  - destruct (String.eqb_spec k k0) as [->|Hne].
    + split; [discriminate|]. intros H. exfalso. apply H. now left.
    + rewrite IH. intuition.
Qed.

Lemma del_keys (d : connections) k x :
  In x (Dict.keys (del d k)) -> In x (Dict.keys d).
Proof.
  unfold Dict.keys. induction d as [|[k0 v0] r IH]; simpl; [auto|].
  destruct (k =? k0)%string; simpl; [auto|]. intros [H|H]; auto.
Qed.

Lemma del_NoDup (d : connections) k :
  NoDup (Dict.keys d) -> NoDup (Dict.keys (del d k)).
Proof.
  induction d as [|[k0 v0] r IH]; simpl; intros Hnd; [constructor|].
  inversion Hnd as [|? ? Hk Hr]; subst.
  destruct (k =? k0)%string; [exact Hr|].
  simpl. constructor; [|now apply IH].
  intros H. apply Hk. exact (del_keys r k k0 H).
Qed.

Lemma get_del (d : connections) k k' :
  NoDup (Dict.keys d) ->
  Dict.get String.eqb (del d k) k'
  = if (k' =? k)%string then None else Dict.get String.eqb d k'.
Proof.
  induction d as [|[k0 v0] r IH]; simpl; intros Hnd.
  - now destruct (k' =? k)%string.
  - inversion Hnd as [|? ? Hk Hr]; subst.
    destruct (String.eqb_spec k k0) as [->|Hne].
    + destruct (String.eqb_spec k' k0) as [E|Hne']; [|reflexivity].
      rewrite E. now apply sget_None.
    + simpl. rewrite (IH Hr).
      destruct (String.eqb_spec k' k0) as [E|Hne']; [|reflexivity].
      rewrite E. destruct (String.eqb_spec k0 k); [congruence|reflexivity].
Qed.

Lemma get_disconnect (d : connections) k k' :
  NoDup (Dict.keys d) ->
  Dict.get String.eqb (disconnect d k) k'
  = if (k' =? k)%string then None else Dict.get String.eqb d k'.
Proof.
  intros Hnd. unfold disconnect.
  destruct (Dict.mem String.eqb d k) eqn:M; [now apply get_del|].
  destruct (String.eqb_spec k' k) as [->|Hne]; [|reflexivity].
  unfold Dict.mem in M. now destruct (Dict.get String.eqb d k).
Qed.

(** X25.  One registration per client id.  A second connection under
    an id that is already connected takes the place of the first in
    the registry, the number of clients staying the same; the
    [disconnect] that follows the end of either connection then
    removes the id, so that a notification for it fails as "not
    connected" before any socket is tried, whatever the sockets would
    do.  Other clients are not affected, and a connection whose
    [accept] raises is not registered. *)
Theorem one_registration_per_client
    (active_connections : connections) (first second : nat)
    (client_id : string) (ws : WebSocketNotifier.sockets)
    (n : Notification) (log : calls) :
  NoDup (Dict.keys active_connections) ->
  to n = RStr client_id ->
  let a1 := snd (connect (Ok tt) active_connections first client_id) in
  let a2 := snd (connect (Ok tt) a1 second client_id) in
  let a3 := disconnect a2 client_id in
  Dict.get String.eqb a2 client_id = Some second
  /\ List.length a2 = List.length a1
  /\ Dict.get String.eqb a3 client_id = None
  /\ fst (WebSocketNotifier.send_notification a3 ws n log)
     = Raise (NotifierError
                ("WebSocket client " ++ client_id ++ " not connected") 500)
  /\ (forall k, k <> client_id ->
                Dict.get String.eqb a2 k
                = Dict.get String.eqb active_connections k
                /\ Dict.get String.eqb a3 k
                   = Dict.get String.eqb active_connections k)
  /\ NoDup (Dict.keys a3)
  /\ (forall e, connect (Raise e) active_connections first client_id
                = (Raise e, active_connections)).
Proof.
  intros Hnd Hto. cbv zeta. unfold connect. cbn [snd].
  set (a1 := Dict.set String.eqb active_connections client_id first).
  set (a2 := Dict.set String.eqb a1 client_id second).
  assert (N1 : NoDup (Dict.keys a1)) by (now apply sset_NoDup).
  assert (N2 : NoDup (Dict.keys a2)) by (now apply sset_NoDup).
  assert (G3 : Dict.get String.eqb (disconnect a2 client_id) client_id = None).
  { rewrite get_disconnect by exact N2. now rewrite String.eqb_refl. }
  split; [unfold a2; rewrite sget_set; now rewrite String.eqb_refl|].
  split.
  { apply sset_length. unfold Dict.mem, a1. rewrite sget_set.
    now rewrite String.eqb_refl. }
  split; [exact G3|].
  split.
  { unfold WebSocketNotifier.send_notification. rewrite Hto.
    unfold WebSocketNotifier.connected, Dict.mem. rewrite G3. reflexivity. }
  split.
  { intros k Hk. apply String.eqb_neq in Hk.
    rewrite get_disconnect by exact N2. unfold a2, a1.
    rewrite !sget_set, Hk. auto. }
  split; [|reflexivity].
  unfold disconnect. destruct (Dict.mem String.eqb a2 client_id);
    [now apply del_NoDup|exact N2].
Qed.

Lemma one_registration_per_client_witness :
  let a2 := snd (connect (Ok tt)
                   (snd (connect (Ok tt) [("7", 0%nat)] 1%nat "8"))
                   2%nat "8") in
  a2 = [("7", 0%nat); ("8", 2%nat)]
  /\ disconnect a2 "8" = [("7", 0%nat)]
  /\ fst (WebSocketNotifier.send_notification (disconnect a2 "8")
            (fun _ _ _ => Ok tt) payload_ws [])
     = Raise (NotifierError "WebSocket client 8 not connected" 500).
Proof.
  intros a2.
  assert (Hnd : NoDup (Dict.keys [("7", 0%nat)])).
  { repeat constructor. intros []. }
  destruct (one_registration_per_client [("7", 0%nat)] 1%nat 2%nat "8"
              (fun _ _ _ => Ok tt) payload_ws [] Hnd eq_refl)
    as [_ [_ [_ [H _]]]].
  split; [reflexivity|]. split; [reflexivity|]. exact H.
Defined.

End RegistryFacts.

(** ** api/routers/users.py: settings stay unique per target *)

Module SettingsFacts.
Import Py Models Service UsersApi Examples.

Lemma FOP_snoc {A} (R : A -> A -> Prop) l x :
  ForallOrdPairs R l -> Forall (fun a => R a x) l ->
  ForallOrdPairs R (l ++ [x]).
Proof.
  induction 1 as [|a l Ha Hl IH]; simpl; intros Hx.
  - constructor; constructor.
  - inversion Hx; subst. constructor; [|now apply IH].
    apply Forall_app. split; [exact Ha|]. now constructor.
Qed.

Lemma delete_first_incl p rows x :
  In x (delete_first p rows) -> In x rows.
Proof.
  induction rows as [|r rest IH]; simpl; [auto|].
  destruct (p r); simpl; [auto|]. intros [H|H]; auto.
Qed.

Lemma FOP_delete_first R p rows :
  ForallOrdPairs R rows -> ForallOrdPairs R (delete_first p rows).
Proof.
  induction 1 as [|a l Ha Hl IH]; simpl; [constructor|].
  destruct (p a); [exact Hl|]. constructor; [|exact IH].
  rewrite Forall_forall in Ha |- *. intros x Hx. apply Ha.
  exact (delete_first_incl p l x Hx).
Qed.

Lemma FOP_filter {A} (R : A -> A -> Prop) f l :
  ForallOrdPairs R l -> ForallOrdPairs R (filter f l).
Proof.
  induction 1 as [|a l Ha Hl IH]; simpl; [constructor|].
  destruct (f a); [|exact IH]. constructor; [|exact IH].
  rewrite Forall_forall in Ha |- *. intros x Hx. apply Ha.
  apply filter_In in Hx. tauto.
Qed.

Lemma at_most_one {A} (R : A -> A -> Prop) (f : A -> bool) l :
  ForallOrdPairs R l ->
  (forall a b, R a b -> f a = true -> f b = true -> False) ->
  (List.length (filter f l) <= 1)%nat.
Proof.
  intros H Hf. induction H as [|a l Ha Hl IH]; simpl; [lia|].
  destruct (f a) eqn:Ea; [|exact IH].
  replace (filter f l) with (@nil A); [simpl; lia|].
  symmetry. clear IH Hl. induction l as [|b l IHl]; simpl; [reflexivity|].
  inversion Ha; subst. destruct (f b) eqn:Eb; [|now apply IHl].
  exfalso. eapply Hf; eauto.
Qed.

Lemma filter_orb_length {A} (f g : A -> bool) l :
  (List.length (filter (fun x => f x || g x) l)
   <= List.length (filter f l) + List.length (filter g l))%nat.
Proof.
  induction l as [|a l IH]; simpl; [lia|].
  destruct (f a), (g a); simpl; lia.
Qed.

Lemma next_setting_id_fresh rows r :
  In r rows -> ns_id r < next_setting_id rows.
Proof.
  unfold next_setting_id.
  induction rows as [|a rows IH]; cbn [fold_right In]; [contradiction|].
  intros [->|H]; [lia|]. specialize (IH H). lia.
Qed.

Lemma opt_eqb_Z a b : opt_eqb Z.eqb a (Some b) = true <-> a = Some b.
Proof.
  destruct a as [x|]; simpl; [|split; discriminate].
  rewrite Z.eqb_eq. split; congruence.
Qed.

Lemma opt_eqb_string a b : opt_eqb String.eqb a (Some b) = true <-> a = Some b.
Proof.
  destruct a as [x|]; simpl; [|split; discriminate].
  rewrite String.eqb_eq. split; congruence.
Qed.

(** A row that clashes with no request is apart from the row the
    request creates. *)
Lemma no_clash_distinct setting_data current_user a row :
  clashes setting_data current_user a = false ->
  ns_user_id row = u_id current_user ->
  ns_player_id row = nsc_player_id setting_data ->
  ns_team row = nsc_team setting_data ->
  distinct_targets a row.
Proof.
  unfold clashes, distinct_targets. intros Hc Hu Hp Ht Hsame.
  rewrite Hu in Hsame. apply Z.eqb_eq in Hsame. rewrite Hsame in Hc.
  simpl in Hc. apply orb_false_iff in Hc. destruct Hc as [C1 C2].
  rewrite Hp, Ht. split.
  - intros p Ha Hb. rewrite Hb, Ha in C1. simpl in C1.
    now rewrite Z.eqb_refl in C1.
  - intros t Ha Hb. rewrite Hb, Ha in C2. simpl in C2.
    now rewrite String.eqb_refl in C2.
Qed.

(** X28.  Settings stay unique per target.  If no user has two
    settings for the same player or two for the same team, creating
    and deleting settings through the API keeps it so.  A request that
    is refused (400 without target or with a target the user already
    has a setting for, 404 for an unknown player) changes nothing; one
    that is accepted appends one row for the current user with a fresh
    id.  The accepted request is answered only when it names no player
    (or player 0): for any other player the row is committed and the
    endpoint then raises [AttributeError], reading the [player] that a
    setting does not have.  At most two settings of a user match a
    change: one by its player and one by its team. *)
Theorem settings_stay_unique
    (setting_data : NotificationSettingCreate) (setting_id : Z)
    (current_user : User) (db : Database)
    (change : StatusChange) (player : Player) (u : User) :
  unique_targets (notification_settings db) ->
  let created := create_notification_setting setting_data current_user db in
  let deleted := delete_notification_setting setting_id current_user db in
  let appended :=
    exists row,
      snd created
      = {| players := players db; status_changes := status_changes db;
           users := users db;
           notification_settings :=
             (notification_settings db ++ [row])%list |}
      /\ row = {| ns_id := next_setting_id (notification_settings db);
                  ns_user_id := u_id current_user;
                  ns_player_id := nsc_player_id setting_data;
                  ns_team := nsc_team setting_data;
                  ns_email_enabled := nsc_email_enabled setting_data;
                  ns_push_enabled := nsc_push_enabled setting_data;
                  ns_web_enabled := nsc_web_enabled setting_data;
                  ns_min_importance := nsc_min_importance setting_data |}
      /\ (ns_player_id row <> None \/ ns_team row <> None)
      /\ Forall (fun old => ns_id old < ns_id row)
                (notification_settings db)
      /\ match ns_player_id row with
         | Some p => player_of db p <> None
         | None => True
         end in
  unique_targets (notification_settings (snd created))
  /\ unique_targets (notification_settings (snd deleted))
  /\ match fst created with
     | Returned v =>
         appended
         /\ (nsc_player_id setting_data = None
             \/ nsc_player_id setting_data = Some 0)
         /\ v = {| v_id := next_setting_id (notification_settings db);
                   v_player_id := nsc_player_id setting_data;
                   v_player_name := None;
                   v_team := nsc_team setting_data;
                   v_email_enabled := nsc_email_enabled setting_data;
                   v_push_enabled := nsc_push_enabled setting_data;
                   v_web_enabled := nsc_web_enabled setting_data;
                   v_min_importance := nsc_min_importance setting_data |}
     | HTTPException c _ => snd created = db /\ (c = 400 \/ c = 404)
     | Raised e =>
         appended
         /\ (exists p, nsc_player_id setting_data = Some p /\ p <> 0)
         /\ e = AttributeError
                  "'NotificationSetting' object has no attribute 'player'"
     end
  /\ incl (notification_settings (snd deleted)) (notification_settings db)
  /\ (List.length (filter (matches change player) (settings_of db u))
      <= 2)%nat.
Proof.
  intros Hu. cbv zeta.
  split; [|split; [|split; [|split]]].
  - unfold create_notification_setting.
    destruct (nsc_player_id setting_data) as [p|] eqn:Ep;
      [|destruct (nsc_team setting_data) as [t|] eqn:Et; [|exact Hu]].
    + destruct (existsb _ (notification_settings db)) eqn:Ex; [exact Hu|].
      destruct (player_of db p); [|exact Hu]. simpl.
      apply FOP_snoc; [exact Hu|]. rewrite Forall_forall. intros a Ha.
      apply (no_clash_distinct setting_data current_user);
        [|reflexivity|now rewrite Ep|reflexivity].
      pose proof (existsb_exists (clashes setting_data current_user)
                    (notification_settings db)) as X.
      destruct (clashes setting_data current_user a) eqn:C; [|reflexivity].
      rewrite <- Ex. symmetry. apply X. eauto.
    + destruct (existsb _ (notification_settings db)) eqn:Ex; [exact Hu|].
      simpl. apply FOP_snoc; [exact Hu|]. rewrite Forall_forall.
      intros a Ha.
      apply (no_clash_distinct setting_data current_user);
        [|reflexivity|now rewrite Ep|now rewrite Et].
      pose proof (existsb_exists (clashes setting_data current_user)
                    (notification_settings db)) as X.
      destruct (clashes setting_data current_user a) eqn:C; [|reflexivity].
      rewrite <- Ex. symmetry. apply X. eauto.
  - unfold delete_notification_setting.
    destruct (existsb _ (notification_settings db)); [|exact Hu].
    simpl. now apply FOP_delete_first.
  - unfold create_notification_setting.
    assert (Hfresh : forall x,
               Forall (fun old => ns_id old < x)
                      (notification_settings db) <->
               forall old, In old (notification_settings db) ->
                           ns_id old < x)
      by (intros x; apply Forall_forall).
    assert (Hnext : Forall (fun old => ns_id old
                                       < next_setting_id
                                           (notification_settings db))
                           (notification_settings db)).
    { apply Hfresh. intros old Ho. now apply next_setting_id_fresh. }
    destruct (nsc_player_id setting_data) as [p|] eqn:Ep;
      [|destruct (nsc_team setting_data) as [t|] eqn:Et; [|simpl; auto]].
    + destruct (existsb _ (notification_settings db)); [simpl; auto|].
      destruct (player_of db p) eqn:Pl; [|simpl; auto].
      cbn [ns_player_id fst snd]. destruct (Z.eqb_spec p 0) as [E0|N0].
      * split; [|split; [right; now rewrite E0|reflexivity]].
        eexists. split; [reflexivity|]. split; [reflexivity|].
        cbn [ns_player_id ns_team ns_id]. split; [left; discriminate|].
        split; [exact Hnext|]. rewrite Pl. discriminate.
      * split; [|split; [exists p; auto|reflexivity]].
        eexists. split; [reflexivity|]. split; [reflexivity|].
        cbn [ns_player_id ns_team ns_id]. split; [left; discriminate|].
        split; [exact Hnext|]. rewrite Pl. discriminate.
    + destruct (existsb _ (notification_settings db)); [simpl; auto|].
      cbn [ns_player_id fst snd].
      split; [|split; [left; reflexivity|reflexivity]].
      eexists. split; [reflexivity|]. split; [reflexivity|].
      cbn [ns_player_id ns_team ns_id]. split; [right; discriminate|].
      split; [exact Hnext|exact I].
  - unfold delete_notification_setting.
    destruct (existsb _ (notification_settings db)); [|apply incl_refl].
    simpl. intros x Hx. exact (delete_first_incl _ _ x Hx).
  - unfold settings_of.
    set (rows := filter (fun ns => ns_user_id ns =? u_id u)
                        (notification_settings db)).
    assert (Hrows : ForallOrdPairs
                      (fun a b => distinct_targets a b
                                  /\ ns_user_id a = ns_user_id b) rows).
    { unfold rows. clear - Hu. unfold unique_targets in Hu.
      induction Hu as [|a l Ha Hl IH]; simpl; [constructor|].
      destruct (Z.eqb_spec (ns_user_id a) (u_id u)) as [E|N]; [|exact IH].
      constructor; [|exact IH].
      rewrite Forall_forall in Ha |- *. intros x Hx.
      apply filter_In in Hx. destruct Hx as [Hx Ex].
      apply Z.eqb_eq in Ex. split; [now apply Ha|congruence]. }
    unfold matches.
    eapply Nat.le_trans; [apply filter_orb_length|].
    assert (H1 : (List.length
                    (filter (fun ns => opt_eqb Z.eqb (ns_player_id ns)
                                         (Some (sc_player_id change)))
                            rows) <= 1)%nat).
    { eapply at_most_one; [exact Hrows|].
      intros a b [D E] Ha Hb. apply opt_eqb_Z in Ha, Hb.
      exact (proj1 (D E) _ Ha Hb). }
    assert (H2 : (List.length
                    (filter (fun ns => opt_eqb String.eqb (ns_team ns)
                                         (Some (pl_team player)))
                            rows) <= 1)%nat).
    { eapply at_most_one; [exact Hrows|].
      intros a b [D E] Ha Hb. apply opt_eqb_string in Ha, Hb.
      exact (proj2 (D E) _ Ha Hb). }
    lia.
Qed.

Lemma settings_stay_unique_witness :
  let created := create_notification_setting lakers_request fan
                                             db_player_only in
  let failed := create_notification_setting curry_request fan
                                             db_player_only in
  unique_targets (notification_settings (snd created))
  /\ List.length (notification_settings (snd created)) = 2%nat
  /\ unique_targets (notification_settings (snd failed))
  /\ fst failed
     = Raised (AttributeError
                 "'NotificationSetting' object has no attribute 'player'")
  /\ List.length (notification_settings (snd failed)) = 2%nat
  /\ (List.length (filter (matches change10 lebron)
                          (settings_of db_player_only fan)) <= 2)%nat.
Proof.
  intros created failed.
  assert (Hu : unique_targets (notification_settings db_player_only)).
  { repeat constructor. }
  destruct (settings_stay_unique lakers_request 2 fan db_player_only
              change10 lebron fan Hu) as [H1 [_ [_ [_ H5]]]].
  destruct (settings_stay_unique curry_request 2 fan db_player_only
              change10 lebron fan Hu) as [H6 _].
  split; [exact H1|]. split; [reflexivity|]. split; [exact H6|].
  split; [reflexivity|]. split; [reflexivity|exact H5].
Defined.

End SettingsFacts.

(** ** processor/injury.py: the statuses depend on the data only *)

Module ExtractFacts.
Import Py Json Extract JsonFacts Examples.

Lemma same_data_type a b :
  same_data a b = true -> type_name a = type_name b.
Proof. destruct a, b; simpl; intros H; try discriminate H; reflexivity. Qed.

Lemma get_keys {V} (d : list (string * V)) k :
  Dict.get String.eqb d k <> None <-> In k (map fst d).
Proof.
  induction d as [|[k0 v0] r IH]; simpl.
  - split; [congruence|intros []].
  - destruct (String.eqb_spec k k0) as [->|Hne].
    + split; [auto|discriminate].
    + rewrite IH. split; [auto|]. intros [E|H]; [congruence|exact H].
Qed.

(** Under every key, dicts holding the same data hold the same data or
    nothing. *)
Lemma same_data_get d d' k :
  wf (JDict d) -> wf (JDict d') ->
  same_data (JDict d) (JDict d') = true ->
  match Dict.get String.eqb d k, Dict.get String.eqb d' k with
  | Some v, Some v' => same_data v v' = true /\ wf v /\ wf v'
  | None, None => True
  | _, _ => False
  end.
Proof.
  intros Hd Hd' Hs. apply wf_dict in Hd, Hd'.
  destruct Hd as [Nd Wd], Hd' as [Nd' Wd'].
  apply same_data_dict in Hs. destruct Hs as [Hlen Hall].
  rewrite Forall_forall in Hall, Wd, Wd'.
  assert (Hincl : incl (map fst d) (map fst d')).
  { intros x Hx. apply in_map_iff in Hx. destruct Hx as [[k0 v0] [<- Hin]].
    destruct (Hall _ Hin) as [v' [Hg _]]. simpl in Hg. simpl.
    apply get_keys. congruence. }
  assert (Hback : incl (map fst d') (map fst d)).
  { apply NoDup_length_incl; [exact Nd| |exact Hincl].
    rewrite !length_map. lia. }
  destruct (Dict.get String.eqb d k) as [v|] eqn:G.
  - apply get_In in G. destruct (Hall _ G) as [v' [Hg Hv]]. simpl in Hg, Hv.
    rewrite Hg. split; [exact Hv|]. split; [exact (Wd _ G)|].
    apply get_In in Hg. exact (Wd' _ Hg).
  - destruct (Dict.get String.eqb d' k) as [v'|] eqn:G'; [|exact I].
    assert (Hk : In k (map fst d')) by (apply get_keys; congruence).
    apply Hback in Hk. apply get_keys in Hk. congruence.
Qed.

Lemma same_data_field d d' k :
  wf (JDict d) -> wf (JDict d') ->
  same_data (JDict d) (JDict d') = true ->
  same_data (get d k) (get d' k) = true.
Proof.
  intros Hd Hd' Hs. pose proof (same_data_get d d' k Hd Hd' Hs) as H.
  unfold get. destruct (Dict.get String.eqb d k), (Dict.get String.eqb d' k);
    try contradiction; [apply H|reflexivity].
Qed.

Lemma status_of_same a b :
  wf a -> wf b -> same_data a b = true ->
  match status_of a, status_of b with
  | Ok x, Ok y => same_status x y = true
  | Raise e, Raise e' => e = e'
  | _, _ => False
  end.
Proof.
  intros Ha Hb Hs.
  destruct a, b; try discriminate Hs; try reflexivity.
  cbn [status_of]. unfold same_status. cbn [raw_player_id raw_player_name
    raw_team raw_status raw_reason raw_details raw_game_date raw_opponent].
  rewrite !(same_data_field _ _ _ Ha Hb Hs). reflexivity.
Qed.

Lemma statuses_of_same l l' :
  Forall wf l -> Forall wf l' ->
  Forall2 (fun x y => same_data x y = true) l l' ->
  match statuses_of l, statuses_of l' with
  | Ok sa, Ok sb => Forall2 (fun x y => same_status x y = true) sa sb
  | Raise e, Raise e' => e = e'
  | _, _ => False
  end.
Proof.
  intros Hl Hl' H. revert Hl Hl'.
  induction H as [|a b l l' Hab Hrest IH]; intros Hl Hl'; simpl;
    [constructor|].
  inversion Hl as [|? ? Wa Wl]; inversion Hl' as [|? ? Wb Wl']; subst.
  pose proof (status_of_same a b Wa Wb Hab) as S.
  destruct (status_of a) as [x|e], (status_of b) as [y|e'];
    simpl; try contradiction; [|exact S].
  specialize (IH Wl Wl').
  destruct (statuses_of l) as [sa|e], (statuses_of l') as [sb|e'];
    simpl; try exact IH.
  constructor; [exact S|exact IH].
Qed.

(** Iterating the keys of a dict or the characters of a string gives
    strings, and a string is no status. *)
Lemma statuses_of_strings (l : list string) :
  statuses_of (map JStr l)
  = match l with
    | [] => Ok []
    | _ :: _ => Raise (AttributeError "'str' object has no attribute 'get'")
    end.
Proof. destruct l; reflexivity. Qed.

(** X29.  The extracted statuses depend on the data only.  Two
    payloads that hold the same data, in whatever key order, which are
    the payloads the fetcher gives one fingerprint, are read alike:
    either both give statuses, as many and in the same order, holding
    the same data field by field, or both raise the same error. *)
Theorem extraction_depends_on_data_only (a b : json) :
  wf a -> wf b -> same_data a b = true ->
  match extract_player_statuses a, extract_player_statuses b with
  | Ok sa, Ok sb => Forall2 (fun x y => same_status x y = true) sa sb
  | Raise e, Raise e' => e = e'
  | _, _ => False
  end.
Proof.
  intros Ha Hb Hs.
  destruct a as [| | | | |l|d], b as [| | | | |l'|d'];
    try discriminate Hs; try reflexivity.
  - simpl in Hs. apply String.eqb_eq in Hs. subst.
    simpl. destruct (contains "players" s0); [reflexivity|constructor].
  - apply same_data_list in Hs. unfold extract_player_statuses.
    assert (E : existsb (fun x => match x with
                                  | JStr s => (s =? "players")%string
                                  | _ => false
                                  end) l
                = existsb (fun x => match x with
                                    | JStr s => (s =? "players")%string
                                    | _ => false
                                    end) l').
    { clear Ha Hb. induction Hs as [|x y r r' Hxy Hr IH]; simpl;
        [reflexivity|].
      rewrite IH. f_equal. destruct x, y; try discriminate Hxy;
        try reflexivity.
      simpl in Hxy. apply String.eqb_eq in Hxy. now subst. }
    rewrite E. destruct (existsb _ l'); [reflexivity|constructor].
  - unfold extract_player_statuses.
    pose proof (same_data_get d d' "players" Ha Hb Hs) as G.
    destruct (Dict.get String.eqb d "players") as [v|],
             (Dict.get String.eqb d' "players") as [v'|];
      try contradiction; [|constructor].
    destruct G as [Hv [Wv Wv']].
    destruct v as [| | | | |pl|pd], v' as [| | | | |pl'|pd'];
      try discriminate Hv; try reflexivity.
    + simpl in Hv. apply String.eqb_eq in Hv. subst. cbn [iterate bind].
      rewrite <- (map_map (fun c => String c "") JStr).
      rewrite statuses_of_strings.
      destruct (map _ (list_ascii_of_string s0)); [constructor|reflexivity].
    + cbn [iterate bind]. apply statuses_of_same.
      * now apply wf_list.
      * now apply wf_list.
      * now apply same_data_list.
    + cbn [iterate bind]. rewrite <- !(map_map fst JStr).
      rewrite !statuses_of_strings.
      apply same_data_dict in Hv. destruct Hv as [Hlen _].
      destruct pd, pd'; try discriminate Hlen; [constructor|reflexivity].
Qed.

Lemma extraction_depends_on_data_only_witness :
  match extract_player_statuses payload_ab,
        extract_player_statuses payload_ba with
  | Ok sa, Ok sb => Forall2 (fun x y => same_status x y = true) sa sb
  | Raise e, Raise e' => e = e'
  | _, _ => False
  end.
Proof.
  apply (extraction_depends_on_data_only payload_ab payload_ba).
  - exact FingerprintFacts.payload_ab_wf.
  - exact FingerprintFacts.payload_ba_wf.
  - vm_compute. reflexivity.
Defined.

End ExtractFacts.

(** ** processor/injury.py: the top-player filter matches by id *)

Module TopPlayersFacts.
Import Py Models Processor TopPlayers Examples.

Lemma code_digit_char d : 0 <= d <= 9 -> code (digit_char d) - 48 = d.
Proof.
  intros H. unfold code, digit_char.
  rewrite nat_ascii_embedding by lia. lia.
Qed.

Lemma digits_of_pos_val fuel :
  forall n acc, 0 <= n < 2 ^ Z.of_nat fuel ->
                val_acc (digits_of_pos fuel n acc) 0 = val_acc acc n.
Proof.
  induction fuel as [|f IH]; intros n acc Hn.
  - simpl in *. replace n with 0 by lia. reflexivity.
  - cbn [digits_of_pos].
    assert (Hm : 0 <= n mod 10 <= 9)
      by (pose proof (Z.mod_pos_bound n 10); lia).
    assert (Hd : n = 10 * (n / 10) + n mod 10) by (apply Z.div_mod; lia).
    destruct (Z.eqb_spec (n / 10) 0) as [E|N].
    + cbn [val_acc]. rewrite code_digit_char by exact Hm.
      f_equal. lia.
    + rewrite IH.
      * cbn [val_acc]. rewrite code_digit_char by exact Hm. f_equal. lia.
      * rewrite Nat2Z.inj_succ, Z.pow_succ_r in Hn by lia.
        assert (0 <= n / 10) by (apply Z.div_pos; lia). lia.
Qed.

Lemma digits_start fuel :
  forall n d acc, 0 <= d <= 9 ->
    exists d' r, 0 <= d' <= 9
                 /\ digits_of_pos fuel n (String (digit_char d) acc)
                    = String (digit_char d') r.
Proof.
  induction fuel as [|f IH]; intros n d acc Hd; simpl; [eauto|].
  destruct (n / 10 =? 0); [|apply IH];
    try (exists (n mod 10); eexists; split; [|reflexivity]);
    pose proof (Z.mod_pos_bound n 10); lia.
Qed.

Lemma digit_char_not d c :
  0 <= d <= 9 -> (code c < 48 \/ 57 < code c) -> digit_char d <> c.
Proof.
  intros Hd Hc E. subst c. unfold code, digit_char in Hc.
  rewrite nat_ascii_embedding in Hc by lia. lia.
Qed.

Lemma str_nonneg n :
  0 <= n ->
  exists d r, 0 <= d <= 9 /\ str_Z n = String (digit_char d) r
              /\ val_acc (str_Z n) 0 = n.
Proof.
  intros Hn. unfold str_Z.
  replace (n <? 0) with false by (symmetry; apply Z.ltb_ge; lia).
  assert (Hb : 0 <= n < 2 ^ Z.of_nat (S (Z.to_nat (Z.log2 n)))).
  { rewrite Nat2Z.inj_succ, Z2Nat.id by apply Z.log2_nonneg.
    destruct (Z.eq_dec n 0) as [->|N]; [simpl; lia|].
    pose proof (Z.log2_spec n). lia. }
  pose proof (digits_of_pos_val _ n "" Hb) as V. simpl in V.
  assert (Hm : 0 <= n mod 10 <= 9)
    by (pose proof (Z.mod_pos_bound n 10); lia).
  cbn [digits_of_pos] in *.
  destruct (n / 10 =? 0).
  - exists (n mod 10). eexists. split; [exact Hm|]. split; [reflexivity|].
    exact V.
  - destruct (digits_start (Z.to_nat (Z.log2 n)) (n / 10) (n mod 10) "" Hm)
      as [d' [r [Hd' E]]].
    exists d', r. split; [exact Hd'|]. split; [exact E|exact V].
Qed.

Lemma str_Z_inj n m : str_Z n = str_Z m -> n = m.
Proof.
  assert (Neg : forall k, k < 0 -> str_Z k = String "-" (str_Z (- k))).
  { intros k Hk. unfold str_Z.
    replace (k <? 0) with true by (symmetry; apply Z.ltb_lt; lia).
    replace (- k <? 0) with false by (symmetry; apply Z.ltb_ge; lia).
    reflexivity. }
  assert (Mixed : forall a b, a < 0 -> 0 <= b -> str_Z a <> str_Z b).
  { intros a b Ha Hb E. rewrite (Neg a Ha) in E.
    destruct (str_nonneg b Hb) as [d [r [Hd [Eb _]]]]. rewrite Eb in E.
    injection E as E _. symmetry in E. revert E.
    apply digit_char_not; [exact Hd|]. left. vm_compute. reflexivity. }
  intros E. destruct (Z_lt_le_dec n 0) as [Hn|Hn],
                     (Z_lt_le_dec m 0) as [Hm|Hm].
  - rewrite (Neg n Hn), (Neg m Hm) in E. injection E as E.
    destruct (str_nonneg (- n)) as [_ [_ [_ [_ V1]]]]; [lia|].
    destruct (str_nonneg (- m)) as [_ [_ [_ [_ V2]]]]; [lia|].
    rewrite E in V1. lia.
  - exfalso. exact (Mixed n m Hn Hm E).
  - exfalso. symmetry in E. exact (Mixed m n Hm Hn E).
  - destruct (str_nonneg n Hn) as [_ [_ [_ [_ V1]]]].
    destruct (str_nonneg m Hm) as [_ [_ [_ [_ V2]]]].
    rewrite E in V1. lia.
Qed.

Lemma str_Z_not_None n : str_Z n <> "None".
Proof.
  destruct (Z_lt_le_dec n 0) as [Hn|Hn].
  - unfold str_Z.
    replace (n <? 0) with true by (symmetry; apply Z.ltb_lt; lia).
    discriminate.
  - destruct (str_nonneg n Hn) as [d [r [Hd [E _]]]]. rewrite E.
    intros [= C _]. revert C. apply digit_char_not; [exact Hd|].
    right. vm_compute. reflexivity.
Qed.

(** Comparing through [str] is comparing the ids. *)
Lemma str_eqb x n :
  (str_opt_Z x =? str_Z n)%string = opt_eqb Z.eqb x (Some n).
Proof.
  destruct x as [m|]; cbn [str_opt_Z opt_eqb].
  - destruct (Z.eqb_spec m n) as [->|N]; [apply String.eqb_refl|].
    apply String.eqb_neq. intros E. apply N. now apply str_Z_inj.
  - apply String.eqb_neq. intros E. symmetry in E.
    exact (str_Z_not_None n E).
Qed.

Lemma find_filter {A} (f g : A -> bool) l :
  find g (filter f l) = find (fun x => f x && g x) l.
Proof.
  induction l as [|a l IH]; simpl; [reflexivity|].
  destruct (f a); simpl; [|exact IH]. destruct (g a); [reflexivity|exact IH].
Qed.

Lemma find_ext_eq {A} (f g : A -> bool) l :
  (forall x, f x = g x) -> find f l = find g l.
Proof.
  intros H. induction l as [|a l IH]; simpl; [reflexivity|].
  now rewrite H, IH.
Qed.

Lemma existsb_map_find {A} (h : A -> string) (s : string) l :
  existsb (String.eqb s) (map h l)
  = match find (fun x => (h x =? s)%string) l with
    | Some _ => true
    | None => false
    end.
Proof.
  induction l as [|a l IH]; simpl; [reflexivity|].
  rewrite (String.eqb_sym s (h a)).
  destruct (h a =? s)%string; [reflexivity|exact IH].
Qed.

(** The rank loop raises at the first player it looks at. *)
Lemma find_rank_raises top_players player_id status :
  top_players <> [] ->
  find_rank top_players player_id status
  = Raise (DetachedInstanceError "Player").
Proof. destruct top_players; [congruence|reflexivity]. Qed.

(** X30.  The top-player filter keeps nothing.  Although
    [_filter_top_players] compares ids through [str], a status is
    matched exactly when a top-100 player has its player id as NBA id,
    a player without NBA id matching nothing.  When no status is
    matched the result is the empty list; as soon as one is, the call
    raises: the loop that looks for the rank reads attributes of
    [Player] instances whose session has committed and closed. *)
Theorem filter_top_players_raises_on_match
    (rows : list Player) (player_statuses : list PlayerStatus) :
  filter_top_players rows player_statuses
  = (if existsb (fun s => match top_player rows (player_id s) with
                          | Some _ => true
                          | None => false
                          end) player_statuses
     then Raise (OtherError "DetachedInstanceError"
                   ("Instance <Player> is not bound to a Session; "
                    ++ "attribute refresh operation cannot proceed"))
     else Ok [])
  /\ filter_top_players [lebron; curry] snapshot2 = Ok []
  /\ filter_top_players [lebron; curry]
       [mk_status 2544 "LeBron James" "LAL" "OUT"]
     = Raise (OtherError "DetachedInstanceError"
                ("Instance <Player> is not bound to a Session; "
                 ++ "attribute refresh operation cannot proceed")).
Proof.
  split; [|split; vm_compute; reflexivity].
  unfold filter_top_players.
  set (tops := filter pl_is_top_100 rows).
  assert (M : forall s,
             existsb (String.eqb (str_Z (player_id s)))
                     (map (fun player => str_opt_Z (pl_nba_id player)) tops)
             = match top_player rows (player_id s) with
               | Some _ => true
               | None => false
               end).
  { intros s. unfold tops.
    rewrite existsb_map_find, find_filter. unfold top_player.
    rewrite (find_ext_eq _ (fun p => pl_is_top_100 p
                                     && opt_eqb Z.eqb (pl_nba_id p)
                                          (Some (player_id s))))
      by (intros p; now rewrite str_eqb).
    reflexivity. }
  induction player_statuses as [|s l IH]; [reflexivity|].
  cbn [filter_loop existsb]. cbv zeta. rewrite <- M.
  destruct (existsb (String.eqb (str_Z (player_id s)))
                    (map (fun player => str_opt_Z (pl_nba_id player)) tops))
    eqn:E.
  - rewrite find_rank_raises; [reflexivity|].
    intros T. rewrite T in E. discriminate E.
  - cbn [orb]. exact IH.
Qed.

End TopPlayersFacts.
